(** * Launch-post generator: the state logic of [src/App.tsx]

    [App.tsx] holds three successive revisions of the one screen.  This
    is a shallow embedding of the logic of the latest one (lines
    1339-1899): the response normalizer inlined in [generatePosts], the
    generation loop, [createNewProject], the extraction handler and the
    platform toggle.  Where the first revision (lines 120-265) differs —
    its normalizer has no fenced-block stage and no defaults, its toggle
    does not save — it is embedded beside the latest, under names ending
    in [_v1].

    JavaScript strings are sequences of UTF-16 code units, and [.length]
    counts code units; a string is therefore a [list N].  Values that come
    out of [JSON.parse] are untyped ([any]), so they are embedded as a
    universe of JavaScript values.  The hosted services (scraper, text
    completion, store) are functions of an environment [Env]; a handler is
    a function from the state of the screen to the state it leaves, and
    everything it does to the outside world is appended to a log. *)

From Stdlib Require Import List Bool Arith ZArith NArith Lia String Ascii.
From Stdlib Require DecimalString.
Import ListNotations.

Set Implicit Arguments.
Set Warnings "-register-all".
Local Open Scope N_scope.

(** ** Strings *)

Definition jsstring := list N.

(** The code units of an ASCII literal. *)
Definition u16 (s : string) : jsstring :=
  List.map N_of_ascii (list_ascii_of_string s).

Definition ch (a : ascii) : N := N_of_ascii a.
Arguments ch : simpl never.

Definition dquote : N := 34.
Definition backslash : N := 92.

Fixpoint str_eqb (a b : jsstring) : bool :=
  match a, b with
  | [], [] => true
  | x :: a', y :: b' => (x =? y) && str_eqb a' b'
  | _, _ => false
  end.

(** [lit p s]: the rest of [s] after the literal [p], when [s] starts
    with [p]. *)
Fixpoint lit (p s : jsstring) : option jsstring :=
  match p with
  | [] => Some s
  | x :: p' =>
      match s with
      | y :: s' => if x =? y then lit p' s' else None
      | [] => None
      end
  end.

(** [String.prototype.substring(0, n)] for [0 <= n]. *)
Definition substring0 (n : nat) (s : jsstring) : jsstring := firstn n s.

(** ** JavaScript values *)

(** A number read from a JSON text: [(-1)^neg * mant * 10^e10], before
    rounding to a double.  Nothing below needs the rounded value, only
    whether it is zero. *)
Record jsnumber := JsNumber { neg : bool; mant : N; e10 : Z }.

Definition num_of_nat (n : nat) : jsnumber :=
  {| neg := false; mant := N.of_nat n; e10 := 0%Z |}.

Inductive value :=
| VUndefined
| VNull
| VBool (b : bool)
| VNum (n : jsnumber)
| VStr (s : jsstring)
| VArr (l : list value)
| VObj (kvs : list (jsstring * value)).

(** A decimal rounds to the double [0] exactly when its magnitude is at
    most [2^-1075], half of the least positive double. *)
Definition rounds_to_zero (n : jsnumber) : bool :=
  if mant n =? 0 then true
  else if (0 <=? e10 n)%Z then false
  else (Z.of_N (mant n) * 2 ^ 1075 <=? 10 ^ (- e10 n))%Z.

(** [ToBoolean]. *)
Definition truthy (v : value) : bool :=
  match v with
  | VUndefined | VNull => false
  | VBool b => b
  | VNum n => negb (rounds_to_zero n)
  | VStr s => match s with [] => false | _ => true end
  | VArr _ | VObj _ => true
  end.

(** [a || b] *)
Definition or_else (a b : value) : value := if truthy a then a else b.

(** Own property of an object built by [JSON.parse]: of two members with
    the same key the later one wins. *)
Fixpoint own_prop (kvs : list (jsstring * value)) (k : jsstring) : option value :=
  match kvs with
  | [] => None
  | (k', v) :: rest =>
      match own_prop rest k with
      | Some w => Some w
      | None => if str_eqb k' k then Some v else None
      end
  end.

Definition k_content : jsstring := u16 "content".
Definition k_reasoning : jsstring := u16 "reasoning".
Definition k_length : jsstring := u16 "length".

(** [v.k] for the three property names the program reads ([content],
    [reasoning], [length]); none of them is an index, and none is defined
    on [Object.prototype].  [None] is the [TypeError] of reading a property
    of [null] or [undefined]. *)
Definition get_prop (v : value) (k : jsstring) : option value :=
  match v with
  | VUndefined | VNull => None
  | VBool _ | VNum _ => Some VUndefined
  | VStr s =>
      Some (if str_eqb k k_length then VNum (num_of_nat (List.length s)) else VUndefined)
  | VArr l =>
      Some (if str_eqb k k_length then VNum (num_of_nat (List.length l)) else VUndefined)
  | VObj kvs =>
      Some (match own_prop kvs k with Some w => w | None => VUndefined end)
  end.

(** ** [JSON.parse] *)

Module JSON.

(** Outcome of a sub-parser: a result and the unread rest, a syntax
    error, or recursion budget exhausted (shown below never to happen). *)
Inductive res (A : Type) :=
| Ok (a : A) (rest : jsstring)
| Err
| Fuel.
Arguments Err {A}.
Arguments Fuel {A}.

Definition is_ws (c : N) : bool :=
  (c =? 9) || (c =? 10) || (c =? 13) || (c =? 32).

Fixpoint skip_ws (s : jsstring) : jsstring :=
  match s with
  | c :: r => if is_ws c then skip_ws r else s
  | [] => []
  end.

Definition is_digit (c : N) : bool := (48 <=? c) && (c <=? 57).

Definition hex_val (c : N) : option N :=
  if is_digit c then Some (c - 48)
  else if (65 <=? c) && (c <=? 70) then Some (c - 55)
  else if (97 <=? c) && (c <=? 102) then Some (c - 87)
  else None.

Definition hex4 (a b c d : N) : option N :=
  match hex_val a, hex_val b, hex_val c, hex_val d with
  | Some x, Some y, Some z, Some w => Some (((x * 16 + y) * 16 + z) * 16 + w)
  | _, _, _, _ => None
  end.

(** The character of a one-letter escape. *)
Definition unescape (e : N) : option N :=
  if e =? dquote then Some dquote
  else if e =? backslash then Some backslash
  else if e =? ch "/" then Some (ch "/")
  else if e =? ch "b" then Some 8
  else if e =? ch "f" then Some 12
  else if e =? ch "n" then Some 10
  else if e =? ch "r" then Some 13
  else if e =? ch "t" then Some 9
  else None.

(** The characters of a string after its opening quote, up to and
    including the closing quote; [acc] is what was read, reversed. *)
Fixpoint p_chars (s acc : jsstring) : option (jsstring * jsstring) :=
  match s with
  | [] => None
  | c :: r =>
      if c =? dquote then Some (rev acc, r)
      else if c =? backslash then
        match r with
        | [] => None
        | e :: r1 =>
            if e =? ch "u" then
              match r1 with
              | h1 :: h2 :: h3 :: h4 :: r2 =>
                  match hex4 h1 h2 h3 h4 with
                  | Some u => p_chars r2 (u :: acc)
                  | None => None
                  end
              | _ => None
              end
            else
              match unescape e with
              | Some u => p_chars r1 (u :: acc)
              | None => None
              end
        end
      else if c <? 32 then None
      else p_chars r (c :: acc)
  end.

(** A maximal run of digits, read as a number with [acc] in front;
    the count of digits read comes with it. *)
Fixpoint p_digits (s : jsstring) (acc : N) (cnt : nat) : N * nat * jsstring :=
  match s with
  | c :: r => if is_digit c then p_digits r (acc * 10 + (c - 48)) (S cnt) else (acc, cnt, s)
  | [] => (acc, cnt, [])
  end.

(** The parts of a number: [-? int frac? exp?]. *)
Definition p_sign (s : jsstring) : bool * jsstring :=
  match s with
  | c :: r => if c =? ch "-" then (true, r) else (false, s)
  | [] => (false, s)
  end.

(** [0], or a run of digits that does not start with [0]. *)
Definition p_int (s : jsstring) : option (N * jsstring) :=
  match s with
  | c :: r =>
      if c =? ch "0" then Some (0, r)
      else if is_digit c then
        let '(m, _, r') := p_digits s 0 O in Some (m, r')
      else None
  | [] => None
  end.

(** An optional [.] with at least one digit; the digits extend the
    mantissa [m], and their count is returned. *)
Definition p_frac (m : N) (s : jsstring) : option (N * nat * jsstring) :=
  match s with
  | c :: r =>
      if c =? ch "." then
        let '(m', k, r') := p_digits r m O in
        match k with O => None | _ => Some (m', k, r') end
      else Some (m, O, s)
  | [] => Some (m, O, s)
  end.

Definition p_esign (s : jsstring) : bool * jsstring :=
  match s with
  | d :: r =>
      if d =? ch "-" then (true, r)
      else if d =? ch "+" then (false, r)
      else (false, s)
  | [] => (false, s)
  end.

(** An optional exponent: [e] or [E], a sign, at least one digit. *)
Definition p_exp (s : jsstring) : option (Z * jsstring) :=
  match s with
  | c :: r =>
      if (c =? ch "e") || (c =? ch "E") then
        let '(esgn, r1) := p_esign r in
        let '(x, n, r2) := p_digits r1 0 O in
        match n with
        | O => None
        | _ => Some ((if esgn then - Z.of_N x else Z.of_N x)%Z, r2)
        end
      else Some (0%Z, s)
  | [] => Some (0%Z, s)
  end.

Definition p_number (s : jsstring) : option (jsnumber * jsstring) :=
  let '(sgn, s1) := p_sign s in
  match p_int s1 with
  | None => None
  | Some (m, s2) =>
      match p_frac m s2 with
      | None => None
      | Some (m', k, s3) =>
          match p_exp s3 with
          | None => None
          | Some (x, s4) =>
              Some ({| neg := sgn; mant := m'; e10 := (x - Z.of_nat k)%Z |}, s4)
          end
      end
  end.

Definition t_true : jsstring := u16 "true".
Definition t_false : jsstring := u16 "false".
Definition t_null : jsstring := u16 "null".

(** A value that is neither an array nor an object, at [s] (which
    starts at the value). *)
Definition p_scalar (s : jsstring) : res value :=
  match s with
  | [] => Err
  | c :: r =>
      if c =? dquote then
        match p_chars r [] with
        | Some (str, r') => Ok (VStr str) r'
        | None => Err
        end
      else if c =? ch "t" then
        match lit t_true s with Some r' => Ok (VBool true) r' | None => Err end
      else if c =? ch "f" then
        match lit t_false s with Some r' => Ok (VBool false) r' | None => Err end
      else if c =? ch "n" then
        match lit t_null s with Some r' => Ok VNull r' | None => Err end
      else
        match p_number s with
        | Some (n, r') => Ok (VNum n) r'
        | None => Err
        end
  end.

Arguments p_scalar : simpl never.

(** Recursive descent.  [p_value] reads one value after optional white
    space; [p_elems] the elements of an array after its bracket, the
    array not being empty; [p_members] likewise the members of an
    object.  Accumulators are reversed. *)
Fixpoint p_value (fuel : nat) (s : jsstring) : res value :=
  match fuel with
  | O => Fuel
  | S f =>
      match skip_ws s with
      | [] => Err
      | c :: r =>
          if c =? ch "[" then
            match skip_ws r with
            | c' :: r' => if c' =? ch "]" then Ok (VArr []) r' else p_elems f r []
            | [] => Err
            end
          else if c =? ch "{" then
            match skip_ws r with
            | c' :: r' => if c' =? ch "}" then Ok (VObj []) r' else p_members f r []
            | [] => Err
            end
          else p_scalar (c :: r)
      end
  end
with p_elems (fuel : nat) (s : jsstring) (acc : list value) : res value :=
  match fuel with
  | O => Fuel
  | S f =>
      match p_value f s with
      | Ok v r =>
          match skip_ws r with
          | c :: r' =>
              if c =? ch "," then p_elems f r' (v :: acc)
              else if c =? ch "]" then Ok (VArr (rev (v :: acc))) r'
              else Err
          | [] => Err
          end
      | Err => Err
      | Fuel => Fuel
      end
  end
with p_members (fuel : nat) (s : jsstring) (acc : list (jsstring * value)) : res value :=
  match fuel with
  | O => Fuel
  | S f =>
      match skip_ws s with
      | c :: r =>
          if c =? dquote then
            match p_chars r [] with
            | Some (k, r1) =>
                match skip_ws r1 with
                | c1 :: r2 =>
                    if c1 =? ch ":" then
                      match p_value f r2 with
                      | Ok v r3 =>
                          match skip_ws r3 with
                          | c3 :: r4 =>
                              if c3 =? ch "," then p_members f r4 ((k, v) :: acc)
                              else if c3 =? ch "}" then Ok (VObj (rev ((k, v) :: acc))) r4
                              else Err
                          | [] => Err
                          end
                      | Err => Err
                      | Fuel => Fuel
                      end
                    else Err
                | [] => Err
                end
            | None => Err
            end
          else Err
      | [] => Err
      end
  end.

Definition budget (s : jsstring) : nat := 2 * List.length s + 1.

(** [JSON.parse(s)]; [None] is the [SyntaxError]. *)
Definition parse (s : jsstring) : option value :=
  match p_value (budget s) s with
  | Ok v r => match skip_ws r with [] => Some v | _ => None end
  | _ => None
  end.

End JSON.

(** ** The fence pattern

    [/```(?:json)?\s*({[\s\S]*?})\s*```/], as [String.prototype.match]
    runs it: a backtracking search, leftmost start first.  Each
    quantifier is a function that takes the rest of the pattern as a
    continuation [k], and tries its alternatives in the order of the
    regular-expression semantics. *)

Module Fence.

(** The class [\s]: white space and line terminators. *)
Definition is_space (c : N) : bool :=
  ((9 <=? c) && (c <=? 13)) || (c =? 32) || (c =? 160) || (c =? 5760)
  || ((8192 <=? c) && (c <=? 8202)) || (c =? 8232) || (c =? 8233)
  || (c =? 8239) || (c =? 8287) || (c =? 12288) || (c =? 65279).

Definition backtick : N := 96.
Definition lbrace : N := 123.
Definition rbrace : N := 125.
Definition fence : jsstring := [backtick; backtick; backtick].
Definition json_tag : jsstring := u16 "json".

(** [\s*], greedy: one more space first, and only if the rest of the
    pattern then fails, stop here. *)
Fixpoint greedy_space {A : Type} (k : jsstring -> option A) (s : jsstring) : option A :=
  match s with
  | c :: r =>
      if is_space c then
        match greedy_space k r with
        | Some a => Some a
        | None => k s
        end
      else k s
  | [] => k []
  end.

(** [[\s\S]*?], lazy: stop here first, and only if the rest of the
    pattern fails, take one more code unit.  [taken] is what the
    quantifier has consumed, reversed. *)
Fixpoint lazy_any {A : Type} (k : jsstring -> jsstring -> option A)
         (taken s : jsstring) : option A :=
  match k (rev taken) s with
  | Some a => Some a
  | None =>
      match s with
      | c :: r => lazy_any k (c :: taken) r
      | [] => None
      end
  end.

(** [\s*```] closing the pattern after the group has captured [cap]. *)
Definition closing (cap : jsstring) (s : jsstring) : option jsstring :=
  greedy_space (fun s' => match lit fence s' with
                          | Some _ => Some cap
                          | None => None
                          end) s.

(** [({[\s\S]*?})\s*```]; the result is the text of group 1. *)
Definition group (s : jsstring) : option jsstring :=
  match s with
  | c :: r =>
      if c =? lbrace then
        lazy_any (fun body s' =>
                    match s' with
                    | c' :: r' =>
                        if c' =? rbrace
                        then closing (lbrace :: body ++ [rbrace]) r'
                        else None
                    | [] => None
                    end) [] r
      else None
  | [] => None
  end.

(** [\s*({[\s\S]*?})\s*```] *)
Definition tail (s : jsstring) : option jsstring := greedy_space group s.

(** The whole pattern anchored at the start of [s]; [(?:json)?] is
    greedy, so the tag is tried first. *)
Definition here (s : jsstring) : option jsstring :=
  match lit fence s with
  | None => None
  | Some s1 =>
      match lit json_tag s1 with
      | Some s2 =>
          match tail s2 with
          | Some cap => Some cap
          | None => tail s1
          end
      | None => tail s1
      end
  end.

(** [text.match(re)]: [None] for [null], else group 1 of the leftmost
    match. *)
Fixpoint find (s : jsstring) : option jsstring :=
  match here s with
  | Some cap => Some cap
  | None =>
      match s with
      | _ :: r => find r
      | [] => None
      end
  end.

End Fence.

(** ** The response normalizer (the [try]/[catch] of [generatePosts]) *)

Record GeneratedPost := {
  post_id : option jsstring;
  platform : jsstring;
  content : value;
  characterCount : value;
  reasoning : value
}.

Definition default_reasoning : jsstring :=
  u16 "Generated using AI optimization strategies".

(** The post built from a parsed answer:
    [{ platform, content: parsed.content || text,
       characterCount: (parsed.content || text).length,
       reasoning: parsed.reasoning || '...' }].
    [None] when a property read throws. *)
Definition parsed_post (pf text : jsstring) (parsed : value) : option GeneratedPost :=
  match get_prop parsed k_content with
  | None => None
  | Some c =>
      match get_prop (or_else c (VStr text)) k_length with
      | None => None
      | Some n =>
          match get_prop parsed k_reasoning with
          | None => None
          | Some r =>
              Some {| post_id := None;
                      platform := pf;
                      content := or_else c (VStr text);
                      characterCount := n;
                      reasoning := or_else r (VStr default_reasoning) |}
          end
      end
  end.

(** The body of a [try] block: [JSON.parse(src)] and the post built from
    it; [None] when anything in the block throws. *)
Definition try_parsed (pf text src : jsstring) : option GeneratedPost :=
  match JSON.parse src with
  | Some parsed => parsed_post pf text parsed
  | None => None
  end.

(** The final fallback. *)
Definition fallback_post (pf text : jsstring) : GeneratedPost :=
  {| post_id := None;
     platform := pf;
     content := VStr text;
     characterCount := VNum (num_of_nat (List.length text));
     reasoning := VStr default_reasoning |}.

(** The post pushed for the answer [text] of platform [pf]. *)
Definition normalize (pf text : jsstring) : GeneratedPost :=
  match try_parsed pf text text with
  | Some p => p
  | None =>
      match Fence.find text with
      | Some cap =>
          match try_parsed pf text cap with
          | Some p => p
          | None => fallback_post pf text
          end
      | None => fallback_post pf text
      end
  end.

(** The first revision of the same block (lines 173-189): one [try]
    around [JSON.parse] and the reads, no defaults, and the fallback in
    the [catch]. *)
Definition normalize_v1 (pf text : jsstring) : GeneratedPost :=
  match JSON.parse text with
  | None => fallback_post pf text
  | Some parsed =>
      match get_prop parsed k_content with
      | None => fallback_post pf text
      | Some c =>
          match get_prop c k_length with
          | None => fallback_post pf text
          | Some n =>
              match get_prop parsed k_reasoning with
              | None => fallback_post pf text
              | Some r =>
                  {| post_id := None; platform := pf; content := c;
                     characterCount := n; reasoning := r |}
              end
          end
      end
  end.

(** ** The data of the screen *)

Record Platform := { pid : jsstring; pname : jsstring; limit : N }.

(** [PLATFORMS] (icon and colour are display only). *)
Definition PLATFORMS : list Platform :=
  [ {| pid := u16 "producthunt"; pname := u16 "Product Hunt"; limit := 260 |};
    {| pid := u16 "twitter"; pname := u16 "X (Twitter)"; limit := 280 |};
    {| pid := u16 "linkedin"; pname := u16 "LinkedIn"; limit := 3000 |};
    {| pid := u16 "reddit"; pname := u16 "Reddit"; limit := 40000 |} ].

(** [PLATFORMS.find(p => p.id === platform)] *)
Definition find_platform (id : jsstring) : option Platform :=
  List.find (fun p => str_eqb (pid p) id) PLATFORMS.

(** What the scraper returns beside the markdown; of [metadata] the
    program reads [title] and [description], both optional strings. *)
Record Metadata := {
  meta_title : option jsstring;
  meta_description : option jsstring
}.

Record ScrapeResult := { markdown : jsstring; metadata : Metadata }.

Record WebsiteData := {
  wd_url : jsstring;
  wd_title : jsstring;
  wd_description : jsstring;
  wd_content : jsstring;
  wd_metadata : Metadata
}.

Record User := { user_id : jsstring }.

(** The column [websiteMetadata] holds a text.  The handlers write there
    what [JSON.stringify] makes of the metadata of a page, a text that
    [JSON.parse] reads back as that metadata; a record of the store may
    hold any other text. *)
Inductive MetadataText :=
| Stringified (m : Metadata)
| OtherText (t : jsstring).

Record Project := {
  pr_id : jsstring;
  pr_userId : jsstring;
  pr_name : jsstring;
  pr_websiteUrl : option jsstring;
  pr_websiteTitle : option jsstring;
  pr_websiteDescription : option jsstring;
  pr_websiteContent : option jsstring;
  pr_websiteMetadata : option MetadataText;
  pr_selectedPlatforms : option (list jsstring);
  pr_createdAt : jsstring;
  pr_updatedAt : jsstring
}.

(** The two [Partial<Project>] objects the handlers below write. *)
Inductive ProjectPatch :=
| PatchWebsite (info : WebsiteData) (updatedAt : jsstring)
| PatchPlatforms (ids : list jsstring) (updatedAt : jsstring).

(** [{ ...p, ...patch }] *)
Definition apply_patch (patch : ProjectPatch) (p : Project) : Project :=
  match patch with
  | PatchWebsite info t =>
      {| pr_id := pr_id p; pr_userId := pr_userId p; pr_name := pr_name p;
         pr_websiteUrl := Some (wd_url info);
         pr_websiteTitle := Some (wd_title info);
         pr_websiteDescription := Some (wd_description info);
         pr_websiteContent := Some (wd_content info);
         pr_websiteMetadata := Some (Stringified (wd_metadata info));
         pr_selectedPlatforms := pr_selectedPlatforms p;
         pr_createdAt := pr_createdAt p; pr_updatedAt := t |}
  | PatchPlatforms ids t =>
      {| pr_id := pr_id p; pr_userId := pr_userId p; pr_name := pr_name p;
         pr_websiteUrl := pr_websiteUrl p;
         pr_websiteTitle := pr_websiteTitle p;
         pr_websiteDescription := pr_websiteDescription p;
         pr_websiteContent := pr_websiteContent p;
         pr_websiteMetadata := pr_websiteMetadata p;
         pr_selectedPlatforms := Some ids;
         pr_createdAt := pr_createdAt p; pr_updatedAt := t |}
  end.

Inductive Role := RUser | RAssistant.
Record ChatMessage := { role : Role; msg_content : jsstring }.

(** What a handler does to the outside world: calls of the hosted
    services, notices shown to the user, console output. *)
Inductive event :=
| Scrape (url : jsstring)
| GenerateText (prompt : jsstring)
| DbCreateProject (p : Project)
| DbUpdateProject (id : jsstring) (patch : ProjectPatch)
| DbCreatePost (id projectId userId : jsstring) (post : GeneratedPost)
| ToastError (msg : jsstring)
| ToastSuccess (msg : jsstring)
| ConsoleError (msg : jsstring).

Definition is_db (e : event) : bool :=
  match e with
  | DbCreateProject _ | DbUpdateProject _ _ | DbCreatePost _ _ _ _ => true
  | _ => false
  end.

Definition is_ai (e : event) : bool :=
  match e with GenerateText _ => true | _ => false end.

(** The state of the component, and the log of what it did so far,
    oldest first.  The progress bar, its caption, the busy flags and the
    project-selector flag only drive the display and are left out. *)
Record AppState := {
  user : option User;
  projects : list Project;
  currentProject : option Project;
  websiteUrl : jsstring;
  websiteData : option WebsiteData;
  selectedPlatforms : list jsstring;
  generatedPosts : list GeneratedPost;
  chatMessages : list ChatMessage;
  log : list event
}.

(** The hosted services, as the handlers see them.  A call that rejects
    is [None] (or [false] for a store request); the answer of the text
    service may depend on which call of the run it is. *)
Record Env := {
  scrape : jsstring -> option ScrapeResult;
  generateText : nat -> jsstring -> option jsstring;
  db_ok : nat -> bool;              (* does the n-th store request succeed *)
  locale_date : jsstring;           (* new Date().toLocaleDateString() *)
  iso_now : jsstring;               (* new Date().toISOString() *)
  fresh : nat -> jsstring           (* `${Date.now()}_${random}` *)
}.

Definition emit (e : event) (st : AppState) : AppState :=
  {| user := user st; projects := projects st; currentProject := currentProject st;
     websiteUrl := websiteUrl st; websiteData := websiteData st;
     selectedPlatforms := selectedPlatforms st; generatedPosts := generatedPosts st;
     chatMessages := chatMessages st; log := log st ++ [e] |}.

Definition setWebsiteData (w : option WebsiteData) (st : AppState) : AppState :=
  {| user := user st; projects := projects st; currentProject := currentProject st;
     websiteUrl := websiteUrl st; websiteData := w;
     selectedPlatforms := selectedPlatforms st; generatedPosts := generatedPosts st;
     chatMessages := chatMessages st; log := log st |}.

Definition setSelectedPlatforms (l : list jsstring) (st : AppState) : AppState :=
  {| user := user st; projects := projects st; currentProject := currentProject st;
     websiteUrl := websiteUrl st; websiteData := websiteData st;
     selectedPlatforms := l; generatedPosts := generatedPosts st;
     chatMessages := chatMessages st; log := log st |}.

Definition setGeneratedPosts (l : list GeneratedPost) (st : AppState) : AppState :=
  {| user := user st; projects := projects st; currentProject := currentProject st;
     websiteUrl := websiteUrl st; websiteData := websiteData st;
     selectedPlatforms := selectedPlatforms st; generatedPosts := l;
     chatMessages := chatMessages st; log := log st |}.

(** [setCurrentProject(prev => prev ? { ...prev, ...patch } : null)] and
    [setProjects(prev => prev.map(p => p.id === id ? { ...p, ...patch } : p))] *)
Definition patchProject (id : jsstring) (patch : ProjectPatch) (st : AppState) : AppState :=
  {| user := user st;
     projects := List.map (fun p => if str_eqb (pr_id p) id then apply_patch patch p else p)
                          (projects st);
     currentProject := option_map (apply_patch patch) (currentProject st);
     websiteUrl := websiteUrl st; websiteData := websiteData st;
     selectedPlatforms := selectedPlatforms st; generatedPosts := generatedPosts st;
     chatMessages := chatMessages st; log := log st |}.

(** How many store requests the log holds: the index of the next one. *)
Definition db_count (st : AppState) : nat := List.length (List.filter is_db (log st)).

(** ** [createNewProject]

    A handler reads the state of the render it was created in, [snap],
    and writes to the live state [st]. *)
Definition createNewProject (env : Env) (snap st : AppState) : AppState :=
  match user snap with
  | None => st
  | Some u =>
      let newProject :=
        {| pr_id := u16 "proj_" ++ fresh env (List.length (log st));
           pr_userId := user_id u;
           pr_name := u16 "Launch Project " ++ locale_date env;
           pr_websiteUrl := None; pr_websiteTitle := None;
           pr_websiteDescription := None; pr_websiteContent := None;
           pr_websiteMetadata := None; pr_selectedPlatforms := None;
           pr_createdAt := iso_now env; pr_updatedAt := iso_now env |} in
      let st1 := emit (DbCreateProject newProject) st in
      if db_ok env (db_count st) then
        (* Reset current state; update projects list and set as current *)
        emit (ToastSuccess (u16 "New project created!"))
             {| user := user st1;
                projects := newProject :: projects st1;
                currentProject := Some newProject;
                websiteUrl := [];
                websiteData := None;
                selectedPlatforms := [u16 "producthunt"];
                generatedPosts := [];
                chatMessages := [];
                log := log st1 |}
      else
        emit (ToastError (u16 "Failed to create new project"))
             (emit (ConsoleError (u16 "Error creating project:")) st1)
  end.

(** ** [extractWebsiteData] *)

(** [!url.trim()]: nothing but white space. *)
Definition blank (s : jsstring) : bool := forallb Fence.is_space s.

(** [x || d] for an optional string. *)
Definition str_or (x : option jsstring) (d : jsstring) : jsstring :=
  match x with
  | Some (c :: r) => c :: r
  | _ => d
  end.

Definition extractWebsiteData (env : Env) (s : AppState) : AppState :=
  if blank (websiteUrl s) then
    emit (ToastError (u16 "Please enter a website URL")) s
  else
    (* Create a new project if user doesn't have one *)
    let st1 :=
      match currentProject s, user s with
      | None, Some _ => createNewProject env s s
      | _, _ => s
      end in
    let st2 := emit (Scrape (websiteUrl s)) st1 in
    match scrape env (websiteUrl s) with
    | None =>
        emit (ToastError (u16 "Failed to extract website content"))
             (emit (ConsoleError (u16 "Error extracting website:")) st2)
    | Some res =>
        let websiteInfo :=
          {| wd_url := websiteUrl s;
             wd_title := str_or (meta_title (metadata res)) (u16 "Untitled");
             wd_description := str_or (meta_description (metadata res)) [];
             wd_content := markdown res;
             wd_metadata := metadata res |} in
        let st3 := setWebsiteData (Some websiteInfo) st2 in
        (* Auto-save project if we have one *)
        let st4 :=
          match currentProject s, user s with
          | Some cp, Some _ =>
              let patch := PatchWebsite websiteInfo (iso_now env) in
              let st' := emit (DbUpdateProject (pr_id cp) patch) st3 in
              if db_ok env (db_count st3) then patchProject (pr_id cp) patch st'
              else emit (ConsoleError (u16 "Error auto-saving project:")) st'
          | _, _ => st3
          end in
        emit (ToastSuccess (u16 "Website content extracted successfully!")) st4
    end.

(** ** [generatePosts] *)

Definition nl : jsstring := [10].
Definition quoted (s : jsstring) : jsstring := dquote :: s ++ [dquote].

(** A number in a template literal. *)
Definition dec (n : N) : jsstring := u16 (DecimalString.NilZero.string_of_uint (N.to_uint n)).

(** [${platformInfo?.name}] and [${platformInfo?.limit}]: an absent
    platform prints as [undefined]. *)
Definition name_text (info : option Platform) : jsstring :=
  match info with Some p => pname p | None => u16 "undefined" end.

Definition limit_text (info : option Platform) : jsstring :=
  match info with Some p => dec (limit p) | None => u16 "undefined" end.

(** The instruction sent for one platform. *)
Definition build_prompt (info : option Platform) (wd : WebsiteData) : jsstring :=
  u16 "You are an expert product launch copywriter. Create an optimized launch post for "
    ++ name_text info ++ u16 "." ++ nl
  ++ nl
  ++ u16 "Website Information:" ++ nl
  ++ u16 "- Title: " ++ wd_title wd ++ nl
  ++ u16 "- Description: " ++ wd_description wd ++ nl
  ++ u16 "- URL: " ++ wd_url wd ++ nl
  ++ u16 "- Content: " ++ substring0 2000 (wd_content wd) ++ u16 "..." ++ nl
  ++ nl
  ++ u16 "Platform: " ++ name_text info ++ nl
  ++ u16 "Character Limit: " ++ limit_text info ++ nl
  ++ nl
  ++ u16 "Requirements:" ++ nl
  ++ u16 "1. Create compelling, engaging copy that drives clicks and engagement" ++ nl
  ++ u16 "2. Use proven launch strategies and hooks" ++ nl
  ++ u16 "3. Include relevant hashtags and mentions where appropriate" ++ nl
  ++ u16 "4. Stay within character limits" ++ nl
  ++ u16 "5. Make it platform-specific and optimized" ++ nl
  ++ nl
  ++ u16 "Please provide:" ++ nl
  ++ u16 "1. The final post content" ++ nl
  ++ u16 "2. Your reasoning and strategy behind the copy" ++ nl
  ++ nl
  ++ u16 "Format your response as JSON:" ++ nl
  ++ u16 "{" ++ nl
  ++ u16 "  " ++ quoted (u16 "content") ++ u16 ": "
     ++ quoted (u16 "the actual post content") ++ u16 "," ++ nl
  ++ u16 "  " ++ quoted (u16 "reasoning") ++ u16 ": "
     ++ quoted (u16 "explanation of your strategy and choices") ++ nl
  ++ u16 "}".

Definition prompt_for (wd : WebsiteData) (id : jsstring) : jsstring :=
  build_prompt (find_platform id) wd.

(** The [for] loop from index [i] on: [ids] are the platforms still to
    do, [posts] the local array.  A rejected call leaves the loop by the
    exception ([None]); the local array is lost with it. *)
Fixpoint generate_loop (env : Env) (wd : WebsiteData) (i : nat) (ids : list jsstring)
         (posts : list GeneratedPost) (st : AppState)
  : option (list GeneratedPost) * AppState :=
  match ids with
  | [] => (Some posts, st)
  | pf :: rest =>
      let prompt := prompt_for wd pf in
      let st1 := emit (GenerateText prompt) st in
      match generateText env i prompt with
      | None => (None, st1)
      | Some text => generate_loop env wd (S i) rest (posts ++ [normalize pf text]) st1
      end
  end.

(** Saving the posts, inside its own [try]: the first request that fails
    ends it. *)
Fixpoint save_posts (env : Env) (cp : Project) (u : User) (posts : list GeneratedPost)
         (st : AppState) : AppState :=
  match posts with
  | [] => st
  | post :: rest =>
      let st1 := emit (DbCreatePost (u16 "post_" ++ fresh env (List.length (log st)))
                                    (pr_id cp) (user_id u) post) st in
      if db_ok env (db_count st) then save_posts env cp u rest st1
      else emit (ConsoleError (u16 "Error saving posts to database:")) st1
  end.

Definition generatePosts (env : Env) (s : AppState) : AppState :=
  match websiteData s, selectedPlatforms s with
  | None, _ | _, [] =>
      emit (ToastError (u16 "Please extract website data and select platforms first")) s
  | Some wd, ids =>
      match generate_loop env wd 0 ids [] s with
      | (Some posts, st1) =>
          let st2 := setGeneratedPosts posts st1 in
          (* Save posts to database if we have a current project *)
          let st3 :=
            match currentProject s, user s with
            | Some cp, Some u => save_posts env cp u posts st2
            | _, _ => st2
            end in
          emit (ToastSuccess (u16 "Launch posts generated successfully!")) st3
      | (None, st1) =>
          emit (ToastError (u16 "Failed to generate launch posts"))
               (emit (ConsoleError (u16 "Error generating posts:")) st1)
      end
  end.

(** ** [togglePlatform] *)

(** [ids.includes(p) ? ids.filter(id => id !== p) : [...ids, p]] *)
Definition toggle (p : jsstring) (ids : list jsstring) : list jsstring :=
  if existsb (str_eqb p) ids
  then List.filter (fun id => negb (str_eqb id p)) ids
  else ids ++ [p].

Definition togglePlatform (env : Env) (platformId : jsstring) (s : AppState) : AppState :=
  let newPlatforms := toggle platformId (selectedPlatforms s) in
  let st1 := setSelectedPlatforms newPlatforms s in
  (* Auto-save platform selection if we have a current project *)
  match currentProject s, user s with
  | Some cp, Some _ =>
      let patch := PatchPlatforms newPlatforms (iso_now env) in
      let st2 := emit (DbUpdateProject (pr_id cp) patch) st1 in
      if db_ok env (db_count st1) then patchProject (pr_id cp) patch st2
      else emit (ConsoleError (u16 "Error auto-saving platform selection:")) st2
  | _, _ => st1
  end.

(** The first revision (lines 259-265):
    [setSelectedPlatforms(prev => ...)], and nothing else. *)
Definition togglePlatform_v1 (platformId : jsstring) (s : AppState) : AppState :=
  setSelectedPlatforms (toggle platformId (selectedPlatforms s)) s.

(** The text-service calls of a log, in order. *)
Definition ai_calls (l : list event) : list jsstring :=
  flat_map (fun e => match e with GenerateText p => [p] | _ => [] end) l.

(** The calls a loop over [ids] makes, and the posts it pushes for the
    answers [texts]. *)
Definition calls (wd : WebsiteData) (ids : list jsstring) : list event :=
  List.map (fun id => GenerateText (prompt_for wd id)) ids.

Definition posts_of (ids texts : list jsstring) : list GeneratedPost :=
  List.map (fun it => normalize (fst it) (snd it)) (combine ids texts).

(** The posts a run of [generatePosts] hands to [setGeneratedPosts];
    [None] when the run stops before that. *)
Definition emitted (env : Env) (s : AppState) : option (list GeneratedPost) :=
  match websiteData s, selectedPlatforms s with
  | None, _ | _, [] => None
  | Some wd, ids => fst (generate_loop env wd 0 ids [] s)
  end.

(** Appending a run of events to the log. *)
Definition emit_all (evs : list event) (st : AppState) : AppState :=
  fold_left (fun s e => emit e s) evs st.

(** The spec's words for a fenced block: a triple backtick, an optional
    [json] tag, an object, a triple backtick, anywhere in [raw]; white
    space may stand on either side of the object.  [obj] is the text of
    the object. *)
Definition spaces : jsstring -> Prop := Forall (fun c => Fence.is_space c = true).
Definition no_backtick : jsstring -> Prop := Forall (fun c => c <> Fence.backtick).

Definition contains_fenced (raw obj : jsstring) : Prop :=
  exists pre tag ws1 body ws2 post,
    raw = pre ++ Fence.fence ++ tag ++ ws1 ++ obj ++ ws2 ++ Fence.fence ++ post /\
    (tag = [] \/ tag = Fence.json_tag) /\
    spaces ws1 /\ spaces ws2 /\
    obj = Fence.lbrace :: body ++ [Fence.rbrace].

(** A fenced block that starts at the head of [s]. *)
Definition fenced_here (s obj : jsstring) : Prop :=
  exists tag ws1 body ws2 post,
    s = Fence.fence ++ tag ++ ws1 ++ obj ++ ws2 ++ Fence.fence ++ post /\
    (tag = [] \/ tag = Fence.json_tag) /\
    spaces ws1 /\ spaces ws2 /\
    obj = Fence.lbrace :: body ++ [Fence.rbrace].

(** The first fenced block of [raw]: no fenced block starts before it,
    and of the blocks that start where it starts its object text is the
    shortest (the block is closed at the first brace that white space
    and a triple backtick follow). *)
Definition first_fenced (raw obj : jsstring) : Prop :=
  exists pre s,
    raw = pre ++ s /\
    fenced_here s obj /\
    (forall pre1 pre2 obj', pre = pre1 ++ pre2 -> pre2 <> [] ->
                            ~ fenced_here (pre2 ++ s) obj') /\
    (forall obj', fenced_here s obj' -> (List.length obj <= List.length obj')%nat).

(** ** Sample answers, pages and services *)

Module Samples.

Definition producthunt : jsstring := u16 "producthunt".
Definition twitter : jsstring := u16 "twitter".
Definition linkedin : jsstring := u16 "linkedin".
Definition mastodon : jsstring := u16 "mastodon".

(** [{ k : v }] and [{ k1 : v1, k2 : v2 }] with string members. *)
Definition obj1 (k v : jsstring) : jsstring :=
  u16 "{" ++ quoted k ++ u16 ":" ++ quoted v ++ u16 "}".
Definition obj2 (k1 v1 k2 v2 : jsstring) : jsstring :=
  u16 "{" ++ quoted k1 ++ u16 ":" ++ quoted v1 ++ u16 ","
          ++ quoted k2 ++ u16 ":" ++ quoted v2 ++ u16 "}".

(** An object whose [content] is the empty string. *)
Definition empty_content : jsstring := obj1 k_content [].

(** An object whose [reasoning] is the empty string. *)
Definition empty_reasoning : jsstring := obj2 k_content (u16 "x") k_reasoning [].

(** The answer of the spec's scenario. *)
Definition acme_answer : jsstring :=
  obj2 k_content (u16 "Launching Acme!") k_reasoning (u16 "Short punchy hook").

Definition hi_object : jsstring := obj1 k_content (u16 "Hi").

(** Prose, a fenced block with the tag, prose. *)
Definition fenced_hi : jsstring :=
  u16 "Here you go:" ++ nl ++ Fence.fence ++ Fence.json_tag ++ nl
    ++ hi_object ++ nl ++ Fence.fence ++ u16 " bye".

(** A fenced block that is no JSON, then the block of [fenced_hi]. *)
Definition two_fences : jsstring :=
  Fence.fence ++ u16 "{x}" ++ Fence.fence ++ u16 " " ++ Fence.fence ++ Fence.json_tag
    ++ hi_object ++ Fence.fence.

(** A fenced object whose [content] is the empty string. *)
Definition fenced_empty : jsstring :=
  Fence.fence ++ Fence.json_tag ++ nl ++ empty_content ++ nl ++ Fence.fence.

(** A fenced object whose [content] holds a brace, a space and a triple
    backtick. *)
Definition fence_in_content : jsstring := obj1 k_content (u16 "a } ``` b").
Definition fenced_twice_closed : jsstring :=
  Fence.fence ++ Fence.json_tag ++ nl ++ fence_in_content ++ nl ++ Fence.fence.

(** An object whose [content] is the object [{ length : 7 }]. *)
Definition length_object : jsstring :=
  u16 "{" ++ quoted k_content ++ u16 ":{" ++ quoted k_length ++ u16 ":7}}".

(** An object whose [content] is the number 5. *)
Definition number_content : jsstring := u16 "{" ++ quoted k_content ++ u16 ":5}".

Definition plain : jsstring := u16 "Just buy our widgets".

(** U+1F600, one character, two code units. *)
Definition grin : jsstring := [55357; 56832].

Definition acme_meta : Metadata :=
  {| meta_title := Some (u16 "Acme"); meta_description := Some (u16 "Widgets") |}.

Definition acme_page : WebsiteData :=
  {| wd_url := u16 "https://acme.io";
     wd_title := u16 "Acme";
     wd_description := u16 "Widgets";
     wd_content := u16 "...";
     wd_metadata := acme_meta |}.

(** Services: the scraper rejects, the store accepts, and the text
    service gives [answer], except at the calls listed in [failing]. *)
Definition services (answer : jsstring) (failing : list nat) : Env :=
  {| scrape := fun _ => None;
     generateText := fun i _ => if existsb (Nat.eqb i) failing then None else Some answer;
     db_ok := fun _ => true;
     locale_date := u16 "11/2/2026";
     iso_now := u16 "2026-11-02T00:00:00.000Z";
     fresh := fun n => dec (N.of_nat n) |}.

(** A screen with the page of the scenario and [ids] selected; nobody
    signed in, no project. *)
Definition screen (ids : list jsstring) : AppState :=
  {| user := None; projects := []; currentProject := None;
     websiteUrl := u16 "https://acme.io";
     websiteData := Some acme_page;
     selectedPlatforms := ids;
     generatedPosts := [];
     chatMessages := [];
     log := [] |}.

(** The same screen for a signed-in user without a project. *)
Definition signed_in (ids : list jsstring) : AppState :=
  {| user := Some {| user_id := u16 "u1" |}; projects := []; currentProject := None;
     websiteUrl := u16 "https://acme.io";
     websiteData := Some acme_page;
     selectedPlatforms := ids;
     generatedPosts := [];
     chatMessages := [];
     log := [] |}.

End Samples.

(** * More of the screen *)

(** ** Answers in the format the prompt asks for *)

Definition hexd (n : N) : N := if n <? 10 then 48 + n else 87 + n.

(** One code unit inside a JSON string, escaped the way [JSON.stringify]
    escapes quotes, backslashes and control characters. *)
Definition json_char (c : N) : jsstring :=
  if c =? dquote then [backslash; dquote]
  else if c =? backslash then [backslash; backslash]
  else if c =? 8 then [backslash; ch "b"]
  else if c =? 9 then [backslash; ch "t"]
  else if c =? 10 then [backslash; ch "n"]
  else if c =? 12 then [backslash; ch "f"]
  else if c =? 13 then [backslash; ch "r"]
  else if c <? 32 then [backslash; ch "u"; ch "0"; ch "0"; hexd (c / 16); hexd (c mod 16)]
  else [c].

Definition json_chars (s : jsstring) : jsstring := flat_map json_char s.

(** The string [s] as a JSON string literal. *)
Definition json_string (s : jsstring) : jsstring := dquote :: json_chars s ++ [dquote].

(** The answer the prompt of [generatePosts] asks for (its last four
    lines), holding the content [c] and the reasoning [r]. *)
Definition formatted_answer (c r : jsstring) : jsstring :=
  u16 "{" ++ nl
  ++ u16 "  " ++ quoted k_content ++ u16 ": " ++ json_string c ++ u16 "," ++ nl
  ++ u16 "  " ++ quoted k_reasoning ++ u16 ": " ++ json_string r ++ nl
  ++ u16 "}".

(** The posts handed to the store, in the order of the log. *)
Definition posts_sent (l : list event) : list GeneratedPost :=
  flat_map (fun e => match e with DbCreatePost _ _ _ p => [p] | _ => [] end) l.

(** Everything on the screen but the posts and the log. *)
Definition backdrop (s : AppState) :=
  (user s, projects s, currentProject s, websiteUrl s, websiteData s,
   selectedPlatforms s, chatMessages s).

(** The URLs handed to the scraper, in the order of the log. *)
Definition scrapes (l : list event) : list jsstring :=
  flat_map (fun e => match e with Scrape u => [u] | _ => [] end) l.

(** The project patches handed to the store, in the order of the log. *)
Definition project_updates (l : list event) : list (jsstring * ProjectPatch) :=
  flat_map (fun e => match e with DbUpdateProject id p => [(id, p)] | _ => [] end) l.

(** A page with the given content and nothing else. *)
Definition bare_page (m : Metadata) (c : jsstring) : WebsiteData :=
  {| wd_url := []; wd_title := []; wd_description := []; wd_content := c; wd_metadata := m |}.

(** ** Chat and projects

    The remaining handlers of the screen: [sendChatMessage],
    [saveProject], [loadProject], [deleteProject] and [loadProjects].
    They have requests of their own (listing, saving and deleting
    records), so what they do is written to a trail of the session, in
    which the events of the first log are one kind of entry; the log of
    the screen is left as it is.  Messages keep role and text; their
    time stamps and ids are not kept. *)

Record StoredPost := {
  sp_id : jsstring;
  sp_platform : jsstring;
  sp_content : value;
  sp_characterCount : value;
  sp_reasoning : value
}.

Record StoredMessage := { sm_id : jsstring; sm_role : Role; sm_content : jsstring }.

(** The [Partial<Project>] of [saveProject]: the name, the page of the
    screen if there is one, the selection, the time. *)
Record SavedFields := {
  sf_name : jsstring;
  sf_page : option WebsiteData;
  sf_selectedPlatforms : list jsstring;
  sf_updatedAt : jsstring
}.

(** [{ ...p, ...updatedProject }]: the website fields are written even
    when the screen has no page ([websiteData?.url] is [undefined]). *)
Definition apply_saved (f : SavedFields) (p : Project) : Project :=
  {| pr_id := pr_id p; pr_userId := pr_userId p; pr_name := sf_name f;
     pr_websiteUrl := option_map wd_url (sf_page f);
     pr_websiteTitle := option_map wd_title (sf_page f);
     pr_websiteDescription := option_map wd_description (sf_page f);
     pr_websiteContent := option_map wd_content (sf_page f);
     pr_websiteMetadata := option_map (fun page => Stringified (wd_metadata page)) (sf_page f);
     pr_selectedPlatforms := Some (sf_selectedPlatforms f);
     pr_createdAt := pr_createdAt p; pr_updatedAt := sf_updatedAt f |}.

Inductive action :=
| Did (e : event)
| DbCreateMessage (id projectId userId : jsstring) (m : ChatMessage)
| DbListProjects (userId : jsstring)
| DbListPosts (projectId : jsstring)
| DbListMessages (projectId : jsstring)
| DbSaveProject (id : jsstring) (fields : SavedFields)
| DbDeleteProject (id : jsstring).

Definition is_write (a : action) : bool :=
  match a with
  | Did e => is_db e
  | DbCreateMessage _ _ _ _ | DbSaveProject _ _ | DbDeleteProject _ => true
  | _ => false
  end.

Record Session := {
  view : AppState;
  chatInput : jsstring;
  trail : list action
}.

(** The services as these handlers see them: those of [Env], the three
    listings of the store ([None] when the request rejects), and the
    text of a number, which is the runtime's. *)
Record Backend := {
  base : Env;
  list_projects : jsstring -> option (list Project);
  list_posts : jsstring -> option (list StoredPost);
  list_messages : jsstring -> option (list StoredMessage);
  number_text : jsnumber -> jsstring
}.

Definition act (a : action) (z : Session) : Session :=
  {| view := view z; chatInput := chatInput z; trail := trail z ++ [a] |}.

Definition on_app (f : AppState -> AppState) (z : Session) : Session :=
  {| view := f (view z); chatInput := chatInput z; trail := trail z |}.

(** How many writes the trail holds: the index of the next one. *)
Definition writes (z : Session) : nat := List.length (List.filter is_write (trail z)).

Definition setChatMessages (l : list ChatMessage) (st : AppState) : AppState :=
  {| user := user st; projects := projects st; currentProject := currentProject st;
     websiteUrl := websiteUrl st; websiteData := websiteData st;
     selectedPlatforms := selectedPlatforms st; generatedPosts := generatedPosts st;
     chatMessages := l; log := log st |}.

Definition setProjects (l : list Project) (st : AppState) : AppState :=
  {| user := user st; projects := l; currentProject := currentProject st;
     websiteUrl := websiteUrl st; websiteData := websiteData st;
     selectedPlatforms := selectedPlatforms st; generatedPosts := generatedPosts st;
     chatMessages := chatMessages st; log := log st |}.

Definition setCurrentProject (p : option Project) (st : AppState) : AppState :=
  {| user := user st; projects := projects st; currentProject := p;
     websiteUrl := websiteUrl st; websiteData := websiteData st;
     selectedPlatforms := selectedPlatforms st; generatedPosts := generatedPosts st;
     chatMessages := chatMessages st; log := log st |}.

Definition setWebsiteUrl (u : jsstring) (st : AppState) : AppState :=
  {| user := user st; projects := projects st; currentProject := currentProject st;
     websiteUrl := u; websiteData := websiteData st;
     selectedPlatforms := selectedPlatforms st; generatedPosts := generatedPosts st;
     chatMessages := chatMessages st; log := log st |}.

(** *** [sendChatMessage] *)

(** [Array.prototype.join] *)
Fixpoint join (sep : jsstring) (l : list jsstring) : jsstring :=
  match l with
  | [] => []
  | [x] => x
  | x :: rest => x ++ sep ++ join sep rest
  end.

(** A value inside a template literal ([ToString]).  [None] is the
    [TypeError] of an object that has a [toString] member of its own: a
    member out of [JSON.parse] is never a function, and [valueOf] then
    gives no primitive either. *)
Fixpoint to_text (nt : jsnumber -> jsstring) (v : value) {struct v} : option jsstring :=
  match v with
  | VUndefined => Some (u16 "undefined")
  | VNull => Some (u16 "null")
  | VBool true => Some (u16 "true")
  | VBool false => Some (u16 "false")
  | VNum n => Some (nt n)
  | VStr s => Some s
  | VArr l =>
      (fix elems (l : list value) : option jsstring :=
         match l with
         | [] => Some []
         | x :: rest =>
             match (match x with
                    | VUndefined | VNull => Some []
                    | _ => to_text nt x
                    end) with
             | None => None
             | Some e =>
                 match rest with
                 | [] => Some e
                 | _ =>
                     match elems rest with
                     | None => None
                     | Some r => Some (e ++ u16 "," ++ r)
                     end
                 end
             end
         end) l
  | VObj kvs =>
      match own_prop kvs (u16 "toString") with
      | Some _ => None
      | None => Some (u16 "[object Object]")
      end
  end.

(** [generatedPosts.map(p => `${p.platform}: ${p.content}`)] *)
Fixpoint post_lines (nt : jsnumber -> jsstring) (posts : list GeneratedPost)
  : option (list jsstring) :=
  match posts with
  | [] => Some []
  | p :: rest =>
      match to_text nt (content p) with
      | None => None
      | Some c =>
          match post_lines nt rest with
          | None => None
          | Some ls => Some ((platform p ++ u16 ": " ++ c) :: ls)
          end
      end
  end.

Definition chat_context (nt : jsnumber -> jsstring) (wd : WebsiteData)
           (posts : list GeneratedPost) : option jsstring :=
  match post_lines nt posts with
  | None => None
  | Some ls =>
      Some (nl ++ u16 "Current website: " ++ wd_title wd ++ u16 " (" ++ wd_url wd
               ++ u16 ")" ++ nl
               ++ u16 "Current generated posts: " ++ join (nl ++ nl) ls ++ nl)
  end.

Definition chat_prompt (context input : jsstring) : jsstring :=
  u16 "You are an AI Product Launch expert. Help the user improve their launch posts."
    ++ nl ++ nl
  ++ u16 "Context: " ++ context ++ nl ++ nl
  ++ u16 "User message: " ++ input ++ nl ++ nl
  ++ u16 "Provide helpful, actionable advice for improving their launch strategy and copy.".

(** The [catch] of [sendChatMessage]. *)
Definition chat_failed (z : Session) : Session :=
  act (Did (ToastError (u16 "Failed to get AI response")))
      (act (Did (ConsoleError (u16 "Error in chat:"))) z).

Definition sendChatMessage (b : Backend) (z : Session) : Session :=
  let s := view z in
  if blank (chatInput z) then z
  else
    match websiteData s with
    | None => z
    | Some wd =>
        let userMessage := {| role := RUser; msg_content := chatInput z |} in
        let z1 := {| view := setChatMessages (chatMessages s ++ [userMessage]) s;
                     chatInput := [];
                     trail := trail z |} in
        match chat_context (number_text b) wd (generatedPosts s) with
        | None => chat_failed z1
        | Some context =>
            let prompt := chat_prompt context (chatInput z) in
            let z2 := act (Did (GenerateText prompt)) z1 in
            match generateText (base b) 0 prompt with
            | None => chat_failed z2
            | Some text =>
                let assistantMessage := {| role := RAssistant; msg_content := text |} in
                let z3 := on_app (fun st => setChatMessages
                                               (chatMessages st ++ [assistantMessage]) st) z2 in
                (* Save chat messages to database if we have a current project *)
                match currentProject s, user s with
                | Some cp, Some u =>
                    let userMsgId := u16 "msg_" ++ fresh (base b) (List.length (trail z3)) in
                    let assistantMsgId :=
                      u16 "msg_" ++ fresh (base b) (S (List.length (trail z3))) in
                    let z4 := act (DbCreateMessage userMsgId (pr_id cp) (user_id u)
                                                   userMessage) z3 in
                    if db_ok (base b) (writes z3) then
                      let z5 := act (DbCreateMessage assistantMsgId (pr_id cp) (user_id u)
                                                     assistantMessage) z4 in
                      if db_ok (base b) (writes z4) then z5
                      else act (Did (ConsoleError
                                       (u16 "Error saving chat messages to database:"))) z5
                    else act (Did (ConsoleError
                                     (u16 "Error saving chat messages to database:"))) z4
                | _, _ => z3
                end
            end
        end
    end.

(** *** [saveProject] *)

Definition save_local (id : jsstring) (f : SavedFields) (st : AppState) : AppState :=
  {| user := user st;
     projects := List.map (fun p => if str_eqb (pr_id p) id then apply_saved f p else p)
                          (projects st);
     currentProject := option_map (apply_saved f) (currentProject st);
     websiteUrl := websiteUrl st; websiteData := websiteData st;
     selectedPlatforms := selectedPlatforms st; generatedPosts := generatedPosts st;
     chatMessages := chatMessages st; log := log st |}.

Definition saveProject (b : Backend) (z : Session) : Session :=
  let s := view z in
  match user s, currentProject s with
  | Some _, Some cp =>
      let updatedProject :=
        {| sf_name := pr_name cp;
           sf_page := websiteData s;
           sf_selectedPlatforms := selectedPlatforms s;
           sf_updatedAt := iso_now (base b) |} in
      let z1 := act (DbSaveProject (pr_id cp) updatedProject) z in
      if db_ok (base b) (writes z) then
        act (Did (ToastSuccess (u16 "Project saved!")))
            (on_app (save_local (pr_id cp) updatedProject) z1)
      else
        act (Did (ToastError (u16 "Failed to save project")))
            (act (Did (ConsoleError (u16 "Error saving project:"))) z1)
  | _, _ => z
  end.

(** *** [loadProject] *)

Definition of_stored_post (p : StoredPost) : GeneratedPost :=
  {| post_id := Some (sp_id p);
     platform := sp_platform p;
     content := sp_content p;
     characterCount := sp_characterCount p;
     reasoning := or_else (sp_reasoning p) (VStr []) |}.

Definition of_stored_message (m : StoredMessage) : ChatMessage :=
  {| role := sm_role m; msg_content := sm_content m |}.

(** A value read back from a text, taken as a metadata: its [title] and
    its [description] when they are strings, the two fields the program
    reads of a metadata. *)
Definition metadata_of (v : value) : Metadata :=
  let field k :=
    match v with
    | VObj kvs => match own_prop kvs k with Some (VStr s) => Some s | _ => None end
    | _ => None
    end in
  {| meta_title := field (u16 "title"); meta_description := field (u16 "description") |}.

(** [project.websiteMetadata ? JSON.parse(project.websiteMetadata) : {}];
    [None] when [JSON.parse] throws. *)
Definition read_metadata (column : option MetadataText) : option Metadata :=
  match column with
  | None | Some (OtherText []) => Some {| meta_title := None; meta_description := None |}
  | Some (Stringified m) => Some m
  | Some (OtherText t) => option_map metadata_of (JSON.parse t)
  end.

(** What [loadProject] finds for the page of a project: none when the
    URL is falsy; else the page, unless the metadata cannot be parsed.
    The parse stands outside every [try], and by then the URL box has
    been set. *)
Inductive stored_page :=
| NoPage
| Page (page : WebsiteData)
| Unreadable (url : jsstring).

Definition project_page (p : Project) : stored_page :=
  match pr_websiteUrl p with
  | Some (c :: r) =>
      match read_metadata (pr_websiteMetadata p) with
      | Some m =>
          Page {| wd_url := c :: r;
                  wd_title := str_or (pr_websiteTitle p) [];
                  wd_description := str_or (pr_websiteDescription p) [];
                  wd_content := str_or (pr_websiteContent p) [];
                  wd_metadata := m |}
      | None => Unreadable (c :: r)
      end
  | _ => NoPage
  end.

(** [loadProject] up to its first [await]: the project becomes current,
    its page and selection are put on the screen if it has them, and the
    posts are asked for.  When the metadata cannot be parsed the handler
    throws after it has set the URL box, and does nothing more. *)
Definition loadProject_begin (project : Project) (z : Session) : Session :=
  let z1 := on_app (setCurrentProject (Some project)) z in
  let put_selection st :=
    match pr_selectedPlatforms project with
    | Some ids => setSelectedPlatforms ids st
    | None => st
    end in
  match project_page project with
  | Unreadable url => on_app (setWebsiteUrl url) z1
  | Page page =>
      act (DbListPosts (pr_id project))
          (on_app (fun st => put_selection
                               (setWebsiteData (Some page) (setWebsiteUrl (wd_url page) st)))
                  z1)
  | NoPage => act (DbListPosts (pr_id project)) (on_app put_selection z1)
  end.

(** The rest of [loadProject], from the answer to that request on;
    there is none when the handler has thrown. *)
Definition loadProject_finish (b : Backend) (project : Project) (z : Session) : Session :=
  match project_page project with
  | Unreadable _ => z
  | _ =>
      let z1 :=
        match list_posts b (pr_id project) with
        | Some posts => on_app (setGeneratedPosts (List.map of_stored_post posts)) z
        | None => act (Did (ConsoleError (u16 "Error loading posts:"))) z
        end in
      let z2 := act (DbListMessages (pr_id project)) z1 in
      let z3 :=
        match list_messages b (pr_id project) with
        | Some messages => on_app (setChatMessages (List.map of_stored_message messages)) z2
        | None => act (Did (ConsoleError (u16 "Error loading chat messages:"))) z2
        end in
      act (Did (ToastSuccess (u16 "Loaded project: " ++ pr_name project))) z3
  end.

Definition loadProject (b : Backend) (project : Project) (z : Session) : Session :=
  loadProject_finish b project (loadProject_begin project z).

(** *** [deleteProject] *)

Definition without_project (id : jsstring) (l : list Project) : list Project :=
  List.filter (fun p => negb (str_eqb (pr_id p) id)) l.

(** The screen of someone who has no project. *)
Definition reset_screen (st : AppState) : AppState :=
  {| user := user st; projects := projects st; currentProject := None;
     websiteUrl := []; websiteData := None;
     selectedPlatforms := [u16 "producthunt"]; generatedPosts := [];
     chatMessages := []; log := log st |}.

(** [loadProject] is called without [await]: it runs up to its first
    request, the notice of the deletion is shown, and the load goes on
    when the request is answered. *)
Definition deleteProject (b : Backend) (projectId : jsstring) (z : Session) : Session :=
  let s := view z in
  match user s with
  | None => z
  | Some _ =>
      let z1 := act (DbDeleteProject projectId) z in
      if db_ok (base b) (writes z) then
        let z2 := on_app (fun st => setProjects (without_project projectId (projects st)) st)
                         z1 in
        let deleted := act (Did (ToastSuccess (u16 "Project deleted!"))) in
        match currentProject s with
        | Some cp =>
            if str_eqb (pr_id cp) projectId then
              match without_project projectId (projects s) with
              | first :: _ =>
                  loadProject_finish b first (deleted (loadProject_begin first z2))
              | [] => deleted (on_app reset_screen z2)
              end
            else deleted z2
        | None => deleted z2
        end
      else
        act (Did (ToastError (u16 "Failed to delete project")))
            (act (Did (ConsoleError (u16 "Error deleting project:"))) z1)
  end.

(** *** [loadProjects] *)

Definition loadProjects (b : Backend) (z : Session) : Session :=
  let s := view z in
  match user s with
  | None => z
  | Some u =>
      let z1 := act (DbListProjects (user_id u)) z in
      match list_projects b (user_id u) with
      | None =>
          act (Did (ToastError (u16 "Failed to load projects")))
              (act (Did (ConsoleError (u16 "Error loading projects:"))) z1)
      | Some userProjects =>
          let z2 := on_app (setProjects userProjects) z1 in
          (* Auto-load the most recent project if no current project *)
          match currentProject s, userProjects with
          | None, first :: _ => loadProject b first z2
          | _, _ => z2
          end
      end
  end.

(** The text-service calls and the messages handed to the store, in the
    order of the trail. *)
Definition trail_calls (t : list action) : list jsstring :=
  flat_map (fun a => match a with Did (GenerateText p) => [p] | _ => [] end) t.

Definition messages_sent (t : list action) : list ChatMessage :=
  flat_map (fun a => match a with DbCreateMessage _ _ _ m => [m] | _ => [] end) t.

(** * Facts *)

(** ** Strings *)

Lemma str_eqb_spec (a b : jsstring) : reflect (a = b) (str_eqb a b).
Proof.
  revert b; induction a as [|x a IH]; intros [|y b]; simpl;
    try (constructor; congruence).
  destruct (N.eqb_spec x y) as [->|Hxy]; simpl.
  - destruct (IH b) as [->|Hab]; constructor; congruence.
  - constructor; congruence.
Qed.

Lemma str_eqb_refl (a : jsstring) : str_eqb a a = true.
Proof. destruct (str_eqb_spec a a); congruence. Qed.

(** ** The parser terminates within its budget *)

Module JSONFacts.
Import JSON.

Lemma skip_ws_length (s : jsstring) :
  (List.length (skip_ws s) <= List.length s)%nat.
Proof.
  induction s as [|c r IH]; simpl; [lia|].
  destruct (is_ws c); simpl; lia.
Qed.

Lemma skip_ws_cons (s r : jsstring) (c : N) :
  skip_ws s = c :: r -> (List.length r < List.length s)%nat.
Proof.
  intros H. pose proof (skip_ws_length s) as L. rewrite H in L. simpl in L. lia.
Qed.

Lemma lit_length (p s r : jsstring) :
  lit p s = Some r -> (List.length r + List.length p = List.length s)%nat.
Proof.
  revert s; induction p as [|x p IH]; intros s H; simpl in *.
  - injection H as <-. lia.
  - destruct s as [|y s]; [discriminate|].
    destruct (x =? y); [|discriminate].
    apply IH in H. simpl. lia.
Qed.

Lemma p_chars_length (s : jsstring) :
  forall acc str r, p_chars s acc = Some (str, r) ->
                    (List.length r < List.length s)%nat.
Proof.
  induction s as [s IH] using (well_founded_induction
                                 (Wf_nat.well_founded_ltof _ (@List.length N))).
  unfold Wf_nat.ltof in IH.
  intros acc str r H. destruct s as [|c s]; simpl in H; [discriminate|].
  destruct (c =? dquote).
  { injection H as _ <-. simpl. lia. }
  destruct (c =? backslash).
  - destruct s as [|e r1]; [discriminate|].
    destruct (e =? ch "u").
    + destruct r1 as [|h1 [|h2 [|h3 [|h4 r2]]]]; simpl in H; try discriminate.
      destruct (hex4 h1 h2 h3 h4); [|discriminate].
      apply IH in H; simpl in *; lia.
    + destruct (unescape e); [|discriminate].
      apply IH in H; simpl in *; lia.
  - destruct (c <? 32); [discriminate|].
    apply IH in H; simpl in *; lia.
Qed.

Lemma p_digits_length (s : jsstring) :
  forall acc cnt m k r, p_digits s acc cnt = (m, k, r) ->
                        (List.length r + k = List.length s + cnt)%nat.
Proof.
  induction s as [|c s IH]; intros acc cnt m k r H; simpl in H.
  - injection H as _ <- <-. reflexivity.
  - destruct (is_digit c).
    + apply IH in H. simpl. lia.
    + injection H as _ <- <-. reflexivity.
Qed.

Lemma p_digits_count (s : jsstring) :
  forall acc cnt m k r, p_digits s acc cnt = (m, k, r) -> (cnt <= k)%nat.
Proof.
  induction s as [|c s IH]; intros acc cnt m k r H; simpl in H.
  - injection H as _ <- _. lia.
  - destruct (is_digit c).
    + apply IH in H. lia.
    + injection H as _ <- _. lia.
Qed.

Lemma p_sign_length (s r : jsstring) (b : bool) :
  p_sign s = (b, r) -> (List.length r <= List.length s)%nat.
Proof.
  destruct s as [|c s]; simpl.
  - intros [= _ <-]. simpl. lia.
  - destruct (c =? ch "-"); intros [= _ <-]; simpl; lia.
Qed.

Lemma p_int_length (s r : jsstring) (m : N) :
  p_int s = Some (m, r) -> (List.length r < List.length s)%nat.
Proof.
  destruct s as [|c s]; [discriminate|]. unfold p_int.
  destruct (c =? ch "0").
  - intros [= _ <-]. simpl. lia.
  - destruct (is_digit c) eqn:D; [|discriminate].
    destruct (p_digits (c :: s) 0 0) as [[m0 k0] r'] eqn:P.
    intros [= _ <-]. simpl in P. rewrite D in P.
    pose proof (p_digits_length _ _ _ P). pose proof (p_digits_count _ _ _ P).
    simpl. lia.
Qed.

Lemma p_frac_length (s r : jsstring) (m m' : N) (k : nat) :
  p_frac m s = Some (m', k, r) -> (List.length r <= List.length s)%nat.
Proof.
  destruct s as [|c s]; simpl.
  - intros [= _ _ <-]. simpl. lia.
  - destruct (c =? ch ".").
    + destruct (p_digits s m 0) as [[m0 k0] r'] eqn:P.
      destruct k0; [discriminate|]. intros [= _ _ <-].
      apply p_digits_length in P. simpl. lia.
    + intros [= _ _ <-]. simpl. lia.
Qed.

Lemma p_esign_length (s r : jsstring) (b : bool) :
  p_esign s = (b, r) -> (List.length r <= List.length s)%nat.
Proof.
  destruct s as [|c s]; simpl.
  - intros [= _ <-]. simpl. lia.
  - destruct (c =? ch "-"); [intros [= _ <-]; simpl; lia|].
    destruct (c =? ch "+"); intros [= _ <-]; simpl; lia.
Qed.

Lemma p_exp_length (s r : jsstring) (x : Z) :
  p_exp s = Some (x, r) -> (List.length r <= List.length s)%nat.
Proof.
  destruct s as [|c s]; simpl.
  - intros [= _ <-]. simpl. lia.
  - destruct ((c =? ch "e") || (c =? ch "E")).
    + destruct (p_esign s) as [esgn r1] eqn:SG. apply p_esign_length in SG.
      destruct (p_digits r1 0 0) as [[x0 n0] r2] eqn:P.
      destruct n0; [discriminate|]. intros [= _ <-].
      apply p_digits_length in P. lia.
    + intros [= _ <-]. simpl. lia.
Qed.

Lemma p_number_length (s r : jsstring) (n : jsnumber) :
  p_number s = Some (n, r) -> (List.length r < List.length s)%nat.
Proof.
  unfold p_number.
  destruct (p_sign s) as [sgn s1] eqn:S1. apply p_sign_length in S1.
  destruct (p_int s1) as [[m s2]|] eqn:S2; [|discriminate].
  apply p_int_length in S2.
  destruct (p_frac m s2) as [[[m' k] s3]|] eqn:S3; [|discriminate].
  apply p_frac_length in S3.
  destruct (p_exp s3) as [[x s4]|] eqn:S4; [|discriminate].
  apply p_exp_length in S4.
  intros [= _ <-]. lia.
Qed.

Lemma p_scalar_length (s r : jsstring) (v : value) :
  p_scalar s = Ok v r -> (List.length r < List.length s)%nat.
Proof.
  unfold p_scalar. destruct s as [|c s']; [discriminate|]. intros H.
  destruct (c =? dquote).
  { destruct (p_chars s' []) as [[str r']|] eqn:P; [|discriminate].
    injection H as _ <-. apply p_chars_length in P. simpl. lia. }
  destruct (c =? ch "t").
  { destruct (lit t_true (c :: s')) eqn:L; [|discriminate].
    injection H as _ <-. apply lit_length in L. simpl in *. lia. }
  destruct (c =? ch "f").
  { destruct (lit t_false (c :: s')) eqn:L; [|discriminate].
    injection H as _ <-. apply lit_length in L. simpl in *. lia. }
  destruct (c =? ch "n").
  { destruct (lit t_null (c :: s')) eqn:L; [|discriminate].
    injection H as _ <-. apply lit_length in L. simpl in *. lia. }
  destruct (p_number (c :: s')) as [[n r']|] eqn:P; [|discriminate].
  injection H as _ <-. apply p_number_length in P. exact P.
Qed.

Lemma p_scalar_fuel (s : jsstring) : p_scalar s <> Fuel.
Proof.
  unfold p_scalar. destruct s as [|c s']; [discriminate|].
  repeat match goal with
         | |- context [if ?b then _ else _] => destruct b
         | |- context [match ?o with Some _ => _ | None => _ end] => destruct o as [[? ?]|]
         | |- context [match ?o with Some _ => _ | None => _ end] => destruct o
         end; discriminate.
Qed.

(** Every sub-parser that succeeds has read at least one character. *)
Lemma p_value_length (fuel : nat) :
  (forall s v r, p_value fuel s = Ok v r -> (List.length r < List.length s)%nat) /\
  (forall s acc v r, p_elems fuel s acc = Ok v r -> (List.length r < List.length s)%nat) /\
  (forall s acc v r, p_members fuel s acc = Ok v r -> (List.length r < List.length s)%nat).
Proof.
  induction fuel as [|f (IHv & IHe & IHm)]; [repeat split; discriminate|].
  repeat split.
  - intros s v r H. simpl in H.
    destruct (skip_ws s) as [|c r0] eqn:W; [discriminate|].
    pose proof (skip_ws_length s) as Ls. rewrite W in Ls. simpl in Ls.
    destruct (c =? ch "[").
    { destruct (skip_ws r0) as [|c' r'] eqn:W'; [discriminate|].
      apply skip_ws_cons in W'.
      destruct (c' =? ch "]"); [injection H as _ <-; lia|].
      apply IHe in H. lia. }
    destruct (c =? ch "{").
    { destruct (skip_ws r0) as [|c' r'] eqn:W'; [discriminate|].
      apply skip_ws_cons in W'.
      destruct (c' =? ch "}"); [injection H as _ <-; lia|].
      apply IHm in H. lia. }
    apply p_scalar_length in H. simpl in H. lia.
  - intros s acc v r H. simpl in H.
    destruct (p_value f s) as [v0 r0| |] eqn:V; try discriminate.
    apply IHv in V.
    destruct (skip_ws r0) as [|c r'] eqn:W; [discriminate|].
    apply skip_ws_cons in W.
    destruct (c =? ch ","); [apply IHe in H; lia|].
    destruct (c =? ch "]"); [|discriminate].
    injection H as _ <-. lia.
  - intros s acc v r H. simpl in H.
    destruct (skip_ws s) as [|c r0] eqn:W; [discriminate|].
    apply skip_ws_cons in W.
    destruct (c =? dquote); [|discriminate].
    destruct (p_chars r0 []) as [[k r1]|] eqn:K; [|discriminate].
    apply p_chars_length in K.
    destruct (skip_ws r1) as [|c1 r2] eqn:W1; [discriminate|].
    apply skip_ws_cons in W1.
    destruct (c1 =? ch ":"); [|discriminate].
    destruct (p_value f r2) as [v0 r3| |] eqn:V; try discriminate.
    apply IHv in V.
    destruct (skip_ws r3) as [|c3 r4] eqn:W3; [discriminate|].
    apply skip_ws_cons in W3.
    destruct (c3 =? ch ","); [apply IHm in H; lia|].
    destruct (c3 =? ch "}"); [|discriminate].
    injection H as _ <-. lia.
Qed.

(** With two units of budget per character the descent never stops for
    lack of budget. *)
Lemma p_value_fuel (fuel : nat) :
  (forall s, (2 * List.length s + 1 <= fuel)%nat -> p_value fuel s <> Fuel) /\
  (forall s acc, (2 * List.length s + 2 <= fuel)%nat -> p_elems fuel s acc <> Fuel) /\
  (forall s acc, (2 * List.length s + 2 <= fuel)%nat -> p_members fuel s acc <> Fuel).
Proof.
  induction fuel as [|f (IHv & IHe & IHm)]; [repeat split; intros; lia|].
  destruct (p_value_length f) as (Lv & _ & _).
  repeat split.
  - intros s B. simpl.
    destruct (skip_ws s) as [|c r0] eqn:W; [discriminate|].
    apply skip_ws_cons in W.
    destruct (c =? ch "[").
    { destruct (skip_ws r0) as [|c' r'] eqn:W'; [discriminate|].
      destruct (c' =? ch "]"); [discriminate|].
      apply IHe. lia. }
    destruct (c =? ch "{").
    { destruct (skip_ws r0) as [|c' r'] eqn:W'; [discriminate|].
      destruct (c' =? ch "}"); [discriminate|].
      apply IHm. lia. }
    apply p_scalar_fuel.
  - intros s acc B. simpl.
    destruct (p_value f s) as [v0 r0| |] eqn:V; [|discriminate|].
    + apply Lv in V.
      destruct (skip_ws r0) as [|c r'] eqn:W; [discriminate|].
      apply skip_ws_cons in W.
      destruct (c =? ch ","); [apply IHe; lia|].
      destruct (c =? ch "]"); discriminate.
    + exfalso. revert V. apply IHv. lia.
  - intros s acc B. simpl.
    destruct (skip_ws s) as [|c r0] eqn:W; [discriminate|].
    apply skip_ws_cons in W.
    destruct (c =? dquote); [|discriminate].
    destruct (p_chars r0 []) as [[k r1]|] eqn:K; [|discriminate].
    apply p_chars_length in K.
    destruct (skip_ws r1) as [|c1 r2] eqn:W1; [discriminate|].
    apply skip_ws_cons in W1.
    destruct (c1 =? ch ":"); [|discriminate].
    destruct (p_value f r2) as [v0 r3| |] eqn:V; [|discriminate|].
    + apply Lv in V.
      destruct (skip_ws r3) as [|c3 r4] eqn:W3; [discriminate|].
      apply skip_ws_cons in W3.
      destruct (c3 =? ch ","); [apply IHm; lia|].
      destruct (c3 =? ch "}"); discriminate.
    + exfalso. revert V. apply IHv. lia.
Qed.

(** [parse] is total: its budget always suffices, so [None] is a syntax
    error of the text and nothing else. *)
Lemma parse_budget (s : jsstring) : p_value (budget s) s <> Fuel.
Proof. apply (p_value_fuel (budget s)). unfold budget. lia. Qed.

End JSONFacts.

(** ** Literals *)

Lemma lit_sound (p s r : jsstring) : lit p s = Some r -> s = p ++ r.
Proof.
  revert s; induction p as [|x p IH]; intros s H; simpl in H.
  - injection H as <-. reflexivity.
  - destruct s as [|y s]; [discriminate|].
    destruct (N.eqb_spec x y) as [->|]; [|discriminate].
    apply IH in H. subst s. reflexivity.
Qed.

Lemma lit_app (p r : jsstring) : lit p (p ++ r) = Some r.
Proof.
  induction p as [|x p IH]; simpl; [reflexivity|].
  rewrite N.eqb_refl. exact IH.
Qed.

(** A literal fails on a text that starts with another character. *)
Lemma lit_head (x y : N) (p s : jsstring) : x <> y -> lit (x :: p) (y :: s) = None.
Proof. intros H. simpl. destruct (N.eqb_spec x y); [contradiction|reflexivity]. Qed.

(** ** The fence pattern finds what the spec describes *)

Module FenceFacts.
Import Fence.

#[local] Hint Unfold spaces no_backtick : core.
#[local] Hint Constructors Forall : core.

Lemma greedy_space_sound (A : Type) (k : jsstring -> option A) (s : jsstring) (a : A) :
  greedy_space k s = Some a ->
  exists ws r, s = ws ++ r /\ spaces ws /\ k r = Some a.
Proof.
  induction s as [|c s IH]; simpl; intros H.
  - exists [], []. auto.
  - destruct (is_space c) eqn:Sp.
    + destruct (greedy_space k s) as [a'|] eqn:G.
      * injection H as ->. destruct (IH eq_refl) as (ws & r & -> & Hws & Hk).
        exists (c :: ws), r. repeat split; auto.
      * exists [], (c :: s). auto.
    + exists [], (c :: s). auto.
Qed.

Lemma lazy_any_sound (A : Type) (k : jsstring -> jsstring -> option A) (s : jsstring) :
  forall taken a, lazy_any k taken s = Some a ->
                  exists x r, s = x ++ r /\ k (rev taken ++ x) r = Some a.
Proof.
  induction s as [|c s IH]; intros taken a H; simpl in H.
  - destruct (k (rev taken) []) eqn:K; [|discriminate].
    injection H as ->. exists [], []. split; [reflexivity|].
    rewrite app_nil_r. exact K.
  - destruct (k (rev taken) (c :: s)) eqn:K.
    + injection H as ->. exists [], (c :: s). split; [reflexivity|].
      rewrite app_nil_r. exact K.
    + destruct (IH _ _ H) as (x & r & -> & Hk).
      exists (c :: x), r. split; [reflexivity|].
      simpl in Hk. rewrite <- app_assoc in Hk. exact Hk.
Qed.

Lemma closing_sound (cap s c : jsstring) :
  closing cap s = Some c ->
  c = cap /\ exists ws post, s = ws ++ fence ++ post /\ spaces ws.
Proof.
  unfold closing. intros H.
  apply greedy_space_sound in H as (ws & r & -> & Hws & Hk).
  destruct (lit fence r) as [post|] eqn:L; [|discriminate].
  injection Hk as <-. apply lit_sound in L. subst r. eauto.
Qed.

Lemma group_sound (s cap : jsstring) :
  group s = Some cap ->
  exists body ws2 post,
    s = cap ++ ws2 ++ fence ++ post /\ cap = lbrace :: body ++ [rbrace] /\ spaces ws2.
Proof.
  unfold group. destruct s as [|c r]; [discriminate|].
  destruct (N.eqb_spec c lbrace) as [->|]; [|discriminate].
  intros H. apply lazy_any_sound in H as (x & r' & -> & Hk).
  destruct r' as [|c' r']; [discriminate|].
  destruct (N.eqb_spec c' rbrace) as [->|]; [|discriminate].
  apply closing_sound in Hk as (-> & ws & post & -> & Hws).
  exists x, ws, post. simpl. repeat split; auto.
  rewrite <- !app_assoc. reflexivity.
Qed.

Lemma tail_sound (s cap : jsstring) :
  tail s = Some cap ->
  exists ws1 body ws2 post,
    s = ws1 ++ cap ++ ws2 ++ fence ++ post /\
    spaces ws1 /\ cap = lbrace :: body ++ [rbrace] /\ spaces ws2.
Proof.
  unfold tail. intros H.
  apply greedy_space_sound in H as (ws1 & r & -> & Hws1 & Hg).
  apply group_sound in Hg as (body & ws2 & post & -> & Hcap & Hws2).
  exists ws1, body, ws2, post. auto.
Qed.

Lemma here_sound (s cap : jsstring) :
  here s = Some cap -> contains_fenced s cap.
Proof.
  unfold here. destruct (lit fence s) as [s1|] eqn:L1; [|discriminate].
  apply lit_sound in L1. subst s. intros H.
  assert (T : forall tag t, (tag = [] \/ tag = json_tag) -> s1 = tag ++ t ->
                            tail t = Some cap -> contains_fenced (fence ++ s1) cap).
  { intros tag t Htag -> Ht.
    apply tail_sound in Ht as (ws1 & body & ws2 & post & -> & Hws1 & Hcap & Hws2).
    exists [], tag, ws1, body, ws2, post. simpl. auto. }
  destruct (lit json_tag s1) as [s2|] eqn:L2.
  - apply lit_sound in L2.
    destruct (tail s2) as [cap'|] eqn:T2.
    + injection H as ->. apply (T json_tag s2); auto.
    + apply (T [] s1); auto.
  - apply (T [] s1); auto.
Qed.

(** Whatever the search returns is the object of a fenced block of the
    text. *)
Lemma find_sound (s cap : jsstring) :
  find s = Some cap -> contains_fenced s cap.
Proof.
  induction s as [|c s IH]; simpl.
  - discriminate.
  - destruct (here (c :: s)) eqn:H.
    + intros [= ->]. apply here_sound, H.
    + intros F. destruct (IH F) as (pre & tag & ws1 & body & ws2 & post & -> & R).
      exists (c :: pre), tag, ws1, body, ws2, post. split; [reflexivity|exact R].
Qed.

(** The other direction, for a block that stands first in the text and
    whose object holds no backtick. *)

Lemma greedy_space_skip (A : Type) (k : jsstring -> option A)
      (ws r : jsstring) (c : N) (a : A) :
  spaces ws -> is_space c = false -> k (c :: r) = Some a ->
  greedy_space k (ws ++ c :: r) = Some a.
Proof.
  intros Hws Hc Hk. induction Hws as [|w ws Hw _ IH]; simpl.
  - rewrite Hc. exact Hk.
  - rewrite Hw, IH. reflexivity.
Qed.

Lemma closing_skip (cap ws post : jsstring) :
  spaces ws -> closing cap (ws ++ fence ++ post) = Some cap.
Proof.
  intros Hws. unfold closing, fence. simpl app.
  apply greedy_space_skip; [exact Hws|reflexivity|].
  change (backtick :: backtick :: backtick :: post) with (fence ++ post).
  rewrite lit_app. reflexivity.
Qed.

Lemma greedy_space_none (A : Type) (k : jsstring -> option A) (y z : jsstring) :
  (forall c t, c <> backtick -> k (c :: t) = None) ->
  no_backtick y -> greedy_space k (y ++ rbrace :: z) = None.
Proof.
  intros Hk Hy. induction Hy as [|c y Hc _ IH].
  - simpl app. cbn [greedy_space]. change (is_space rbrace) with false.
    apply Hk. discriminate.
  - simpl app. cbn [greedy_space]. rewrite IH, Hk by exact Hc.
    destruct (is_space c); reflexivity.
Qed.

(** No closing fence right after text without backticks that runs into
    a brace. *)
Lemma closing_none (cap y z : jsstring) :
  no_backtick y -> closing cap (y ++ rbrace :: z) = None.
Proof.
  intros Hy. unfold closing. apply greedy_space_none; [|exact Hy].
  intros c t Hc. unfold fence. rewrite lit_head by congruence. reflexivity.
Qed.

Lemma lazy_any_skip (A : Type) (k : jsstring -> jsstring -> option A)
      (body rest : jsstring) (a : A) :
  forall taken,
    (forall x c y, body = x ++ c :: y -> k (rev taken ++ x) (c :: y ++ rest) = None) ->
    k (rev taken ++ body) rest = Some a ->
    lazy_any k taken (body ++ rest) = Some a.
Proof.
  induction body as [|c body IH]; intros taken Hnone Hk.
  - rewrite app_nil_r in Hk. simpl. destruct rest; simpl; rewrite Hk; reflexivity.
  - simpl. specialize (Hnone [] c body eq_refl) as H0.
    rewrite app_nil_r in H0. rewrite H0.
    apply IH.
    + intros x c' y E. simpl. rewrite <- app_assoc. simpl.
      apply (Hnone (c :: x) c' y). rewrite E. reflexivity.
    + simpl. rewrite <- app_assoc. exact Hk.
Qed.

Lemma group_complete (body ws2 post : jsstring) :
  no_backtick body -> spaces ws2 ->
  group ((lbrace :: body ++ [rbrace]) ++ ws2 ++ fence ++ post)
  = Some (lbrace :: body ++ [rbrace]).
Proof.
  intros Hb Hws. unfold group. simpl. rewrite <- app_assoc. simpl.
  apply lazy_any_skip.
  - intros x c y E. simpl.
    destruct (c =? rbrace); [|reflexivity].
    apply closing_none.
    rewrite E in Hb. apply Forall_app in Hb as [_ Hb]. inversion Hb; assumption.
  - simpl. apply closing_skip, Hws.
Qed.

Lemma tail_complete (ws1 body ws2 post : jsstring) :
  spaces ws1 -> no_backtick body -> spaces ws2 ->
  tail (ws1 ++ (lbrace :: body ++ [rbrace]) ++ ws2 ++ fence ++ post)
  = Some (lbrace :: body ++ [rbrace]).
Proof.
  intros H1 Hb H2. unfold tail. simpl.
  apply greedy_space_skip; [exact H1|reflexivity|].
  apply (group_complete post Hb H2).
Qed.

Lemma here_complete (tag ws1 body ws2 post : jsstring) :
  tag = [] \/ tag = json_tag ->
  spaces ws1 -> no_backtick body -> spaces ws2 ->
  here (fence ++ tag ++ ws1 ++ (lbrace :: body ++ [rbrace]) ++ ws2 ++ fence ++ post)
  = Some (lbrace :: body ++ [rbrace]).
Proof.
  intros Htag H1 Hb H2. unfold here. rewrite lit_app.
  destruct Htag as [->| ->].
  - rewrite app_nil_l.
    assert (L : lit json_tag (ws1 ++ (lbrace :: body ++ [rbrace]) ++ ws2 ++ fence ++ post)
                = None).
    { change json_tag with (106 :: u16 "son").
      destruct H1 as [|w ws1 Hw _]; simpl app; apply lit_head.
      - discriminate.
      - intros <-. discriminate Hw. }
    rewrite L. apply tail_complete; assumption.
  - rewrite lit_app, tail_complete by assumption. reflexivity.
Qed.

Lemma find_complete (pre tag ws1 body ws2 post : jsstring) :
  no_backtick pre ->
  tag = [] \/ tag = json_tag ->
  spaces ws1 -> no_backtick body -> spaces ws2 ->
  find (pre ++ fence ++ tag ++ ws1 ++ (lbrace :: body ++ [rbrace]) ++ ws2 ++ fence ++ post)
  = Some (lbrace :: body ++ [rbrace]).
Proof.
  intros Hpre Htag H1 Hb H2. induction Hpre as [|c pre Hc _ IH].
  - simpl app at 1.
    pose proof (here_complete post Htag H1 Hb H2) as H.
    destruct tag; simpl in H |- *; rewrite H; reflexivity.
  - simpl. unfold here at 1. unfold fence at 1.
    rewrite lit_head by congruence. exact IH.
Qed.

End FenceFacts.

(** ** The normalizer *)

Lemma get_prop_truthy (v : value) (k : jsstring) :
  truthy v = true -> exists w, get_prop v k = Some w.
Proof. destruct v; simpl; try discriminate; eauto. Qed.

Lemma get_prop_length_str (s : jsstring) :
  get_prop (VStr s) k_length = Some (VNum (num_of_nat (List.length s))).
Proof. reflexivity. Qed.

Lemma or_else_length (c : value) (text : jsstring) :
  exists n, get_prop (or_else c (VStr text)) k_length = Some n.
Proof.
  unfold or_else. destruct (truthy c) eqn:E.
  - apply get_prop_truthy, E.
  - eexists. reflexivity.
Qed.

(** What [parsed_post] builds from an object. *)
Lemma parsed_post_object (pf text : jsstring) (kvs : list (jsstring * value)) :
  exists n,
    parsed_post pf text (VObj kvs) =
      Some {| post_id := None;
              platform := pf;
              content := or_else (match own_prop kvs k_content with
                                  | Some w => w | None => VUndefined end) (VStr text);
              characterCount := n;
              reasoning := or_else (match own_prop kvs k_reasoning with
                                    | Some w => w | None => VUndefined end)
                                   (VStr default_reasoning) |}.
Proof.
  unfold parsed_post. cbn [get_prop].
  destruct (or_else_length (match own_prop kvs k_content with
                            | Some w => w | None => VUndefined end) text) as [n ->].
  exists n. reflexivity.
Qed.

(** A post built from a parsed answer carries the platform it was asked
    for, and a count read off its content. *)
Lemma parsed_post_fields (pf text : jsstring) (v : value) (p : GeneratedPost) :
  parsed_post pf text v = Some p ->
  platform p = pf /\ get_prop (content p) k_length = Some (characterCount p).
Proof.
  unfold parsed_post.
  destruct (get_prop v k_content) as [c|]; [|discriminate].
  destruct (get_prop (or_else c (VStr text)) k_length) as [n|] eqn:L; [|discriminate].
  destruct (get_prop v k_reasoning) as [r|]; [|discriminate].
  intros [= <-]. simpl. auto.
Qed.

Lemma fallback_post_fields (pf text : jsstring) :
  platform (fallback_post pf text) = pf /\
  get_prop (content (fallback_post pf text)) k_length
  = Some (characterCount (fallback_post pf text)).
Proof. split; reflexivity. Qed.

Lemma normalize_fields (pf text : jsstring) :
  platform (normalize pf text) = pf /\
  get_prop (content (normalize pf text)) k_length = Some (characterCount (normalize pf text)).
Proof.
  unfold normalize, try_parsed.
  destruct (JSON.parse text) as [v|].
  - destruct (parsed_post pf text v) as [p|] eqn:P; [exact (parsed_post_fields _ _ _ P)|].
    destruct (Fence.find text) as [cap|]; [|apply fallback_post_fields].
    destruct (JSON.parse cap) as [v'|]; [|apply fallback_post_fields].
    destruct (parsed_post pf text v') as [p|] eqn:P'; [exact (parsed_post_fields _ _ _ P')|].
    apply fallback_post_fields.
  - destruct (Fence.find text) as [cap|]; [|apply fallback_post_fields].
    destruct (JSON.parse cap) as [v'|]; [|apply fallback_post_fields].
    destruct (parsed_post pf text v') as [p|] eqn:P'; [exact (parsed_post_fields _ _ _ P')|].
    apply fallback_post_fields.
Qed.

Lemma normalize_platform (pf text : jsstring) : platform (normalize pf text) = pf.
Proof. apply normalize_fields. Qed.

(** When the content of the post is a string, the count is its length. *)
Lemma normalize_count (pf text str : jsstring) :
  content (normalize pf text) = VStr str ->
  characterCount (normalize pf text) = VNum (num_of_nat (List.length str)).
Proof.
  intros H. destruct (normalize_fields pf text) as [_ L].
  rewrite H, get_prop_length_str in L. congruence.
Qed.

(** The post of an answer that parses as an object. *)
Lemma normalize_object (pf raw : jsstring) (kvs : list (jsstring * value)) :
  JSON.parse raw = Some (VObj kvs) ->
  content (normalize pf raw)
  = or_else (match own_prop kvs k_content with Some w => w | None => VUndefined end)
            (VStr raw) /\
  reasoning (normalize pf raw)
  = or_else (match own_prop kvs k_reasoning with Some w => w | None => VUndefined end)
            (VStr default_reasoning).
Proof.
  intros H. unfold normalize, try_parsed. rewrite H.
  destruct (parsed_post_object pf raw kvs) as [n ->]. split; reflexivity.
Qed.

(** The post of an answer that does not parse, but whose first fenced
    block does. *)
Lemma normalize_fenced (pf raw cap : jsstring) (kvs : list (jsstring * value)) :
  JSON.parse raw = None ->
  Fence.find raw = Some cap ->
  JSON.parse cap = Some (VObj kvs) ->
  content (normalize pf raw)
  = or_else (match own_prop kvs k_content with Some w => w | None => VUndefined end)
            (VStr raw) /\
  reasoning (normalize pf raw)
  = or_else (match own_prop kvs k_reasoning with Some w => w | None => VUndefined end)
            (VStr default_reasoning).
Proof.
  intros H F C. unfold normalize, try_parsed. rewrite H, F, C.
  destruct (parsed_post_object pf raw kvs) as [n ->]. split; reflexivity.
Qed.

Lemma contains_fenced_backtick (raw obj : jsstring) :
  contains_fenced raw obj -> In Fence.backtick raw.
Proof.
  intros (pre & tag & ws1 & body & ws2 & post & -> & _).
  apply in_or_app. right. left. reflexivity.
Qed.

(** ** Answers that are a JSON object *)

(** C1, as the code has it: when the answer parses as an object whose
    [content] is truthy (a non-empty string, for one), the post carries
    that value unchanged; its reasoning is the object's [reasoning] when
    that is present and truthy, and the default sentence otherwise. *)
Theorem normalize_json_object (pf raw : jsstring) (kvs : list (jsstring * value)) (c : value) :
  JSON.parse raw = Some (VObj kvs) ->
  own_prop kvs k_content = Some c ->
  truthy c = true ->
  content (normalize pf raw) = c /\
  reasoning (normalize pf raw)
  = match own_prop kvs k_reasoning with
    | Some r => if truthy r then r else VStr default_reasoning
    | None => VStr default_reasoning
    end.
Proof.
  intros P C T. destruct (@normalize_object pf raw kvs P) as [-> ->].
  rewrite C. unfold or_else. rewrite T. split; [reflexivity|].
  destruct (own_prop kvs k_reasoning); reflexivity.
Qed.

(** The scenario of the spec: the answer
    [{"content":"Launching Acme!","reasoning":"Short punchy hook"}]. *)
Lemma normalize_json_object_witness :
  content (normalize Samples.producthunt Samples.acme_answer) = VStr (u16 "Launching Acme!") /\
  reasoning (normalize Samples.producthunt Samples.acme_answer)
  = VStr (u16 "Short punchy hook").
Proof.
  exact (@normalize_json_object Samples.producthunt Samples.acme_answer
           [(k_content, VStr (u16 "Launching Acme!"));
            (k_reasoning, VStr (u16 "Short punchy hook"))]
           (VStr (u16 "Launching Acme!")) eq_refl eq_refl eq_refl).
Defined.

(** C1 as stated fails: [empty_content] is an object with a [content]
    field, the empty string, and the post carries the whole answer
    instead of the empty string; in [empty_reasoning] the [reasoning]
    field is present, again the empty string, and the post carries the
    default sentence. *)
Lemma normalize_json_object_counterexample :
  JSON.parse Samples.empty_content = Some (VObj [(k_content, VStr [])]) /\
  content (normalize Samples.producthunt Samples.empty_content)
  = VStr Samples.empty_content /\
  content (normalize Samples.producthunt Samples.empty_content) <> VStr [] /\
  JSON.parse Samples.empty_reasoning
  = Some (VObj [(k_content, VStr (u16 "x")); (k_reasoning, VStr [])]) /\
  reasoning (normalize Samples.producthunt Samples.empty_reasoning)
  = VStr default_reasoning /\
  reasoning (normalize Samples.producthunt Samples.empty_reasoning) <> VStr [].
Proof.
  repeat split; try (vm_compute; reflexivity); vm_compute; discriminate.
Qed.

(** ** Answers with a fenced block *)

(** The search again, now without conditions on the text around the
    block: what it returns is the first fenced block, and the first
    fenced block is what it returns. *)

Lemma here_fenced (s cap : jsstring) :
  Fence.here s = Some cap -> fenced_here s cap.
Proof.
  unfold Fence.here. destruct (lit Fence.fence s) as [s1|] eqn:L1; [|discriminate].
  apply lit_sound in L1. subst s. intros H.
  assert (T : forall tag t, (tag = [] \/ tag = Fence.json_tag) -> s1 = tag ++ t ->
                            Fence.tail t = Some cap -> fenced_here (Fence.fence ++ s1) cap).
  { intros tag t Htag -> Ht.
    apply FenceFacts.tail_sound in Ht as (ws1 & body & ws2 & post & -> & Hws1 & Hcap & Hws2).
    exists tag, ws1, body, ws2, post. auto. }
  destruct (lit Fence.json_tag s1) as [s2|] eqn:L2.
  - apply lit_sound in L2.
    destruct (Fence.tail s2) as [cap'|] eqn:T2.
    + injection H as ->. apply (T Fence.json_tag s2); auto.
    + apply (T [] s1); auto.
  - apply (T [] s1); auto.
Qed.

(** The lazy quantifier stops at the first place where the rest of the
    pattern matches. *)
Lemma lazy_any_first (A : Type) (k : jsstring -> jsstring -> option A) (x r : jsstring) :
  forall taken a,
    k (rev taken ++ x) r = Some a ->
    exists x' r' a',
      x ++ r = x' ++ r' /\ (List.length x' <= List.length x)%nat /\
      k (rev taken ++ x') r' = Some a' /\
      Fence.lazy_any k taken (x ++ r) = Some a'.
Proof.
  induction x as [|c x IH]; intros taken a K.
  - exists [], r, a. rewrite app_nil_r in K |- *.
    split; [reflexivity|]. split; [apply Nat.le_refl|]. split; [exact K|].
    simpl app. destruct r; simpl; rewrite K; reflexivity.
  - simpl app. cbn [Fence.lazy_any].
    destruct (k (rev taken) (c :: x ++ r)) as [a0|] eqn:K0.
    + exists [], (c :: x ++ r), a0. rewrite app_nil_r.
      split; [reflexivity|]. split; [apply Nat.le_0_l|]. split; [exact K0|reflexivity].
    + destruct (IH (c :: taken) a) as (x' & r' & a' & E & Le & K' & L).
      { simpl. rewrite <- app_assoc. exact K. }
      exists (c :: x'), r', a'.
      split; [simpl; rewrite E; reflexivity|].
      split; [simpl; apply le_n_S, Le|].
      split; [|exact L].
      simpl in K'. rewrite <- app_assoc in K'. exact K'.
Qed.

Lemma group_first (body ws2 post : jsstring) :
  spaces ws2 ->
  exists x r,
    body ++ Fence.rbrace :: ws2 ++ Fence.fence ++ post = x ++ r /\
    (List.length x <= List.length body)%nat /\
    Fence.group ((Fence.lbrace :: body ++ [Fence.rbrace]) ++ ws2 ++ Fence.fence ++ post)
    = Some (Fence.lbrace :: x ++ [Fence.rbrace]).
Proof.
  intros Hws. unfold Fence.group. simpl. rewrite <- app_assoc. simpl.
  set (k := fun (body0 s' : jsstring) =>
              match s' with
              | [] => None
              | c' :: r' =>
                  if c' =? Fence.rbrace
                  then Fence.closing (Fence.lbrace :: body0 ++ [Fence.rbrace]) r'
                  else None
              end).
  destruct (@lazy_any_first _ k body (Fence.rbrace :: ws2 ++ Fence.fence ++ post) []
              (Fence.lbrace :: body ++ [Fence.rbrace]))
    as (x & r & a & E & Le & K & L).
  { simpl. apply FenceFacts.closing_skip, Hws. }
  exists x, r. split; [exact E|]. split; [exact Le|].
  transitivity (Some a); [exact L|]. f_equal.
  clear L. subst k. simpl in K. destruct r as [|c' r']; [discriminate|].
  destruct (c' =? Fence.rbrace); [|discriminate].
  apply FenceFacts.closing_sound in K as [-> _]. reflexivity.
Qed.

Lemma here_first (tag ws1 body ws2 post : jsstring) :
  tag = [] \/ tag = Fence.json_tag ->
  spaces ws1 -> spaces ws2 ->
  exists x r,
    body ++ Fence.rbrace :: ws2 ++ Fence.fence ++ post = x ++ r /\
    (List.length x <= List.length body)%nat /\
    Fence.here (Fence.fence ++ tag ++ ws1 ++ (Fence.lbrace :: body ++ [Fence.rbrace])
                            ++ ws2 ++ Fence.fence ++ post)
    = Some (Fence.lbrace :: x ++ [Fence.rbrace]).
Proof.
  intros Htag H1 H2.
  destruct (group_first body post H2) as (x & r & E & Le & G).
  exists x, r. split; [exact E|]. split; [exact Le|].
  assert (T : Fence.tail (ws1 ++ (Fence.lbrace :: body ++ [Fence.rbrace])
                              ++ ws2 ++ Fence.fence ++ post)
              = Some (Fence.lbrace :: x ++ [Fence.rbrace])).
  { unfold Fence.tail. simpl.
    apply FenceFacts.greedy_space_skip; [exact H1|reflexivity|exact G]. }
  unfold Fence.here. rewrite lit_app.
  destruct Htag as [->| ->].
  - rewrite app_nil_l.
    assert (L : lit Fence.json_tag
                    (ws1 ++ (Fence.lbrace :: body ++ [Fence.rbrace])
                         ++ ws2 ++ Fence.fence ++ post)
                = None).
    { change Fence.json_tag with (106 :: u16 "son").
      destruct H1 as [|w ws1 Hw _]; simpl app; apply lit_head.
      - discriminate.
      - intros <-. discriminate Hw. }
    rewrite L. exact T.
  - rewrite lit_app, T. reflexivity.
Qed.

Lemma fenced_here_found (s obj : jsstring) :
  fenced_here s obj ->
  exists body x r,
    obj = Fence.lbrace :: body ++ [Fence.rbrace] /\
    (exists ws2 post, body ++ Fence.rbrace :: ws2 ++ Fence.fence ++ post = x ++ r) /\
    (List.length x <= List.length body)%nat /\
    Fence.here s = Some (Fence.lbrace :: x ++ [Fence.rbrace]).
Proof.
  intros (tag & ws1 & body & ws2 & post & -> & Htag & H1 & H2 & ->).
  destruct (@here_first tag ws1 body ws2 post Htag H1 H2) as (x & r & E & Le & H).
  exists body, x, r. split; [reflexivity|]. split; [exists ws2, post; exact E|].
  split; [exact Le|exact H].
Qed.

Lemma app_same_length (A : Type) (x y r r' : list A) :
  x ++ r = y ++ r' -> List.length x = List.length y -> x = y.
Proof.
  revert y. induction x as [|a x IH]; intros [|b y] E L; try discriminate L.
  - reflexivity.
  - simpl in E. injection E as -> E. f_equal. apply IH; [exact E|].
    simpl in L. injection L as L. exact L.
Qed.

Lemma first_fenced_find (raw obj : jsstring) :
  first_fenced raw obj -> Fence.find raw = Some obj.
Proof.
  intros (pre & s & -> & Hs & Left & Short).
  assert (H : Fence.here s = Some obj).
  { destruct (fenced_here_found Hs) as (body & x & r & -> & (ws2 & post & E) & Le & H).
    rewrite H. f_equal. f_equal. f_equal.
    apply here_fenced in H. apply Short in H.
    simpl in H. rewrite !length_app in H. simpl in H.
    symmetry in E. apply (app_same_length _ _ _ _ E). lia. }
  clear Hs Short. induction pre as [|c pre IH].
  - simpl app. destruct s; [discriminate H|]. cbn [Fence.find]. rewrite H. reflexivity.
  - simpl app. cbn [Fence.find].
    destruct (Fence.here (c :: pre ++ s)) as [cap|] eqn:Hc.
    + exfalso. apply (Left [] (c :: pre) cap); [reflexivity|discriminate|].
      apply here_fenced. exact Hc.
    + apply IH. intros pre1 pre2 obj' E N.
      apply (Left (c :: pre1) pre2 obj'); [rewrite E; reflexivity|exact N].
Qed.

Lemma find_first_fenced (raw obj : jsstring) :
  Fence.find raw = Some obj -> first_fenced raw obj.
Proof.
  induction raw as [|c raw IH]; cbn [Fence.find].
  - discriminate.
  - destruct (Fence.here (c :: raw)) as [cap|] eqn:Hc.
    + intros [= ->]. exists [], (c :: raw).
      split; [reflexivity|]. split; [apply here_fenced, Hc|]. split.
      * intros pre1 pre2 obj' E N. destruct pre1; destruct pre2; try discriminate E.
        contradiction.
      * intros obj' F.
        destruct (fenced_here_found F) as (body & x & r & -> & _ & Le & H).
        rewrite Hc in H. injection H as ->.
        simpl. rewrite !length_app. simpl. lia.
    + intros F. destruct (IH F) as (pre & s & -> & Hs & Left & Short).
      exists (c :: pre), s. split; [reflexivity|]. split; [exact Hs|]. split; [|exact Short].
      intros pre1 pre2 obj' E N F'. destruct pre1 as [|c1 pre1].
      * simpl in E. subst pre2.
        destruct (fenced_here_found F') as (body & x & r & _ & _ & _ & H).
        simpl in H. rewrite Hc in H. discriminate H.
      * simpl in E. injection E as _ E. exact (Left pre1 pre2 obj' E N F').
Qed.

(** C4, as the code has it: the answer does not parse as a whole; the
    object text of its first fenced block (the leftmost block, closed at
    the first brace that white space and a triple backtick follow)
    parses as an object, and the [content] of that object is truthy.
    Then the post carries that content, whatever text stands before the
    block and whatever follows it. *)
Theorem normalize_fenced_block
        (pf raw obj : jsstring) (kvs : list (jsstring * value)) (c : value) :
  JSON.parse raw = None ->
  first_fenced raw obj ->
  JSON.parse obj = Some (VObj kvs) ->
  own_prop kvs k_content = Some c ->
  truthy c = true ->
  content (normalize pf raw) = c.
Proof.
  intros P F Po C T.
  apply first_fenced_find in F.
  destruct (@normalize_fenced pf raw obj kvs P F Po) as [-> _].
  rewrite C. unfold or_else. rewrite T. reflexivity.
Qed.

Lemma no_backtick_dec (s : jsstring) :
  forallb (fun c => negb (c =? Fence.backtick)) s = true -> no_backtick s.
Proof.
  intros H. apply Forall_forall. intros c Hc.
  rewrite forallb_forall in H. specialize (H c Hc).
  intros ->. discriminate H.
Qed.

Lemma spaces_dec (s : jsstring) : forallb Fence.is_space s = true -> spaces s.
Proof.
  intros H. apply Forall_forall. intros c Hc.
  rewrite forallb_forall in H. exact (H c Hc).
Qed.

(** Prose with a word in backticks, the block with its tag and a
    backtick inside the content, prose and one more fence behind it. *)
Lemma normalize_fenced_block_witness :
  let obj := Samples.obj1 k_content (u16 "Hi `there`") in
  let raw := u16 "Use `this`:" ++ nl ++ Fence.fence ++ Fence.json_tag ++ nl
                 ++ obj ++ nl ++ Fence.fence ++ u16 " bye } " ++ Fence.fence in
  content (normalize Samples.producthunt raw) = VStr (u16 "Hi `there`").
Proof.
  intros obj raw.
  apply (@normalize_fenced_block Samples.producthunt raw obj
           [(k_content, VStr (u16 "Hi `there`"))] (VStr (u16 "Hi `there`"))).
  - vm_compute. reflexivity.
  - apply find_first_fenced. vm_compute. reflexivity.
  - vm_compute. reflexivity.
  - vm_compute. reflexivity.
  - vm_compute. reflexivity.
Defined.

(** C4 as stated fails.  [two_fences] does not parse, and it holds a
    fenced block tagged [json] whose object has the content [Hi]; but an
    earlier block matches first, its text is no JSON, and the post
    carries the whole answer.  In [fenced_empty] the only block holds an
    object whose [content] is empty, and again the post carries the whole
    answer.  In [fenced_twice_closed] the block stands first and its
    object has a content, but a brace, a space and a triple backtick
    inside that content close the block early: what is captured is no
    JSON, and the post carries the whole answer. *)
Lemma normalize_fenced_block_counterexample :
  (JSON.parse Samples.two_fences = None /\
   contains_fenced Samples.two_fences Samples.hi_object /\
   JSON.parse Samples.hi_object = Some (VObj [(k_content, VStr (u16 "Hi"))]) /\
   content (normalize Samples.producthunt Samples.two_fences) = VStr Samples.two_fences /\
   content (normalize Samples.producthunt Samples.two_fences) <> VStr (u16 "Hi")) /\
  (JSON.parse Samples.fenced_empty = None /\
   contains_fenced Samples.fenced_empty Samples.empty_content /\
   JSON.parse Samples.empty_content = Some (VObj [(k_content, VStr [])]) /\
   content (normalize Samples.producthunt Samples.fenced_empty) = VStr Samples.fenced_empty /\
   content (normalize Samples.producthunt Samples.fenced_empty) <> VStr []) /\
  (JSON.parse Samples.fenced_twice_closed = None /\
   fenced_here Samples.fenced_twice_closed Samples.fence_in_content /\
   JSON.parse Samples.fence_in_content
   = Some (VObj [(k_content, VStr (u16 "a } ``` b"))]) /\
   content (normalize Samples.producthunt Samples.fenced_twice_closed)
   = VStr Samples.fenced_twice_closed /\
   content (normalize Samples.producthunt Samples.fenced_twice_closed)
   <> VStr (u16 "a } ``` b")).
Proof.
  split; [|split].
  - split; [vm_compute; reflexivity|].
    split.
    { exists (Fence.fence ++ u16 "{x}" ++ Fence.fence ++ u16 " "), Fence.json_tag, [],
        (quoted k_content ++ u16 ":" ++ quoted (u16 "Hi")), [], [].
      split; [reflexivity|]. split; [right; reflexivity|].
      split; [constructor|]. split; [constructor|reflexivity]. }
    split; [vm_compute; reflexivity|].
    split; [vm_compute; reflexivity|vm_compute; discriminate].
  - split; [vm_compute; reflexivity|].
    split.
    { exists [], Fence.json_tag, nl, (quoted k_content ++ u16 ":" ++ quoted []), nl, [].
      split; [reflexivity|]. split; [right; reflexivity|].
      split; [apply spaces_dec; reflexivity|].
      split; [apply spaces_dec; reflexivity|reflexivity]. }
    split; [vm_compute; reflexivity|].
    split; [vm_compute; reflexivity|vm_compute; discriminate].
  - split; [vm_compute; reflexivity|].
    split.
    { exists Fence.json_tag, nl,
        (quoted k_content ++ u16 ":" ++ quoted (u16 "a } ``` b")), nl, [].
      split; [reflexivity|]. split; [right; reflexivity|].
      split; [apply spaces_dec; reflexivity|].
      split; [apply spaces_dec; reflexivity|reflexivity]. }
    split; [vm_compute; reflexivity|].
    split; [vm_compute; reflexivity|vm_compute; discriminate].
Qed.

(** ** Answers that are plain text *)

(** C5: an answer that does not parse as a whole, and in which no fenced
    block holds text that parses, becomes the content of the post as it
    is, with the default sentence as reasoning. *)
Theorem normalize_plain_text (pf raw : jsstring) :
  JSON.parse raw = None ->
  (forall obj, contains_fenced raw obj -> JSON.parse obj = None) ->
  content (normalize pf raw) = VStr raw /\
  reasoning (normalize pf raw) = VStr default_reasoning.
Proof.
  intros P H. unfold normalize, try_parsed. rewrite P.
  destruct (Fence.find raw) as [cap|] eqn:F; [|split; reflexivity].
  rewrite (H cap (@FenceFacts.find_sound raw cap F)). split; reflexivity.
Qed.

(** The scenario of the spec: the answer [Just buy our widgets]. *)
Lemma normalize_plain_text_witness :
  content (normalize Samples.producthunt Samples.plain) = VStr Samples.plain /\
  reasoning (normalize Samples.producthunt Samples.plain) = VStr default_reasoning.
Proof.
  apply (@normalize_plain_text Samples.producthunt Samples.plain).
  - vm_compute. reflexivity.
  - intros obj H. apply contains_fenced_backtick in H. exfalso.
    vm_compute in H. repeat (destruct H as [H|H]; [discriminate H|]). exact H.
Defined.

(** ** The log *)

Lemma log_emit (e : event) (st : AppState) : log (emit e st) = log st ++ [e].
Proof. reflexivity. Qed.

Lemma emit_all_log (evs : list event) (st : AppState) :
  log (emit_all evs st) = log st ++ evs.
Proof.
  revert st; induction evs as [|e evs IH]; intros st; simpl.
  - symmetry. apply app_nil_r.
  - change (fold_left (fun s e0 => emit e0 s) evs (emit e st)) with (emit_all evs (emit e st)).
    rewrite IH. simpl. rewrite <- app_assoc. reflexivity.
Qed.

(** Logging changes nothing but the log. *)
Lemma emit_all_data (evs : list event) (st : AppState) :
  generatedPosts (emit_all evs st) = generatedPosts st /\
  websiteData (emit_all evs st) = websiteData st /\
  selectedPlatforms (emit_all evs st) = selectedPlatforms st /\
  currentProject (emit_all evs st) = currentProject st /\
  user (emit_all evs st) = user st.
Proof.
  revert st; induction evs as [|e evs IH]; intros st; simpl; [repeat split|].
  change (fold_left (fun s e0 => emit e0 s) evs (emit e st)) with (emit_all evs (emit e st)).
  destruct (IH (emit e st)) as (-> & -> & -> & -> & ->). repeat split.
Qed.

Lemma ai_calls_app (l1 l2 : list event) : ai_calls (l1 ++ l2) = ai_calls l1 ++ ai_calls l2.
Proof. apply flat_map_app. Qed.

Lemma ai_calls_prompts (prompts : list jsstring) :
  ai_calls (List.map GenerateText prompts) = prompts.
Proof.
  induction prompts as [|p l IH]; [reflexivity|].
  change (p :: ai_calls (List.map GenerateText l) = p :: l). rewrite IH. reflexivity.
Qed.

Lemma ai_calls_none (evs : list event) :
  Forall (fun e => is_ai e = false) evs -> ai_calls evs = [].
Proof.
  induction 1 as [|e evs He _ IH]; [reflexivity|].
  destruct e; try discriminate He; exact IH.
Qed.

(** ** The generation loop *)

Lemma posts_of_platform (ids texts : list jsstring) :
  List.length texts = List.length ids ->
  List.map platform (posts_of ids texts) = ids.
Proof.
  revert texts; induction ids as [|id ids IH]; intros [|t texts] E; simpl in *;
    try reflexivity; try discriminate.
  rewrite normalize_platform. f_equal. apply IH. lia.
Qed.

(** A loop that runs to its end has called the service once for each
    platform, in order, and has pushed one post per answer. *)
Lemma generate_loop_some (env : Env) (wd : WebsiteData) (ids : list jsstring) :
  forall i posts st out st',
    generate_loop env wd i ids posts st = (Some out, st') ->
    exists texts,
      List.length texts = List.length ids /\
      out = posts ++ posts_of ids texts /\
      st' = emit_all (calls wd ids) st.
Proof.
  induction ids as [|id ids IH]; intros i posts st out st' H; simpl in H.
  - injection H as <- <-. exists []. rewrite app_nil_r. auto.
  - destruct (generateText env i (prompt_for wd id)) as [text|]; [|discriminate].
    apply IH in H as (texts & L & -> & ->).
    exists (text :: texts). simpl. rewrite <- app_assoc. simpl. auto.
Qed.

(** When every call is answered the loop runs to its end. *)
Lemma generate_loop_ok (env : Env) (wd : WebsiteData) (ids : list jsstring) :
  forall i posts st,
    (forall j id, nth_error ids j = Some id ->
                  generateText env (i + j) (prompt_for wd id) <> None) ->
    exists out, generate_loop env wd i ids posts st = (Some out, emit_all (calls wd ids) st).
Proof.
  induction ids as [|id ids IH]; intros i posts st H; simpl.
  - eauto.
  - pose proof (H 0%nat id eq_refl) as H0. rewrite Nat.add_0_r in H0.
    destruct (generateText env i (prompt_for wd id)) as [text|]; [|contradiction].
    apply IH. intros j id' Hj. specialize (H (S j) id' Hj).
    rewrite Nat.add_succ_r in H. exact H.
Qed.

(** The first call that is rejected ends the loop: the platforms after
    it are not tried, and the local array is gone. *)
Lemma generate_loop_fail (env : Env) (wd : WebsiteData) (ids : list jsstring) :
  forall k i posts st id,
    nth_error ids k = Some id ->
    generateText env (i + k) (prompt_for wd id) = None ->
    (forall j id', (j < k)%nat -> nth_error ids j = Some id' ->
                   generateText env (i + j) (prompt_for wd id') <> None) ->
    generate_loop env wd i ids posts st = (None, emit_all (calls wd (firstn (S k) ids)) st).
Proof.
  induction ids as [|id0 ids IH]; intros k i posts st id Hk Hf Hok.
  - destruct k; discriminate.
  - destruct k as [|k]; simpl in Hk.
    + injection Hk as ->. rewrite Nat.add_0_r in Hf. simpl. rewrite Hf. reflexivity.
    + pose proof (Hok 0%nat id0 (Nat.lt_0_succ k) eq_refl) as H0.
      rewrite Nat.add_0_r in H0. cbn [generate_loop].
      destruct (generateText env i (prompt_for wd id0)) as [text|]; [|contradiction].
      rewrite (IH k (S i) _ _ id Hk).
      * reflexivity.
      * rewrite Nat.add_succ_comm. exact Hf.
      * intros j id' Hj Hn. rewrite Nat.add_succ_comm.
        apply Hok; [lia|exact Hn].
Qed.

(** Saving only writes to the store and to the console. *)
Lemma save_posts_events (env : Env) (cp : Project) (u : User) (posts : list GeneratedPost) :
  forall st, exists evs,
    save_posts env cp u posts st = emit_all evs st /\
    Forall (fun e => is_ai e = false) evs.
Proof.
  induction posts as [|p posts IH]; intros st; cbn [save_posts].
  - exists []. split; [reflexivity|constructor].
  - destruct (db_ok env (db_count st)).
    + match goal with
      | |- context [save_posts env cp u posts ?st1] => destruct (IH st1) as (evs & -> & F)
      end.
      eexists (_ :: evs). split; [reflexivity|]. constructor; [reflexivity|exact F].
    + eexists [_; _]. split; [reflexivity|]. repeat constructor.
Qed.

Lemma setGeneratedPosts_emit_all (posts : list GeneratedPost) (evs : list event) (st : AppState) :
  generatedPosts (emit_all evs (setGeneratedPosts posts st)) = posts /\
  log (emit_all evs (setGeneratedPosts posts st)) = log st ++ evs.
Proof.
  destruct (emit_all_data evs (setGeneratedPosts posts st)) as (-> & _).
  rewrite emit_all_log. split; reflexivity.
Qed.

(** What a run of [generatePosts] that gets through its loop leaves
    behind: the new posts, and a log that grew by the calls, by what the
    saving did, and by the notice of success. *)
Lemma generatePosts_emitted (env : Env) (s : AppState) (posts : list GeneratedPost) :
  emitted env s = Some posts ->
  exists wd texts evs,
    websiteData s = Some wd /\
    List.length texts = List.length (selectedPlatforms s) /\
    posts = posts_of (selectedPlatforms s) texts /\
    Forall (fun e => is_ai e = false) evs /\
    (currentProject s = None \/ user s = None -> evs = []) /\
    generatedPosts (generatePosts env s) = posts /\
    log (generatePosts env s)
    = log s ++ calls wd (selectedPlatforms s) ++ evs
        ++ [ToastSuccess (u16 "Launch posts generated successfully!")].
Proof.
  unfold emitted, generatePosts.
  destruct (websiteData s) as [wd|]; [|discriminate].
  destruct (selectedPlatforms s) as [|id ids] eqn:Ids; [discriminate|].
  destruct (generate_loop env wd 0 (id :: ids) [] s) as [[out|] st1] eqn:L; [|discriminate].
  intros [= ->]. apply generate_loop_some in L as (texts & Len & -> & ->).
  set (st2 := setGeneratedPosts ([] ++ posts_of (id :: ids) texts)
                                (emit_all (calls wd (id :: ids)) s)).
  assert (S2 : forall evs,
             generatedPosts (emit (ToastSuccess (u16 "Launch posts generated successfully!"))
                                  (emit_all evs st2))
             = [] ++ posts_of (id :: ids) texts /\
             log (emit (ToastSuccess (u16 "Launch posts generated successfully!"))
                       (emit_all evs st2))
             = log s ++ calls wd (id :: ids) ++ evs
                 ++ [ToastSuccess (u16 "Launch posts generated successfully!")]).
  { intros evs. subst st2.
    destruct (setGeneratedPosts_emit_all ([] ++ posts_of (id :: ids) texts) evs
                (emit_all (calls wd (id :: ids)) s)) as [G Lg].
    split; [exact G|]. rewrite log_emit, Lg, emit_all_log, <- !app_assoc. reflexivity. }
  destruct (currentProject s) as [cp|] eqn:CP, (user s) as [u|] eqn:U.
  - destruct (save_posts_events env cp u ([] ++ posts_of (id :: ids) texts) st2)
      as (evs & -> & F).
    exists wd, texts, evs. destruct (S2 evs) as [G Lg].
    repeat split; auto. intros [?|?]; discriminate.
  - exists wd, texts, []. destruct (S2 []) as [G Lg]. repeat split; auto.
  - exists wd, texts, []. destruct (S2 []) as [G Lg]. repeat split; auto.
  - exists wd, texts, []. destruct (S2 []) as [G Lg]. repeat split; auto.
Qed.

(** ** [generatePosts] *)

(** C8: without a page, or with nothing selected, [generatePosts] only
    shows its error notice: the state is otherwise as it was, no post is
    emitted, and the log grows by that notice alone, so neither the text
    service nor any other service is called. *)
Theorem generatePosts_empty_input (env : Env) (s : AppState) :
  websiteData s = None \/ selectedPlatforms s = [] ->
  generatePosts env s
  = emit (ToastError (u16 "Please extract website data and select platforms first")) s /\
  emitted env s = None /\
  ai_calls (log (generatePosts env s)) = ai_calls (log s).
Proof.
  intros H.
  assert (E : generatePosts env s
              = emit (ToastError (u16 "Please extract website data and select platforms first")) s
              /\ emitted env s = None).
  { unfold generatePosts, emitted. destruct H as [-> | ->].
    - split; reflexivity.
    - destruct (websiteData s); split; reflexivity. }
  destruct E as [E1 E2]. rewrite E1, log_emit, ai_calls_app. simpl.
  rewrite app_nil_r. auto.
Qed.

(** A page, and an empty selection. *)
Lemma generatePosts_empty_input_witness :
  generatePosts (Samples.services Samples.acme_answer []) (Samples.screen [])
  = emit (ToastError (u16 "Please extract website data and select platforms first"))
         (Samples.screen []) /\
  emitted (Samples.services Samples.acme_answer []) (Samples.screen []) = None /\
  ai_calls (log (generatePosts (Samples.services Samples.acme_answer []) (Samples.screen [])))
  = ai_calls (log (Samples.screen [])).
Proof.
  apply (@generatePosts_empty_input (Samples.services Samples.acme_answer [])
           (Samples.screen [])).
  right. reflexivity.
Defined.

(** A run in which every call is answered. *)
Lemma generatePosts_answered (env : Env) (s : AppState) (wd : WebsiteData) :
  websiteData s = Some wd ->
  selectedPlatforms s <> [] ->
  (forall j id, nth_error (selectedPlatforms s) j = Some id ->
                generateText env j (prompt_for wd id) <> None) ->
  exists texts evs,
    List.length texts = List.length (selectedPlatforms s) /\
    Forall (fun e => is_ai e = false) evs /\
    (currentProject s = None \/ user s = None -> evs = []) /\
    generatedPosts (generatePosts env s) = posts_of (selectedPlatforms s) texts /\
    log (generatePosts env s)
    = log s ++ calls wd (selectedPlatforms s) ++ evs
        ++ [ToastSuccess (u16 "Launch posts generated successfully!")].
Proof.
  intros W N A.
  destruct (@generate_loop_ok env wd (selectedPlatforms s) 0 [] s A) as [out L].
  assert (E : emitted env s = Some out).
  { unfold emitted. rewrite W. destruct (selectedPlatforms s); [contradiction|].
    rewrite L. reflexivity. }
  destruct (generatePosts_emitted env s E)
    as (wd' & texts & evs & W' & Len & -> & F & P & G & Lg).
  rewrite W in W'. injection W' as <-.
  exists texts, evs. auto.
Qed.

Lemma ai_calls_of_calls (wd : WebsiteData) (ids : list jsstring) :
  ai_calls (calls wd ids) = List.map (prompt_for wd) ids.
Proof.
  unfold calls. rewrite <- (map_map (prompt_for wd) GenerateText). apply ai_calls_prompts.
Qed.

(** The calls of a loop are the prompts of the first platforms of the
    list, in order: at most one call per platform, whatever the service
    does. *)
Lemma generate_loop_calls (env : Env) (wd : WebsiteData) (ids : list jsstring) :
  forall i posts st,
  exists n, snd (generate_loop env wd i ids posts st) = emit_all (calls wd (firstn n ids)) st.
Proof.
  induction ids as [|id ids IH]; intros i posts st.
  - exists 0%nat. reflexivity.
  - cbn [generate_loop].
    destruct (generateText env i (prompt_for wd id)) as [text|].
    + destruct (IH (S i) (posts ++ [normalize id text])
                   (emit (GenerateText (prompt_for wd id)) st)) as [n ->].
      exists (S n). reflexivity.
    + exists 1%nat. reflexivity.
Qed.

Lemma generatePosts_calls (env : Env) (s : AppState) (wd : WebsiteData) :
  websiteData s = Some wd ->
  exists n, ai_calls (log (generatePosts env s))
            = ai_calls (log s) ++ List.map (prompt_for wd) (firstn n (selectedPlatforms s)).
Proof.
  intros W. destruct (emitted env s) as [posts|] eqn:E.
  - destruct (generatePosts_emitted env s E)
      as (wd' & texts & evs & W' & _ & _ & F & _ & _ & Lg).
    rewrite W in W'. injection W' as <-.
    exists (List.length (selectedPlatforms s)).
    rewrite Lg, firstn_all, !ai_calls_app, (ai_calls_none F), ai_calls_of_calls. simpl.
    rewrite app_nil_r. reflexivity.
  - unfold emitted in E. unfold generatePosts. rewrite W in *.
    destruct (selectedPlatforms s) as [|id ids] eqn:Ids.
    + exists 0%nat. rewrite log_emit, ai_calls_app. reflexivity.
    + destruct (generate_loop_calls env wd (id :: ids) 0 [] s) as [n L].
      destruct (generate_loop env wd 0 (id :: ids) [] s) as [[out|] st1]; [discriminate|].
      simpl in L. subst st1. exists n.
      rewrite !log_emit, emit_all_log, !ai_calls_app, ai_calls_of_calls. simpl.
      rewrite !app_nil_r. reflexivity.
Qed.

(** C7: the posts that [generatePosts] emits — and it emits them
    whenever there is a page, the selection is not empty and the text
    service answers every call — name the selected platforms in the order
    of the selection, and the service has then been called once per
    platform, in that order, with that platform's prompt.  In no run is
    the service called more than once for a platform, or out of order. *)
Theorem generatePosts_order (env : Env) (s : AppState) (wd : WebsiteData) :
  websiteData s = Some wd ->
  (forall posts,
      emitted env s = Some posts ->
      generatedPosts (generatePosts env s) = posts /\
      List.map platform posts = selectedPlatforms s /\
      ai_calls (log (generatePosts env s))
      = ai_calls (log s) ++ List.map (prompt_for wd) (selectedPlatforms s)) /\
  (selectedPlatforms s <> [] ->
   (forall j id, nth_error (selectedPlatforms s) j = Some id ->
                 generateText env j (prompt_for wd id) <> None) ->
   exists posts, emitted env s = Some posts) /\
  (exists n, ai_calls (log (generatePosts env s))
             = ai_calls (log s) ++ List.map (prompt_for wd) (firstn n (selectedPlatforms s))).
Proof.
  intros W. split; [|split].
  - intros posts E.
    destruct (generatePosts_emitted env s E)
      as (wd' & texts & evs & W' & Len & -> & F & _ & G & Lg).
    rewrite W in W'. injection W' as <-.
    split; [exact G|]. split.
    + apply posts_of_platform, Len.
    + rewrite Lg, !ai_calls_app, (ai_calls_none F), ai_calls_of_calls. simpl.
      rewrite app_nil_r. reflexivity.
  - intros N A.
    destruct (@generate_loop_ok env wd (selectedPlatforms s) 0 [] s A) as [out L].
    exists out. unfold emitted. rewrite W.
    destruct (selectedPlatforms s); [contradiction|]. rewrite L. reflexivity.
  - apply generatePosts_calls, W.
Qed.

(** The selection [twitter], [linkedin]: two posts, in that order. *)
Lemma generatePosts_order_witness :
  let env := Samples.services Samples.acme_answer [] in
  let s := Samples.screen [Samples.twitter; Samples.linkedin] in
  generatedPosts (generatePosts env s)
  = [normalize Samples.twitter Samples.acme_answer;
     normalize Samples.linkedin Samples.acme_answer] /\
  List.map platform [normalize Samples.twitter Samples.acme_answer;
                     normalize Samples.linkedin Samples.acme_answer]
  = [Samples.twitter; Samples.linkedin] /\
  ai_calls (log (generatePosts env s))
  = [] ++ [prompt_for Samples.acme_page Samples.twitter;
           prompt_for Samples.acme_page Samples.linkedin].
Proof.
  intros env s.
  apply (proj1 (@generatePosts_order env s Samples.acme_page eq_refl)).
  vm_compute. reflexivity.
Defined.

(** How a run ends whose [k]-th call is the first to be rejected. *)
Lemma generatePosts_failed (env : Env) (s : AppState) (wd : WebsiteData)
      (k : nat) (id : jsstring) :
  websiteData s = Some wd ->
  nth_error (selectedPlatforms s) k = Some id ->
  generateText env k (prompt_for wd id) = None ->
  (forall j id', (j < k)%nat -> nth_error (selectedPlatforms s) j = Some id' ->
                 generateText env j (prompt_for wd id') <> None) ->
  emitted env s = None /\
  generatePosts env s
  = emit (ToastError (u16 "Failed to generate launch posts"))
         (emit (ConsoleError (u16 "Error generating posts:"))
               (emit_all (calls wd (firstn (S k) (selectedPlatforms s))) s)).
Proof.
  intros W K F A.
  pose proof (@generate_loop_fail env wd (selectedPlatforms s) k 0 [] s id K F A) as L.
  unfold emitted, generatePosts. rewrite W.
  destruct (selectedPlatforms s) as [|id0 ids]; [destruct k; discriminate|].
  rewrite L. split; reflexivity.
Qed.

(** C2, as the code has it: a rejected call ends the whole run.  When
    the call for the [k]-th platform is the first to be rejected, no post
    is emitted — the stored posts stay what they were before the run, the
    posts already generated in this run are dropped — the service has
    been called for the platforms up to the [k]-th and for none after it,
    and the run closes with one console line and one error notice. *)
Theorem generatePosts_failure_aborts (env : Env) (s : AppState) (wd : WebsiteData)
        (k : nat) (id : jsstring) :
  websiteData s = Some wd ->
  nth_error (selectedPlatforms s) k = Some id ->
  generateText env k (prompt_for wd id) = None ->
  (forall j id', (j < k)%nat -> nth_error (selectedPlatforms s) j = Some id' ->
                 generateText env j (prompt_for wd id') <> None) ->
  emitted env s = None /\
  generatedPosts (generatePosts env s) = generatedPosts s /\
  log (generatePosts env s)
  = log s ++ calls wd (firstn (S k) (selectedPlatforms s))
      ++ [ConsoleError (u16 "Error generating posts:");
          ToastError (u16 "Failed to generate launch posts")].
Proof.
  intros W K F A.
  destruct (@generatePosts_failed env s wd k id W K F A) as [E ->].
  split; [exact E|]. split.
  - change (generatedPosts (emit_all (calls wd (firstn (S k) (selectedPlatforms s))) s)
            = generatedPosts s).
    apply emit_all_data.
  - rewrite !log_emit, emit_all_log, <- !app_assoc. reflexivity.
Qed.

(** Three platforms, the second call rejected. *)
Lemma generatePosts_failure_aborts_witness :
  let env := Samples.services Samples.acme_answer [1%nat] in
  let s := Samples.screen [Samples.producthunt; Samples.twitter; Samples.linkedin] in
  emitted env s = None /\
  generatedPosts (generatePosts env s) = generatedPosts s /\
  log (generatePosts env s)
  = log s ++ calls Samples.acme_page
                   (firstn 2 [Samples.producthunt; Samples.twitter; Samples.linkedin])
      ++ [ConsoleError (u16 "Error generating posts:");
          ToastError (u16 "Failed to generate launch posts")].
Proof.
  intros env s.
  apply (@generatePosts_failure_aborts env s Samples.acme_page 1%nat Samples.twitter).
  - reflexivity.
  - reflexivity.
  - reflexivity.
  - intros j id' Hj _. assert (j = 0%nat) as -> by lia. simpl. discriminate.
Defined.

(** C2 as stated fails: of three selected platforms the second call is
    rejected.  The first platform had its answer, the third is never
    asked, and the run stores no post at all. *)
Lemma generatePosts_failure_counterexample :
  let env := Samples.services Samples.acme_answer [1%nat] in
  let s := Samples.screen [Samples.producthunt; Samples.twitter; Samples.linkedin] in
  generateText env 0 (prompt_for Samples.acme_page Samples.producthunt)
  = Some Samples.acme_answer /\
  generateText env 2 (prompt_for Samples.acme_page Samples.linkedin)
  = Some Samples.acme_answer /\
  generatedPosts (generatePosts env s) = [] /\
  ~ (exists p, In p (generatedPosts (generatePosts env s)) /\
               platform p = Samples.producthunt) /\
  ~ (exists p, In p (generatedPosts (generatePosts env s)) /\
               platform p = Samples.linkedin) /\
  ai_calls (log (generatePosts env s))
  = [prompt_for Samples.acme_page Samples.producthunt;
     prompt_for Samples.acme_page Samples.twitter].
Proof.
  intros env s.
  assert (G : generatedPosts (generatePosts env s) = []) by (vm_compute; reflexivity).
  split; [vm_compute; reflexivity|]. split; [vm_compute; reflexivity|].
  split; [exact G|]. rewrite G.
  split; [intros (p & [] & _)|]. split; [intros (p & [] & _)|].
  vm_compute. reflexivity.
Qed.

(** What saving adds to the log: requests that hand a post of the run
    to the store, and a console line about the store after a request it
    refused. *)
Lemma save_posts_log (env : Env) (cp : Project) (u : User) (posts : list GeneratedPost) :
  forall st, exists evs,
    save_posts env cp u posts st = emit_all evs st /\
    forall e, In e evs ->
      (exists pid post, e = DbCreatePost pid (pr_id cp) (user_id u) post /\ In post posts) \/
      (e = ConsoleError (u16 "Error saving posts to database:") /\
       exists n, db_ok env n = false).
Proof.
  induction posts as [|p posts IH]; intros st; cbn [save_posts].
  - exists []. split; [reflexivity|]. intros e [].
  - destruct (db_ok env (db_count st)) eqn:Ok.
    + match goal with
      | |- context [save_posts env cp u posts ?st1] => destruct (IH st1) as (evs & -> & F)
      end.
      eexists (_ :: evs). split; [reflexivity|].
      intros e [<-|I].
      * left. eexists _, p. split; [reflexivity|left; reflexivity].
      * destruct (F e I) as [(pid & post & -> & J)|R].
        -- left. exists pid, post. split; [reflexivity|right; exact J].
        -- right. exact R.
    + eexists [_; _]. split; [reflexivity|].
      intros e [<-|[<-|[]]].
      * left. eexists _, p. split; [reflexivity|left; reflexivity].
      * right. split; [reflexivity|]. exists (db_count st). exact Ok.
Qed.

(** The whole log of a run that gets through its loop: the calls, what
    the saving added, the notice of success. *)
Lemma generatePosts_saving (env : Env) (s : AppState) (posts : list GeneratedPost) :
  emitted env s = Some posts ->
  exists wd evs,
    websiteData s = Some wd /\
    log (generatePosts env s)
    = log s ++ calls wd (selectedPlatforms s) ++ evs
        ++ [ToastSuccess (u16 "Launch posts generated successfully!")] /\
    (currentProject s = None \/ user s = None -> evs = []) /\
    (forall e, In e evs ->
       (exists pid proj usr post, e = DbCreatePost pid proj usr post /\ In post posts) \/
       (e = ConsoleError (u16 "Error saving posts to database:") /\
        exists n, db_ok env n = false)).
Proof.
  unfold emitted, generatePosts.
  destruct (websiteData s) as [wd|]; [|discriminate].
  destruct (selectedPlatforms s) as [|id ids] eqn:Ids; [discriminate|].
  destruct (generate_loop env wd 0 (id :: ids) [] s) as [[out|] st1] eqn:L; [|discriminate].
  intros [= ->]. apply generate_loop_some in L as (texts & Len & -> & ->).
  set (st2 := setGeneratedPosts ([] ++ posts_of (id :: ids) texts)
                                (emit_all (calls wd (id :: ids)) s)).
  assert (S2 : forall evs,
             log (emit (ToastSuccess (u16 "Launch posts generated successfully!"))
                       (emit_all evs st2))
             = log s ++ calls wd (id :: ids) ++ evs
                 ++ [ToastSuccess (u16 "Launch posts generated successfully!")]).
  { intros evs. subst st2.
    destruct (setGeneratedPosts_emit_all ([] ++ posts_of (id :: ids) texts) evs
                (emit_all (calls wd (id :: ids)) s)) as [_ Lg].
    rewrite log_emit, Lg, emit_all_log, <- !app_assoc. reflexivity. }
  assert (Z : forall e : event, In e [] ->
             (exists pid proj usr post,
                 e = DbCreatePost pid proj usr post /\
                 In post ([] ++ posts_of (id :: ids) texts)) \/
             (e = ConsoleError (u16 "Error saving posts to database:") /\
              exists n, db_ok env n = false)) by (intros e []).
  destruct (currentProject s) as [cp|] eqn:CP, (user s) as [u|] eqn:U.
  - destruct (save_posts_log env cp u ([] ++ posts_of (id :: ids) texts) st2)
      as (evs & -> & F).
    exists wd, evs. split; [reflexivity|]. split; [apply S2|].
    split; [intros [?|?]; discriminate|].
    intros e I. destruct (F e I) as [(pid & post & -> & J)|R].
    + left. exists pid, (pr_id cp), (user_id u), post. split; [reflexivity|exact J].
    + right. exact R.
  - exists wd, []. split; [reflexivity|]. split; [apply (S2 [])|]. split; [reflexivity|exact Z].
  - exists wd, []. split; [reflexivity|]. split; [apply (S2 [])|]. split; [reflexivity|exact Z].
  - exists wd, []. split; [reflexivity|]. split; [apply (S2 [])|]. split; [reflexivity|exact Z].
Qed.

(** C3, as the code has it: an id that names no platform of the
    registry is not skipped.  In a run whose calls are all answered, the
    service is called for it with a prompt that names the platform and
    its limit as [undefined], and a post carrying the id is stored.  No
    warning about the id is logged, with or without a project: beside
    the calls and the closing notice of success, the run adds to the log
    only the requests that hand its posts to the store and, after a
    request the store refused, the console line about the store; it adds
    nothing at all when there is no project to save to. *)
Theorem unresolved_platform_not_skipped (env : Env) (s : AppState) (wd : WebsiteData)
        (id : jsstring) :
  websiteData s = Some wd ->
  In id (selectedPlatforms s) ->
  find_platform id = None ->
  (forall j id', nth_error (selectedPlatforms s) j = Some id' ->
                 generateText env j (prompt_for wd id') <> None) ->
  (exists p, In p (generatedPosts (generatePosts env s)) /\ platform p = id) /\
  In (build_prompt None wd) (ai_calls (log (generatePosts env s))) /\
  (exists evs,
      log (generatePosts env s)
      = log s ++ calls wd (selectedPlatforms s) ++ evs
          ++ [ToastSuccess (u16 "Launch posts generated successfully!")] /\
      (currentProject s = None \/ user s = None -> evs = []) /\
      (forall e, In e evs ->
         (exists pid proj usr post,
             e = DbCreatePost pid proj usr post /\
             In post (generatedPosts (generatePosts env s))) \/
         (e = ConsoleError (u16 "Error saving posts to database:") /\
          exists n, db_ok env n = false))).
Proof.
  intros W I U A.
  assert (N : selectedPlatforms s <> []) by (intros E; rewrite E in I; exact I).
  destruct (generatePosts_answered env s W N A) as (texts & evs & Len & F & P & G & Lg).
  split; [|split].
  - assert (I' : In id (List.map platform (generatedPosts (generatePosts env s)))).
    { rewrite G, (@posts_of_platform _ _ Len). exact I. }
    apply in_map_iff in I' as (p & Hp & Hin). exists p. auto.
  - rewrite Lg, !ai_calls_app, ai_calls_of_calls.
    apply in_or_app. right. apply in_or_app. left.
    apply in_map_iff. exists id. split; [|exact I].
    unfold prompt_for. rewrite U. reflexivity.
  - destruct (@generate_loop_ok env wd (selectedPlatforms s) 0 [] s A) as [out L].
    assert (E : emitted env s = Some out).
    { unfold emitted. rewrite W. destruct (selectedPlatforms s); [contradiction|].
      rewrite L. reflexivity. }
    destruct (generatePosts_saving env s E) as (wd' & evs' & W' & Lg' & P' & Sv).
    rewrite W in W'. injection W' as <-.
    destruct (generatePosts_emitted env s E) as (_ & _ & _ & _ & _ & _ & _ & _ & G' & _).
    exists evs'. rewrite G'. split; [exact Lg'|]. split; [exact P'|exact Sv].
Qed.

(** The selection [mastodon], which the registry does not have, on the
    screen of a user with a project. *)
Lemma unresolved_platform_not_skipped_witness :
  let env := Samples.services Samples.plain [] in
  let s := {| user := Some {| user_id := u16 "u1" |};
              projects := [];
              currentProject :=
                Some {| pr_id := u16 "p1"; pr_userId := u16 "u1"; pr_name := u16 "P";
                        pr_websiteUrl := None; pr_websiteTitle := None;
                        pr_websiteDescription := None; pr_websiteContent := None;
                        pr_websiteMetadata := None; pr_selectedPlatforms := None;
                        pr_createdAt := []; pr_updatedAt := [] |};
              websiteUrl := u16 "https://acme.io";
              websiteData := Some Samples.acme_page;
              selectedPlatforms := [Samples.mastodon];
              generatedPosts := [];
              chatMessages := [];
              log := [] |} in
  (exists p, In p (generatedPosts (generatePosts env s)) /\ platform p = Samples.mastodon) /\
  In (build_prompt None Samples.acme_page) (ai_calls (log (generatePosts env s))) /\
  (exists evs,
      log (generatePosts env s)
      = log s ++ calls Samples.acme_page (selectedPlatforms s) ++ evs
          ++ [ToastSuccess (u16 "Launch posts generated successfully!")] /\
      (currentProject s = None \/ user s = None -> evs = []) /\
      (forall e, In e evs ->
         (exists pid proj usr post,
             e = DbCreatePost pid proj usr post /\
             In post (generatedPosts (generatePosts env s))) \/
         (e = ConsoleError (u16 "Error saving posts to database:") /\
          exists n, db_ok env n = false))).
Proof.
  intros env s.
  apply (@unresolved_platform_not_skipped env s Samples.acme_page Samples.mastodon).
  - reflexivity.
  - left. reflexivity.
  - reflexivity.
  - intros j id' _. simpl. discriminate.
Defined.

(** C3 as stated fails: [mastodon] is not in the registry, and the run
    stores a post for it; the whole log of the run is the call and the
    notice of success. *)
Lemma unresolved_platform_counterexample :
  let env := Samples.services Samples.plain [] in
  let s := Samples.screen [Samples.mastodon] in
  find_platform Samples.mastodon = None /\
  generatedPosts (generatePosts env s) = [fallback_post Samples.mastodon Samples.plain] /\
  log (generatePosts env s)
  = [GenerateText (build_prompt None Samples.acme_page);
     ToastSuccess (u16 "Launch posts generated successfully!")].
Proof.
  intros env s. repeat split; vm_compute; reflexivity.
Qed.

(** C6, as the code has it: the posts a run emits are the posts it
    stores; in each of them [characterCount] is what [.length] reads off
    its content, so that whenever the content is a string the count is
    the length of that string, counted in UTF-16 code units. *)
Theorem generated_count_is_length (env : Env) (s : AppState) (posts : list GeneratedPost) :
  emitted env s = Some posts ->
  generatedPosts (generatePosts env s) = posts /\
  (forall p, In p posts -> get_prop (content p) k_length = Some (characterCount p)) /\
  (forall p str, In p posts -> content p = VStr str ->
                 characterCount p = VNum (num_of_nat (List.length str))).
Proof.
  intros E.
  destruct (generatePosts_emitted env s E)
    as (wd & texts & evs & _ & _ & -> & _ & _ & G & _).
  split; [exact G|]. split.
  - intros p I. unfold posts_of in I. apply in_map_iff in I as ([pf text] & <- & _).
    apply normalize_fields.
  - intros p str I C. unfold posts_of in I. apply in_map_iff in I as ([pf text] & <- & _).
    apply normalize_count, C.
Qed.

(** The scenario of the spec: one platform, the answer [acme_answer],
    whose content has 15 characters. *)
Lemma generated_count_is_length_witness :
  let env := Samples.services Samples.acme_answer [] in
  let s := Samples.screen [Samples.producthunt] in
  let post :=
    {| post_id := None;
       platform := Samples.producthunt;
       content := VStr (u16 "Launching Acme!");
       characterCount := VNum (num_of_nat 15);
       reasoning := VStr (u16 "Short punchy hook") |} in
  emitted env s = Some [post] /\
  generatedPosts (generatePosts env s) = [post] /\
  (forall p, In p [post] -> get_prop (content p) k_length = Some (characterCount p)) /\
  (forall p str, In p [post] -> content p = VStr str ->
                 characterCount p = VNum (num_of_nat (List.length str))).
Proof.
  intros env s post.
  assert (E : emitted env s = Some [post]) by (vm_compute; reflexivity).
  split; [exact E|].
  exact (@generated_count_is_length env s [post] E).
Defined.

(** C6 as stated fails.  For the answer [{"content":{"length":7}}] the
    post emitted has an object as content and the count 7, which is the
    number the answer itself gave; for [{"content":5}] the content is a
    number and the count is [undefined]. *)
Lemma generated_count_counterexample :
  let s := Samples.screen [Samples.producthunt] in
  emitted (Samples.services Samples.length_object []) s
  = Some [ {| post_id := None;
              platform := Samples.producthunt;
              content := VObj [(k_length, VNum (num_of_nat 7))];
              characterCount := VNum (num_of_nat 7);
              reasoning := VStr default_reasoning |} ] /\
  emitted (Samples.services Samples.number_content []) s
  = Some [ {| post_id := None;
              platform := Samples.producthunt;
              content := VNum (num_of_nat 5);
              characterCount := VUndefined;
              reasoning := VStr default_reasoning |} ].
Proof.
  intros s. split; vm_compute; reflexivity.
Qed.

(** A character outside the basic plane is two code units, and counts
    as two. *)
Example astral_character_counts_two :
  normalize Samples.twitter Samples.grin
  = {| post_id := None;
       platform := Samples.twitter;
       content := VStr Samples.grin;
       characterCount := VNum (num_of_nat 2);
       reasoning := VStr default_reasoning |}.
Proof. vm_compute. reflexivity. Qed.

(** ** [extractWebsiteData] *)

(** C9, as the code has it: when the scraper rejects, the stored page is
    what it was before — provided the handler did not create a project
    on its way in, that is, a project is current, or nobody is signed in,
    or the store refused to create the project. *)
Theorem extract_failure_keeps_page (env : Env) (s : AppState) :
  scrape env (websiteUrl s) = None ->
  currentProject s <> None \/ user s = None \/ db_ok env (db_count s) = false ->
  websiteData (extractWebsiteData env s) = websiteData s.
Proof.
  intros F H. unfold extractWebsiteData.
  destruct (blank (websiteUrl s)); [reflexivity|].
  rewrite F.
  destruct (currentProject s) as [cp|] eqn:CP; [reflexivity|].
  destruct (user s) as [u|] eqn:U; [|reflexivity].
  destruct H as [H|[H|H]]; [contradiction|discriminate|].
  unfold createNewProject. rewrite U, H. reflexivity.
Qed.

(** Nobody signed in, a page on the screen, the scraper rejects. *)
Lemma extract_failure_keeps_page_witness :
  let env := Samples.services Samples.plain [] in
  let s := Samples.screen [Samples.producthunt] in
  scrape env (websiteUrl s) = None /\
  user s = None /\
  websiteData (extractWebsiteData env s) = websiteData s.
Proof.
  intros env s.
  split; [reflexivity|]. split; [reflexivity|].
  exact (@extract_failure_keeps_page env s eq_refl (or_intror (or_introl eq_refl))).
Defined.

(** What the project step does to the page: a project created on the
    way in resets the screen before the scraper is called. *)
Lemma extract_failure_after_new_project (env : Env) (s : AppState) :
  scrape env (websiteUrl s) = None ->
  blank (websiteUrl s) = false ->
  currentProject s = None -> user s <> None -> db_ok env (db_count s) = true ->
  websiteData (extractWebsiteData env s) = None.
Proof.
  intros F B CP U D. unfold extractWebsiteData. rewrite B, F, CP.
  destruct (user s) as [u|] eqn:U'; [|contradiction].
  unfold createNewProject. rewrite U', D. reflexivity.
Qed.

(** C9 as stated fails: a user is signed in, no project is current, a
    page is on the screen.  The handler first creates a project, which
    clears the page; the scraper then rejects, and the page is gone. *)
Lemma extract_failure_counterexample :
  let env := Samples.services Samples.plain [] in
  let s := Samples.signed_in [Samples.producthunt] in
  scrape env (websiteUrl s) = None /\
  websiteData s = Some Samples.acme_page /\
  websiteData (extractWebsiteData env s) = None.
Proof.
  intros env s. repeat split; vm_compute; reflexivity.
Qed.

(** ** [togglePlatform] *)

Lemma existsb_str_eqb (p : jsstring) (l : list jsstring) :
  existsb (str_eqb p) l = true <-> In p l.
Proof.
  rewrite existsb_exists. split.
  - intros (x & Hx & E). destruct (str_eqb_spec p x); [subst; exact Hx|discriminate].
  - intros H. exists p. split; [exact H|apply str_eqb_refl].
Qed.

Lemma in_without (p q : jsstring) (l : list jsstring) :
  In q (List.filter (fun id => negb (str_eqb id p)) l) <-> In q l /\ q <> p.
Proof.
  rewrite filter_In. destruct (str_eqb_spec q p) as [->|N]; simpl.
  - split; [intros [_ H]; discriminate|intros [_ H]; contradiction].
  - tauto.
Qed.

Lemma in_toggle (p q : jsstring) (l : list jsstring) :
  In q (toggle p l) <-> (if str_eqb q p then ~ In p l else In q l).
Proof.
  unfold toggle. destruct (existsb (str_eqb p) l) eqn:E.
  - apply existsb_str_eqb in E. rewrite in_without.
    destruct (str_eqb_spec q p) as [->|N]; tauto.
  - assert (N : ~ In p l) by (rewrite <- existsb_str_eqb, E; discriminate).
    rewrite in_app_iff. simpl.
    destruct (str_eqb_spec q p) as [->|Q]; [tauto|].
    split; [intros [H|[H|[]]]; [exact H|congruence]|tauto].
Qed.

Lemma without_absent (p : jsstring) (l : list jsstring) :
  ~ In p l -> List.filter (fun id => negb (str_eqb id p)) l = l.
Proof.
  induction l as [|x l IH]; intros N; simpl; [reflexivity|].
  destruct (str_eqb_spec x p) as [->|_]; simpl.
  - exfalso. apply N. left. reflexivity.
  - rewrite IH; [reflexivity|]. intros H. apply N. right. exact H.
Qed.

Lemma without_idem (p : jsstring) (l : list jsstring) :
  List.filter (fun id => negb (str_eqb id p)) (List.filter (fun id => negb (str_eqb id p)) l)
  = List.filter (fun id => negb (str_eqb id p)) l.
Proof.
  apply without_absent. rewrite in_without. tauto.
Qed.

(** The other ids of the selection keep their places. *)
Lemma toggle_others (p : jsstring) (l : list jsstring) :
  List.filter (fun id => negb (str_eqb id p)) (toggle p l)
  = List.filter (fun id => negb (str_eqb id p)) l.
Proof.
  unfold toggle. destruct (existsb (str_eqb p) l).
  - apply without_idem.
  - rewrite filter_app. simpl. rewrite str_eqb_refl. simpl. apply app_nil_r.
Qed.

Lemma toggle_twice_absent (p : jsstring) (l : list jsstring) :
  ~ In p l -> toggle p (toggle p l) = l.
Proof.
  intros N. unfold toggle at 2.
  assert (E : existsb (str_eqb p) l = false).
  { destruct (existsb (str_eqb p) l) eqn:E; [|reflexivity].
    apply existsb_str_eqb in E. contradiction. }
  rewrite E. unfold toggle.
  assert (E' : existsb (str_eqb p) (l ++ [p]) = true).
  { apply existsb_str_eqb, in_or_app. right. left. reflexivity. }
  rewrite E', filter_app. simpl. rewrite str_eqb_refl. simpl.
  rewrite app_nil_r. apply without_absent, N.
Qed.

(** The handler stores the toggled selection, whatever the store says. *)
Lemma togglePlatform_selection (env : Env) (p : jsstring) (s : AppState) :
  selectedPlatforms (togglePlatform env p s) = toggle p (selectedPlatforms s).
Proof.
  unfold togglePlatform.
  destruct (currentProject s) as [cp|], (user s) as [u|]; try reflexivity.
  destruct (db_ok env _); reflexivity.
Qed.

(** C10: [togglePlatform] flips the membership of [p] in the selection
    and of no other id; toggling twice leaves the same set of ids
    selected, and the very same list when [p] was not selected at first;
    a toggle never changes the order of the other ids. *)
Theorem togglePlatform_flips (env env' : Env) (p : jsstring) (s : AppState) :
  let sel0 := selectedPlatforms s in
  let sel1 := selectedPlatforms (togglePlatform env p s) in
  let sel2 := selectedPlatforms (togglePlatform env' p (togglePlatform env p s)) in
  (In p sel1 <-> ~ In p sel0) /\
  (forall q, q <> p -> (In q sel1 <-> In q sel0)) /\
  (forall q, In q sel2 <-> In q sel0) /\
  (~ In p sel0 -> sel2 = sel0) /\
  List.filter (fun id => negb (str_eqb id p)) sel1
  = List.filter (fun id => negb (str_eqb id p)) sel0.
Proof.
  intros sel0 sel1 sel2. subst sel0 sel1 sel2.
  rewrite !togglePlatform_selection.
  set (l := selectedPlatforms s).
  split; [|split; [|split; [|split]]].
  - rewrite in_toggle, str_eqb_refl. tauto.
  - intros q Q. rewrite in_toggle.
    destruct (str_eqb_spec q p); [contradiction|tauto].
  - intros q. rewrite in_toggle.
    destruct (str_eqb_spec q p) as [->|Q].
    + rewrite in_toggle, str_eqb_refl.
      destruct (existsb (str_eqb p) l) eqn:E.
      * apply existsb_str_eqb in E. tauto.
      * assert (N : ~ In p l) by (rewrite <- existsb_str_eqb, E; discriminate). tauto.
    + rewrite in_toggle. destruct (str_eqb_spec q p); [contradiction|tauto].
  - apply toggle_twice_absent.
  - apply toggle_others.
Qed.

(** [twitter] toggled twice on the selection [producthunt], [linkedin]. *)
Lemma togglePlatform_flips_witness :
  let env := Samples.services Samples.plain [] in
  let s := Samples.signed_in [Samples.producthunt; Samples.linkedin] in
  ~ In Samples.twitter (selectedPlatforms s) /\
  selectedPlatforms (togglePlatform env Samples.twitter (togglePlatform env Samples.twitter s))
  = selectedPlatforms s.
Proof.
  intros env s.
  assert (N : ~ In Samples.twitter (selectedPlatforms s)).
  { vm_compute. intros [H|[H|[]]]; discriminate H. }
  split; [exact N|].
  exact (proj1 (proj2 (proj2 (proj2 (@togglePlatform_flips env env Samples.twitter s)))) N).
Defined.

(** ** The first revision *)

(** The toggle of the first revision stores the same list. *)
Lemma togglePlatform_v1_selection (p : jsstring) (s : AppState) :
  selectedPlatforms (togglePlatform_v1 p s) = toggle p (selectedPlatforms s).
Proof. reflexivity. Qed.

(** The normalizer of the first revision hands on whatever [content] and
    [reasoning] the object has: an empty content stays empty, and an
    absent reasoning stays [undefined] — the defaults came later. *)
Lemma normalize_v1_object (pf raw : jsstring) (kvs : list (jsstring * value)) (c n : value) :
  JSON.parse raw = Some (VObj kvs) ->
  own_prop kvs k_content = Some c ->
  get_prop c k_length = Some n ->
  content (normalize_v1 pf raw) = c /\
  characterCount (normalize_v1 pf raw) = n /\
  reasoning (normalize_v1 pf raw)
  = match own_prop kvs k_reasoning with Some r => r | None => VUndefined end.
Proof.
  intros P C L. unfold normalize_v1. rewrite P. cbn [get_prop]. rewrite C, L.
  repeat split.
Qed.

Example normalize_v1_no_default :
  reasoning (normalize_v1 Samples.producthunt Samples.hi_object) = VUndefined /\
  content (normalize_v1 Samples.producthunt Samples.empty_content) = VStr [].
Proof. split; vm_compute; reflexivity. Qed.

(** * More facts *)

(** ** The parser reads what the encoder writes *)

Module ParseFacts.
Import JSON.

(** More budget does not change a result. *)
Lemma p_value_more (fuel : nat) :
  (forall s v r k, p_value fuel s = Ok v r -> p_value (fuel + k) s = Ok v r) /\
  (forall s acc v r k, p_elems fuel s acc = Ok v r -> p_elems (fuel + k) s acc = Ok v r) /\
  (forall s acc v r k, p_members fuel s acc = Ok v r -> p_members (fuel + k) s acc = Ok v r).
Proof.
  induction fuel as [|f (IHv & IHe & IHm)]; [repeat split; discriminate|].
  repeat split.
  - intros s v r k H. simpl in H |- *.
    destruct (skip_ws s) as [|c r0]; [discriminate|].
    destruct (c =? ch "[").
    { destruct (skip_ws r0) as [|c' r']; [discriminate|].
      destruct (c' =? ch "]"); [exact H|]. apply IHe, H. }
    destruct (c =? ch "{").
    { destruct (skip_ws r0) as [|c' r']; [discriminate|].
      destruct (c' =? ch "}"); [exact H|]. apply IHm, H. }
    exact H.
  - intros s acc v r k H. simpl in H |- *.
    destruct (p_value f s) as [v0 r0| |] eqn:V; try discriminate.
    rewrite (IHv _ _ _ k V).
    destruct (skip_ws r0) as [|c r']; [discriminate|].
    destruct (c =? ch ","); [apply IHe, H|exact H].
  - intros s acc v r k H. simpl in H |- *.
    destruct (skip_ws s) as [|c r0]; [discriminate|].
    destruct (c =? dquote); [|discriminate].
    destruct (p_chars r0 []) as [[key r1]|]; [|discriminate].
    destruct (skip_ws r1) as [|c1 r2]; [discriminate|].
    destruct (c1 =? ch ":"); [|discriminate].
    destruct (p_value f r2) as [v0 r3| |] eqn:V; try discriminate.
    rewrite (IHv _ _ _ k V).
    destruct (skip_ws r3) as [|c3 r4]; [discriminate|].
    destruct (c3 =? ch ","); [apply IHm, H|exact H].
Qed.

Lemma parse_of_value (s : jsstring) (v : value) (fuel : nat) :
  (fuel <= budget s)%nat -> p_value fuel s = Ok v [] -> parse s = Some v.
Proof.
  intros L H. unfold parse.
  replace (budget s) with (fuel + (budget s - fuel))%nat by lia.
  rewrite (proj1 (p_value_more fuel) _ _ _ _ H). reflexivity.
Qed.

Lemma hex_val_hexd (n : N) : n < 16 -> hex_val (hexd n) = Some n.
Proof.
  intros H. unfold hexd, hex_val, is_digit.
  destruct (N.ltb_spec n 10) as [L|L].
  - replace (48 <=? 48 + n) with true by (symmetry; apply N.leb_le; lia).
    replace (48 + n <=? 57) with true by (symmetry; apply N.leb_le; lia).
    cbn [andb]. f_equal. lia.
  - replace (87 + n <=? 57) with false by (symmetry; apply N.leb_gt; lia).
    rewrite andb_false_r.
    replace (87 + n <=? 70) with false by (symmetry; apply N.leb_gt; lia).
    rewrite andb_false_r.
    replace (97 <=? 87 + n) with true by (symmetry; apply N.leb_le; lia).
    replace (87 + n <=? 102) with true by (symmetry; apply N.leb_le; lia).
    cbn [andb]. f_equal. lia.
Qed.

Lemma hex4_control (c : N) :
  c < 32 -> hex4 (ch "0") (ch "0") (hexd (c / 16)) (hexd (c mod 16)) = Some c.
Proof.
  intros H. unfold hex4.
  change (hex_val (ch "0")) with (Some 0).
  assert (D : c / 16 < 16) by (apply N.Div0.div_lt_upper_bound; lia).
  assert (M : c mod 16 < 16) by (apply N.mod_lt; lia).
  rewrite (hex_val_hexd D), (hex_val_hexd M). f_equal.
  pose proof (N.div_mod c 16). lia.
Qed.

(** Reading back an escaped run of characters up to the closing quote. *)
Lemma p_chars_json (s rest : jsstring) :
  forall acc, p_chars (json_chars s ++ dquote :: rest) acc = Some (rev acc ++ s, rest).
Proof.
  induction s as [|c s IH]; intros acc.
  - simpl. rewrite app_nil_r. reflexivity.
  - unfold json_chars in *. cbn [flat_map]. rewrite <- app_assoc.
    assert (Next : forall u, p_chars (flat_map json_char s ++ dquote :: rest) (u :: acc)
                             = Some (rev acc ++ u :: s, rest)).
    { intros u. rewrite IH. simpl. rewrite <- app_assoc. reflexivity. }
    unfold json_char.
    destruct (N.eqb_spec c dquote) as [->|N1]; [apply Next|].
    destruct (N.eqb_spec c backslash) as [->|N2]; [apply Next|].
    destruct (N.eqb_spec c 8) as [->|N3]; [apply Next|].
    destruct (N.eqb_spec c 9) as [->|N4]; [apply Next|].
    destruct (N.eqb_spec c 10) as [->|N5]; [apply Next|].
    destruct (N.eqb_spec c 12) as [->|N6]; [apply Next|].
    destruct (N.eqb_spec c 13) as [->|N7]; [apply Next|].
    destruct (N.ltb_spec c 32) as [L|L].
    + cbn [app p_chars]. change (backslash =? dquote) with false.
      change (backslash =? backslash) with true. change (ch "u" =? ch "u") with true.
      cbn iota. rewrite (hex4_control L). apply Next.
    + cbn [app p_chars].
      destruct (N.eqb_spec c dquote); [contradiction|].
      destruct (N.eqb_spec c backslash); [contradiction|].
      destruct (N.ltb_spec c 32); [lia|]. apply Next.
Qed.

(** A string literal is read back as the string. *)
Lemma p_scalar_json_chars (s rest : jsstring) :
  p_scalar (dquote :: json_chars s ++ dquote :: rest) = Ok (VStr s) rest.
Proof.
  unfold p_scalar. rewrite N.eqb_refl, p_chars_json. reflexivity.
Qed.

(** The formatted answer parses to the object it spells. *)
Lemma parse_formatted_answer (c r : jsstring) :
  parse (formatted_answer c r) = Some (VObj [(k_content, VStr c); (k_reasoning, VStr r)]).
Proof.
  apply (@parse_of_value _ _ 4).
  - unfold budget, formatted_answer. simpl. lia.
  - unfold formatted_answer, quoted, nl, json_string.
    repeat rewrite <- app_assoc. cbn [u16 list_ascii_of_string List.map app k_content k_reasoning].
    cbn [p_value skip_ws N_of_ascii]. simpl.
    rewrite <- !app_assoc. cbn [app].
    rewrite p_scalar_json_chars. simpl.
    rewrite p_scalar_json_chars. reflexivity.
Qed.

End ParseFacts.

(** ** More on the normalizer *)

(** X1: an answer in exactly the format the prompt asks for, with a
    content that is not empty, gives a post with that content, its
    length as count, and the reasoning of the answer (the default
    sentence when that is empty) — whatever characters the two strings
    hold. *)
Theorem formatted_answer_round_trip (pf c r : jsstring) :
  c <> [] ->
  normalize pf (formatted_answer c r)
  = {| post_id := None;
       platform := pf;
       content := VStr c;
       characterCount := VNum (num_of_nat (List.length c));
       reasoning := VStr (match r with [] => default_reasoning | _ => r end) |}.
Proof.
  intros N. unfold normalize, try_parsed.
  rewrite ParseFacts.parse_formatted_answer.
  destruct c as [|x c]; [contradiction|]. destruct r; reflexivity.
Qed.

Lemma formatted_answer_round_trip_witness :
  u16 "Launching Acme!" <> [] /\
  normalize Samples.producthunt
            (formatted_answer (u16 "Launching Acme!") (u16 "Short punchy hook"))
  = {| post_id := None;
       platform := Samples.producthunt;
       content := VStr (u16 "Launching Acme!");
       characterCount := VNum (num_of_nat 15);
       reasoning := VStr (u16 "Short punchy hook") |}.
Proof.
  assert (N : u16 "Launching Acme!" <> []) by discriminate.
  split; [exact N|].
  exact (@formatted_answer_round_trip Samples.producthunt (u16 "Launching Acme!")
           (u16 "Short punchy hook") N).
Defined.

Lemma or_else_truthy (a b : value) : truthy b = true -> truthy (or_else a b) = true.
Proof. intros H. unfold or_else. destruct (truthy a) eqn:E; [exact E|exact H]. Qed.

Lemma parsed_post_truthy (pf text : jsstring) (v : value) (p : GeneratedPost) :
  parsed_post pf text v = Some p ->
  truthy (reasoning p) = true /\ (text <> [] -> truthy (content p) = true).
Proof.
  unfold parsed_post.
  destruct (get_prop v k_content) as [c|]; [|discriminate].
  destruct (get_prop (or_else c (VStr text)) k_length) as [n|]; [|discriminate].
  destruct (get_prop v k_reasoning) as [r|]; [|discriminate].
  intros [= <-]. cbn [reasoning content]. split.
  - apply or_else_truthy. reflexivity.
  - intros N. apply or_else_truthy. destruct text; [contradiction|reflexivity].
Qed.

(** X2: no post has a blank reasoning, and a post has a blank content
    only when the answer itself is empty. *)
Theorem normalize_never_blank (pf raw : jsstring) :
  truthy (reasoning (normalize pf raw)) = true /\
  (raw <> [] -> truthy (content (normalize pf raw)) = true).
Proof.
  assert (F : truthy (reasoning (fallback_post pf raw)) = true /\
              (raw <> [] -> truthy (content (fallback_post pf raw)) = true)).
  { split; [reflexivity|]. intros N. destruct raw; [contradiction|reflexivity]. }
  unfold normalize, try_parsed.
  destruct (JSON.parse raw) as [v|].
  - destruct (parsed_post pf raw v) as [p|] eqn:P; [exact (parsed_post_truthy _ _ _ P)|].
    destruct (Fence.find raw) as [cap|]; [|exact F].
    destruct (JSON.parse cap) as [v'|]; [|exact F].
    destruct (parsed_post pf raw v') as [p|] eqn:P'; [exact (parsed_post_truthy _ _ _ P')|].
    exact F.
  - destruct (Fence.find raw) as [cap|]; [|exact F].
    destruct (JSON.parse cap) as [v'|]; [|exact F].
    destruct (parsed_post pf raw v') as [p|] eqn:P'; [exact (parsed_post_truthy _ _ _ P')|].
    exact F.
Qed.

Lemma normalize_never_blank_witness :
  Samples.empty_content <> [] /\
  truthy (content (normalize Samples.producthunt Samples.empty_content)) = true.
Proof.
  assert (N : Samples.empty_content <> []) by discriminate.
  split; [exact N|].
  exact (proj2 (@normalize_never_blank Samples.producthunt Samples.empty_content) N).
Defined.

(** Text without a backtick holds no fenced block. *)
Lemma find_no_backtick (s : jsstring) : no_backtick s -> Fence.find s = None.
Proof.
  intros H. destruct (Fence.find s) as [cap|] eqn:F; [|reflexivity].
  apply FenceFacts.find_sound, contains_fenced_backtick in F.
  unfold no_backtick in H. rewrite Forall_forall in H.
  exfalso. exact (H _ F eq_refl).
Qed.

Lemma skip_ws_split (s : jsstring) :
  exists ws, s = ws ++ JSON.skip_ws s /\ Forall (fun c => JSON.is_ws c = true) ws.
Proof.
  induction s as [|c s (ws & E & F)]; simpl.
  - exists []. split; [reflexivity|constructor].
  - destruct (JSON.is_ws c) eqn:W.
    + exists (c :: ws). split; [simpl; congruence|constructor; assumption].
    + exists []. split; [reflexivity|constructor].
Qed.

Lemma is_ws_no_backtick (ws : jsstring) :
  Forall (fun c => JSON.is_ws c = true) ws -> no_backtick ws.
Proof.
  intros H. unfold no_backtick. eapply Forall_impl; [|exact H].
  intros c W ->. discriminate W.
Qed.

(** Arrays come from the array branch and objects from the object
    branch: a parse that gives [null] read the word [null]. *)
Lemma p_elems_members_shape (fuel : nat) :
  (forall s acc v r, JSON.p_elems fuel s acc = JSON.Ok v r -> exists l, v = VArr l) /\
  (forall s acc v r, JSON.p_members fuel s acc = JSON.Ok v r -> exists kvs, v = VObj kvs).
Proof.
  induction fuel as [|f (IHe & IHm)]; [split; discriminate|].
  split.
  - intros s acc v r H. simpl in H.
    destruct (JSON.p_value f s) as [v0 r0| |]; try discriminate.
    destruct (JSON.skip_ws r0) as [|c r']; [discriminate|].
    destruct (c =? ch ","); [exact (IHe _ _ _ _ H)|].
    destruct (c =? ch "]"); [|discriminate].
    injection H as <- _. eauto.
  - intros s acc v r H. simpl in H.
    destruct (JSON.skip_ws s) as [|c r0]; [discriminate|].
    destruct (c =? dquote); [|discriminate].
    destruct (JSON.p_chars r0 []) as [[k r1]|]; [|discriminate].
    destruct (JSON.skip_ws r1) as [|c1 r2]; [discriminate|].
    destruct (c1 =? ch ":"); [|discriminate].
    destruct (JSON.p_value f r2) as [v0 r3| |]; try discriminate.
    destruct (JSON.skip_ws r3) as [|c3 r4]; [discriminate|].
    destruct (c3 =? ch ","); [exact (IHm _ _ _ _ H)|].
    destruct (c3 =? ch "}"); [|discriminate].
    injection H as <- _. eauto.
Qed.

Lemma parse_null_text (raw : jsstring) (v : value) :
  JSON.parse raw = Some v -> v = VNull \/ v = VUndefined -> no_backtick raw.
Proof.
  unfold JSON.parse.
  destruct (JSON.p_value (JSON.budget raw) raw) as [v0 r| |] eqn:V; try discriminate.
  destruct (JSON.skip_ws r) as [|x r'] eqn:R; [|discriminate].
  intros [= ->] Hv.
  destruct (JSON.budget raw) as [|f]; [discriminate|]. simpl in V.
  destruct (skip_ws_split raw) as (ws & E & W).
  destruct (JSON.skip_ws raw) as [|c r0]; [discriminate|].
  destruct (c =? ch "[").
  { destruct (JSON.skip_ws r0) as [|c' r1]; [discriminate|].
    destruct (c' =? ch "]"); [injection V as <- _; destruct Hv; discriminate|].
    apply (proj1 (p_elems_members_shape f)) in V as [l ->]. destruct Hv; discriminate. }
  destruct (c =? ch "{").
  { destruct (JSON.skip_ws r0) as [|c' r1]; [discriminate|].
    destruct (c' =? ch "}"); [injection V as <- _; destruct Hv; discriminate|].
    apply (proj2 (p_elems_members_shape f)) in V as [l ->]. destruct Hv; discriminate. }
  unfold JSON.p_scalar in V.
  destruct (c =? dquote).
  { destruct (JSON.p_chars r0 []) as [[? ?]|]; [|discriminate].
    injection V as <- _. destruct Hv; discriminate. }
  destruct (c =? ch "t").
  { destruct (lit JSON.t_true (c :: r0)); [|discriminate].
    injection V as <- _. destruct Hv; discriminate. }
  destruct (c =? ch "f").
  { destruct (lit JSON.t_false (c :: r0)); [|discriminate].
    injection V as <- _. destruct Hv; discriminate. }
  destruct (c =? ch "n").
  - destruct (lit JSON.t_null (c :: r0)) as [r1|] eqn:L; [|discriminate].
    injection V as _ ->. apply lit_sound in L.
    destruct (skip_ws_split r) as (ws' & E' & W'). rewrite R, app_nil_r in E'. subst ws'.
    rewrite E, L. unfold no_backtick.
    apply Forall_app. split; [apply is_ws_no_backtick, W|].
    apply Forall_app. split; [|apply is_ws_no_backtick, W'].
    repeat constructor; discriminate.
  - destruct (JSON.p_number (c :: r0)) as [[? ?]|]; [|discriminate].
    injection V as <- _. destruct Hv; discriminate.
Qed.

(** X3: an answer that is valid JSON but not an object — a number, a
    string, an array, [true], [false] or [null] — is taken whole: the
    post is the final fallback. *)
Theorem normalize_non_object (pf raw : jsstring) (v : value) :
  JSON.parse raw = Some v ->
  (forall kvs, v <> VObj kvs) ->
  normalize pf raw = fallback_post pf raw.
Proof.
  intros P N. unfold normalize, try_parsed. rewrite P.
  destruct v as [| |b|n|str|l|kvs]; try reflexivity.
  - cbn [parsed_post get_prop].
    rewrite (find_no_backtick (@parse_null_text raw _ P (or_intror eq_refl))). reflexivity.
  - cbn [parsed_post get_prop].
    rewrite (find_no_backtick (@parse_null_text raw _ P (or_introl eq_refl))). reflexivity.
  - exfalso. exact (N kvs eq_refl).
Qed.

Lemma normalize_non_object_witness :
  JSON.parse (u16 " null ") = Some VNull /\
  normalize Samples.twitter (u16 " null ") = fallback_post Samples.twitter (u16 " null ").
Proof.
  assert (P : JSON.parse (u16 " null ") = Some VNull) by (vm_compute; reflexivity).
  split; [exact P|].
  apply (@normalize_non_object Samples.twitter (u16 " null ") VNull P).
  intros kvs. discriminate.
Defined.

(** X4: when the answer is an object whose [content] is missing or
    falsy (the empty string, [null], [0], [false]), the post takes the
    whole answer as content and counts its length, while its reasoning
    still comes from the object. *)
Theorem normalize_object_without_content (pf raw : jsstring) (kvs : list (jsstring * value)) :
  JSON.parse raw = Some (VObj kvs) ->
  truthy (match own_prop kvs k_content with Some w => w | None => VUndefined end) = false ->
  content (normalize pf raw) = VStr raw /\
  characterCount (normalize pf raw) = VNum (num_of_nat (List.length raw)) /\
  reasoning (normalize pf raw)
  = or_else (match own_prop kvs k_reasoning with Some w => w | None => VUndefined end)
            (VStr default_reasoning).
Proof.
  intros P T. destruct (@normalize_object pf raw kvs P) as [C R].
  unfold or_else at 1 in C. rewrite T in C.
  split; [exact C|]. split; [apply normalize_count, C|exact R].
Qed.

Lemma normalize_object_without_content_witness :
  let raw := Samples.obj1 k_reasoning (u16 "why") in
  JSON.parse raw = Some (VObj [(k_reasoning, VStr (u16 "why"))]) /\
  content (normalize Samples.twitter raw) = VStr raw /\
  characterCount (normalize Samples.twitter raw) = VNum (num_of_nat (List.length raw)) /\
  reasoning (normalize Samples.twitter raw) = VStr (u16 "why").
Proof.
  intros raw.
  assert (P : JSON.parse raw = Some (VObj [(k_reasoning, VStr (u16 "why"))]))
    by (vm_compute; reflexivity).
  split; [exact P|].
  exact (@normalize_object_without_content Samples.twitter raw _ P eq_refl).
Defined.

(** ** More on the fence pattern *)

Lemma contains_fenced_length (raw obj : jsstring) :
  contains_fenced raw obj -> (List.length obj + 6 <= List.length raw)%nat.
Proof.
  intros (pre & tag & ws1 & body & ws2 & post & -> & _).
  rewrite !length_app. simpl. lia.
Qed.

(** X5: what the pattern captures is always the object of a fenced block
    of the answer: it starts with a brace and ends with one, a triple
    backtick (and at most the tag [json] and white space) stands before
    it and white space and a triple backtick after it. *)
Theorem fence_capture_sound (raw cap : jsstring) :
  Fence.find raw = Some cap ->
  contains_fenced raw cap /\ (List.length cap + 6 <= List.length raw)%nat.
Proof.
  intros F. apply FenceFacts.find_sound in F.
  split; [exact F|apply contains_fenced_length, F].
Qed.

Lemma fence_capture_sound_witness :
  Fence.find Samples.fenced_hi = Some Samples.hi_object /\
  contains_fenced Samples.fenced_hi Samples.hi_object /\
  (List.length Samples.hi_object + 6 <= List.length Samples.fenced_hi)%nat.
Proof.
  assert (F : Fence.find Samples.fenced_hi = Some Samples.hi_object)
    by (vm_compute; reflexivity).
  split; [exact F|].
  exact (@fence_capture_sound Samples.fenced_hi Samples.hi_object F).
Defined.

(** X6: the search is leftmost and shortest.  When no backtick stands
    before the first triple backtick and none inside the braces, the
    capture is the text from the opening brace to the first closing brace
    that white space and a triple backtick follow — whatever comes after,
    further braces and fences included. *)
Theorem fence_capture_first_block (pre tag ws1 body ws2 post : jsstring) :
  no_backtick pre ->
  tag = [] \/ tag = Fence.json_tag ->
  spaces ws1 -> no_backtick body -> spaces ws2 ->
  Fence.find (pre ++ Fence.fence ++ tag ++ ws1
                  ++ (Fence.lbrace :: body ++ [Fence.rbrace]) ++ ws2 ++ Fence.fence ++ post)
  = Some (Fence.lbrace :: body ++ [Fence.rbrace]).
Proof. intros. apply FenceFacts.find_complete; assumption. Qed.

(** The capture stops at the first closing fence, though a longer
    object text closes later. *)
Lemma fence_capture_first_block_witness :
  Fence.find (u16 "see " ++ Fence.fence ++ [] ++ nl
                ++ (Fence.lbrace :: u16 "a" ++ [Fence.rbrace]) ++ []
                ++ Fence.fence ++ u16 "}" ++ Fence.fence)
  = Some (Fence.lbrace :: u16 "a" ++ [Fence.rbrace]).
Proof.
  apply (@fence_capture_first_block (u16 "see ") [] nl (u16 "a") [] (u16 "}" ++ Fence.fence)).
  - apply no_backtick_dec. reflexivity.
  - left. reflexivity.
  - apply spaces_dec. reflexivity.
  - apply no_backtick_dec. reflexivity.
  - apply spaces_dec. reflexivity.
Defined.

(** ** More on the first revision *)

(** X7: in the first revision an object without [content] (or with
    [null] for it) makes the read of [.length] throw, and the post is the
    plain fallback: the reasoning the object may carry is lost. *)
Theorem normalize_v1_missing_content (pf raw : jsstring) (kvs : list (jsstring * value)) :
  JSON.parse raw = Some (VObj kvs) ->
  own_prop kvs k_content = None \/ own_prop kvs k_content = Some VNull ->
  normalize_v1 pf raw = fallback_post pf raw.
Proof.
  intros P H. unfold normalize_v1. rewrite P. cbn [get_prop].
  destruct H as [-> | ->]; reflexivity.
Qed.

Lemma normalize_v1_missing_content_witness :
  let raw := Samples.obj1 k_reasoning (u16 "why") in
  JSON.parse raw = Some (VObj [(k_reasoning, VStr (u16 "why"))]) /\
  normalize_v1 Samples.twitter raw = fallback_post Samples.twitter raw.
Proof.
  intros raw.
  assert (P : JSON.parse raw = Some (VObj [(k_reasoning, VStr (u16 "why"))]))
    by (vm_compute; reflexivity).
  split; [exact P|].
  exact (@normalize_v1_missing_content Samples.twitter raw _ P (or_introl eq_refl)).
Defined.

(** ** More on [generatePosts] *)

Lemma backdrop_emit_all (evs : list event) (st : AppState) :
  backdrop (emit_all evs st) = backdrop st /\
  generatedPosts (emit_all evs st) = generatedPosts st.
Proof.
  revert st; induction evs as [|e evs IH]; intros st; [split; reflexivity|].
  change (emit_all (e :: evs) st) with (emit_all evs (emit e st)).
  destruct (IH (emit e st)) as [-> ->]. split; reflexivity.
Qed.

Lemma generate_loop_state (env : Env) (wd : WebsiteData) (ids : list jsstring) :
  forall i posts st, exists evs, snd (generate_loop env wd i ids posts st) = emit_all evs st.
Proof.
  intros i posts st. destruct (generate_loop_calls env wd ids i posts st) as [n H].
  eauto.
Qed.

Lemma emit_all_then (evs1 evs2 : list event) (st : AppState) :
  emit_all evs2 (emit_all evs1 st) = emit_all (evs1 ++ evs2) st.
Proof. unfold emit_all. rewrite fold_left_app. reflexivity. Qed.

Lemma emit_all_setGeneratedPosts (posts : list GeneratedPost) (evs : list event) :
  forall st, setGeneratedPosts posts (emit_all evs st) = emit_all evs (setGeneratedPosts posts st).
Proof.
  induction evs as [|e evs IH]; intros st; [reflexivity|].
  change (emit_all (e :: evs) st) with (emit_all evs (emit e st)).
  rewrite IH. reflexivity.
Qed.

(** What a run leaves: the state it found with a longer log, and new
    posts or the old ones. *)
Lemma generatePosts_shape (env : Env) (s : AppState) :
  exists evs,
    (emitted env s = None /\ generatePosts env s = emit_all evs s) \/
    (exists posts, emitted env s = Some posts /\
                   generatePosts env s = emit_all evs (setGeneratedPosts posts s)).
Proof.
  unfold generatePosts, emitted.
  destruct (websiteData s) as [wd|];
    [|exists [ToastError (u16 "Please extract website data and select platforms first")];
      left; split; reflexivity].
  destruct (selectedPlatforms s) as [|id ids];
    [exists [ToastError (u16 "Please extract website data and select platforms first")];
     left; split; reflexivity|].
  destruct (generate_loop_state env wd (id :: ids) 0 [] s) as [evs E].
  destruct (generate_loop env wd 0 (id :: ids) [] s) as [[posts|] st1]; simpl in E; subst st1.
  - assert (C : forall evs2,
               emit (ToastSuccess (u16 "Launch posts generated successfully!"))
                    (emit_all evs2 (setGeneratedPosts posts (emit_all evs s)))
               = emit_all (evs ++ evs2
                             ++ [ToastSuccess (u16 "Launch posts generated successfully!")])
                          (setGeneratedPosts posts s)).
    { intros evs2. rewrite emit_all_setGeneratedPosts.
      change (emit ?e ?st) with (emit_all [e] st).
      rewrite !emit_all_then. reflexivity. }
    destruct (currentProject s) as [cp|], (user s) as [u|].
    + destruct (save_posts_events env cp u posts
                  (setGeneratedPosts posts (emit_all evs s))) as (evs2 & -> & _).
      eexists. right. exists posts. split; [reflexivity|apply C].
    + eexists. right. exists posts. split; [reflexivity|apply (C [])].
    + eexists. right. exists posts. split; [reflexivity|apply (C [])].
    + eexists. right. exists posts. split; [reflexivity|apply (C [])].
  - exists (evs ++ [ConsoleError (u16 "Error generating posts:");
                    ToastError (u16 "Failed to generate launch posts")]).
    left. split; [reflexivity|]. rewrite <- emit_all_then. reflexivity.
Qed.

(** X8: a run of [generatePosts], however it ends, touches nothing on
    the screen but the posts: user, projects, current project, URL box,
    page, selection and chat are what they were; the log only grows; and
    the posts are either the old ones or exactly the posts emitted. *)
Theorem generatePosts_frame (env : Env) (s : AppState) :
  backdrop (generatePosts env s) = backdrop s /\
  (exists evs, log (generatePosts env s) = log s ++ evs) /\
  generatedPosts (generatePosts env s)
  = match emitted env s with Some posts => posts | None => generatedPosts s end.
Proof.
  destruct (generatePosts_shape env s) as [evs [(-> & ->)|(posts & -> & ->)]].
  - destruct (backdrop_emit_all evs s) as [-> ->].
    split; [reflexivity|]. split; [|reflexivity].
    exists evs. apply emit_all_log.
  - destruct (backdrop_emit_all evs (setGeneratedPosts posts s)) as [-> ->].
    split; [reflexivity|]. split; [|reflexivity].
    exists evs. rewrite emit_all_log. reflexivity.
Qed.

Lemma db_count_emit (e : event) (st : AppState) :
  db_count (emit e st) = if is_db e then S (db_count st) else db_count st.
Proof.
  unfold db_count. rewrite log_emit, filter_app, length_app. simpl.
  destruct (is_db e); simpl; lia.
Qed.

Lemma db_count_calls (wd : WebsiteData) (ids : list jsstring) (st : AppState) :
  db_count (emit_all (calls wd ids) st) = db_count st.
Proof.
  revert st; induction ids as [|id ids IH]; intros st; [reflexivity|].
  change (emit_all (calls wd (id :: ids)) st)
    with (emit_all (calls wd ids) (emit (GenerateText (prompt_for wd id)) st)).
  rewrite IH, db_count_emit. reflexivity.
Qed.

Lemma posts_sent_app (l1 l2 : list event) :
  posts_sent (l1 ++ l2) = posts_sent l1 ++ posts_sent l2.
Proof. apply flat_map_app. Qed.

Lemma posts_sent_calls (wd : WebsiteData) (ids : list jsstring) :
  posts_sent (calls wd ids) = [].
Proof. induction ids as [|id ids IH]; [reflexivity|exact IH]. Qed.

(** Saving hands the posts to the store one by one and stops after the
    first request that fails. *)
Lemma save_posts_sent (env : Env) (cp : Project) (u : User) (posts : list GeneratedPost) :
  forall st k,
    (k <= List.length posts)%nat ->
    (forall j, (j < k)%nat -> db_ok env (db_count st + j) = true) ->
    ((k < List.length posts)%nat -> db_ok env (db_count st + k) = false) ->
    exists evs,
      save_posts env cp u posts st = emit_all evs st /\
      posts_sent evs = firstn (S k) posts.
Proof.
  induction posts as [|p posts IH]; intros st k K Ok Bad.
  - exists []. split; reflexivity.
  - cbn [save_posts]. destruct k as [|k].
    + rewrite Nat.add_0_r in Bad. rewrite Bad by (simpl; lia).
      eexists [_; _]. split; reflexivity.
    + pose proof (Ok 0%nat (Nat.lt_0_succ k)) as O. rewrite Nat.add_0_r in O. rewrite O.
      match goal with
      | |- context [save_posts env cp u posts ?st1] =>
          destruct (IH st1 k) as (evs & -> & S)
      end.
      * simpl in K. lia.
      * intros j J. rewrite db_count_emit. cbn [is_db]. rewrite Nat.add_succ_comm.
        apply Ok. lia.
      * intros J. rewrite db_count_emit. cbn [is_db]. rewrite Nat.add_succ_comm.
        apply Bad. simpl. lia.
      * eexists (_ :: evs). split; [reflexivity|].
        change (posts_sent (?e :: evs)) with (posts_sent [e] ++ posts_sent evs).
        rewrite S. reflexivity.
Qed.

(** X9: with a project and a user, a run that emits posts hands them to
    the store in order, one request each, and stops after the first
    request that fails — the posts after it are never sent.  Whatever the
    store does, the posts on the screen are the posts emitted and the run
    ends with the notice of success. *)
Theorem generatePosts_saves_until_failure
        (env : Env) (s : AppState) (posts : list GeneratedPost)
        (cp : Project) (u : User) (k : nat) :
  emitted env s = Some posts ->
  currentProject s = Some cp ->
  user s = Some u ->
  (k <= List.length posts)%nat ->
  (forall j, (j < k)%nat -> db_ok env (db_count s + j) = true) ->
  ((k < List.length posts)%nat -> db_ok env (db_count s + k) = false) ->
  posts_sent (log (generatePosts env s)) = posts_sent (log s) ++ firstn (S k) posts /\
  generatedPosts (generatePosts env s) = posts /\
  last (log (generatePosts env s)) (Scrape [])
  = ToastSuccess (u16 "Launch posts generated successfully!").
Proof.
  intros E CP U K Ok Bad.
  unfold emitted in E. unfold generatePosts. rewrite CP, U.
  destruct (websiteData s) as [wd|]; [|discriminate].
  destruct (selectedPlatforms s) as [|id ids]; [discriminate|].
  destruct (generate_loop env wd 0 (id :: ids) [] s) as [[out|] st1] eqn:L; [|discriminate].
  simpl in E. injection E as ->.
  apply generate_loop_some in L as (texts & _ & _ & ->).
  set (st2 := setGeneratedPosts posts (emit_all (calls wd (id :: ids)) s)).
  assert (D : db_count st2 = db_count s) by apply db_count_calls.
  destruct (@save_posts_sent env cp u posts st2 k K) as (evs & -> & S).
  { intros j J. rewrite D. apply Ok, J. }
  { intros J. rewrite D. apply Bad, J. }
  split; [|split].
  - rewrite log_emit, emit_all_log. subst st2.
    change (log (setGeneratedPosts posts ?st)) with (log st).
    rewrite emit_all_log, !posts_sent_app, posts_sent_calls, S.
    change (posts_sent [ToastSuccess (u16 "Launch posts generated successfully!")])
      with (@nil GeneratedPost).
    rewrite !app_nil_r. reflexivity.
  - change (generatedPosts (emit_all evs st2) = posts).
    rewrite (proj2 (backdrop_emit_all evs st2)). reflexivity.
  - rewrite log_emit. apply last_last.
Qed.

(** Three posts, the second write refused: two requests, three posts on
    the screen. *)
Lemma generatePosts_saves_until_failure_witness :
  let env :=
    {| scrape := fun _ => None;
       generateText := fun _ _ => Some Samples.plain;
       db_ok := fun n => negb (Nat.eqb n 1);
       locale_date := []; iso_now := []; fresh := fun _ => [] |} in
  let ids := [Samples.producthunt; Samples.twitter; Samples.linkedin] in
  let cp := {| pr_id := u16 "p1"; pr_userId := u16 "u1"; pr_name := u16 "P";
               pr_websiteUrl := None; pr_websiteTitle := None;
               pr_websiteDescription := None; pr_websiteContent := None;
               pr_websiteMetadata := None; pr_selectedPlatforms := None;
               pr_createdAt := []; pr_updatedAt := [] |} in
  let s :=
    {| user := Some {| user_id := u16 "u1" |}; projects := [cp]; currentProject := Some cp;
       websiteUrl := []; websiteData := Some Samples.acme_page;
       selectedPlatforms := ids; generatedPosts := []; chatMessages := []; log := [] |} in
  let posts := List.map (fun id => fallback_post id Samples.plain) ids in
  posts_sent (log (generatePosts env s)) = [] ++ firstn 2 posts /\
  generatedPosts (generatePosts env s) = posts /\
  last (log (generatePosts env s)) (Scrape [])
  = ToastSuccess (u16 "Launch posts generated successfully!").
Proof.
  intros env ids cp s posts.
  apply (@generatePosts_saves_until_failure env s posts cp {| user_id := u16 "u1" |} 1%nat).
  - vm_compute. reflexivity.
  - reflexivity.
  - reflexivity.
  - simpl. lia.
  - intros j J. assert (j = 0%nat) as -> by lia. reflexivity.
  - intros _. reflexivity.
Defined.

(** X10: the prompt reads the page content only up to 2000 code units:
    it is the prompt of the page cut there, and its length is that of the
    prompt of an empty page plus the lengths of title, description and
    URL and at most 2000 for the content. *)
Theorem prompt_reads_2000 (info : option Platform) (wd : WebsiteData) :
  build_prompt info wd
  = build_prompt info {| wd_url := wd_url wd; wd_title := wd_title wd;
                         wd_description := wd_description wd;
                         wd_content := firstn 2000 (wd_content wd);
                         wd_metadata := wd_metadata wd |} /\
  List.length (build_prompt info wd)
  = (List.length (build_prompt info (bare_page (wd_metadata wd) []))
     + List.length (wd_title wd) + List.length (wd_description wd)
     + List.length (wd_url wd) + Nat.min 2000 (List.length (wd_content wd)))%nat.
Proof.
  split.
  - unfold build_prompt, substring0. cbn [wd_url wd_title wd_description wd_content].
    rewrite firstn_firstn, Nat.min_id. reflexivity.
  - unfold build_prompt, substring0, bare_page.
    cbn [wd_url wd_title wd_description wd_content].
    rewrite firstn_nil, !length_app, length_firstn.
    generalize (Nat.min 2000 (List.length (wd_content wd))) as m.
    generalize (List.length (name_text info)) as a.
    generalize (List.length (limit_text info)) as b.
    intros b a m. simpl. lia.
Qed.

(** ** More on [togglePlatform] *)

Lemma NoDup_snoc (p : jsstring) (l : list jsstring) :
  NoDup l -> ~ In p l -> NoDup (l ++ [p]).
Proof.
  induction 1 as [|x l Hx Hl IH]; intros N; simpl.
  - constructor; [intros []|constructor].
  - constructor.
    + rewrite in_app_iff. simpl. intros [H|[H|[]]]; [contradiction|].
      apply N. left. congruence.
    + apply IH. intros H. apply N. right. exact H.
Qed.

(** X11: toggling keeps the selection clean.  A selection without
    repeated ids stays without repeated ids; and when every selected id
    names a platform of the registry and the toggled id does too, every
    id of the new selection names one. *)
Theorem togglePlatform_keeps_selection_clean (env : Env) (p : jsstring) (s : AppState) :
  (NoDup (selectedPlatforms s) -> NoDup (selectedPlatforms (togglePlatform env p s))) /\
  ((forall q, In q (selectedPlatforms s) -> find_platform q <> None) ->
   find_platform p <> None ->
   forall q, In q (selectedPlatforms (togglePlatform env p s)) -> find_platform q <> None).
Proof.
  rewrite togglePlatform_selection. split.
  - intros N. unfold toggle. destruct (existsb (str_eqb p) (selectedPlatforms s)) eqn:E.
    + apply NoDup_filter, N.
    + apply NoDup_snoc; [exact N|]. rewrite <- existsb_str_eqb, E. discriminate.
  - intros A P q I. rewrite in_toggle in I.
    destruct (str_eqb_spec q p) as [Q|_]; [rewrite Q; exact P|apply A, I].
Qed.

Lemma togglePlatform_keeps_selection_clean_witness :
  let env := Samples.services Samples.plain [] in
  let s := Samples.screen [Samples.producthunt; Samples.linkedin] in
  NoDup (selectedPlatforms s) /\
  NoDup (selectedPlatforms (togglePlatform env Samples.twitter s)) /\
  forall q, In q (selectedPlatforms (togglePlatform env Samples.twitter s)) ->
            find_platform q <> None.
Proof.
  intros env s.
  assert (N : NoDup (selectedPlatforms s)).
  { repeat constructor; simpl; intros H; repeat destruct H as [H|H]; try discriminate H;
      exact H. }
  assert (A : forall q, In q (selectedPlatforms s) -> find_platform q <> None).
  { intros q [<-|[<-|[]]]; discriminate. }
  assert (P : find_platform Samples.twitter <> None) by discriminate.
  split; [exact N|]. split.
  - exact (proj1 (@togglePlatform_keeps_selection_clean env Samples.twitter s) N).
  - exact (proj2 (@togglePlatform_keeps_selection_clean env Samples.twitter s) A P).
Defined.

(** X12: toggling twice a platform that is selected does not give the
    list back: the platform ends up last, behind the others in their old
    order — and so it is generated last. *)
Theorem toggle_twice_selected (env env' : Env) (p : jsstring) (s : AppState) :
  In p (selectedPlatforms s) ->
  selectedPlatforms (togglePlatform env' p (togglePlatform env p s))
  = List.filter (fun id => negb (str_eqb id p)) (selectedPlatforms s) ++ [p].
Proof.
  intros I. rewrite !togglePlatform_selection.
  set (l := selectedPlatforms s) in *.
  assert (E : existsb (str_eqb p) l = true) by (apply existsb_str_eqb, I).
  unfold toggle at 2. rewrite E. unfold toggle.
  assert (E' : existsb (str_eqb p) (List.filter (fun id => negb (str_eqb id p)) l) = false).
  { destruct (existsb (str_eqb p) (List.filter (fun id => negb (str_eqb id p)) l)) eqn:X;
      [|reflexivity].
    apply existsb_str_eqb, in_without in X. tauto. }
  rewrite E'. reflexivity.
Qed.

Lemma toggle_twice_selected_witness :
  let env := Samples.services Samples.plain [] in
  let s := Samples.screen [Samples.producthunt; Samples.linkedin] in
  In Samples.producthunt (selectedPlatforms s) /\
  selectedPlatforms (togglePlatform env Samples.producthunt
                                    (togglePlatform env Samples.producthunt s))
  = [Samples.linkedin; Samples.producthunt].
Proof.
  intros env s.
  assert (I : In Samples.producthunt (selectedPlatforms s)) by (left; reflexivity).
  split; [exact I|].
  exact (@toggle_twice_selected env env Samples.producthunt s I).
Defined.

Lemma project_updates_app (l1 l2 : list event) :
  project_updates (l1 ++ l2) = project_updates l1 ++ project_updates l2.
Proof. apply flat_map_app. Qed.

(** X13: with a project and a user, a toggle sends the store one update,
    for the current project, carrying the new selection.  When the store
    accepts, the current project holds the selection of the screen; when
    it refuses, the selection of the screen has changed all the same and
    the projects are as before. *)
Theorem togglePlatform_saves_selection (env : Env) (p : jsstring) (s : AppState)
        (cp : Project) (u : User) :
  currentProject s = Some cp ->
  user s = Some u ->
  let s' := togglePlatform env p s in
  project_updates (log s')
  = project_updates (log s)
      ++ [(pr_id cp, PatchPlatforms (selectedPlatforms s') (iso_now env))] /\
  (db_ok env (db_count s) = true ->
   option_map pr_selectedPlatforms (currentProject s') = Some (Some (selectedPlatforms s')) /\
   option_map pr_id (currentProject s') = Some (pr_id cp)) /\
  (db_ok env (db_count s) = false ->
   currentProject s' = Some cp /\ projects s' = projects s).
Proof.
  intros CP U s'. subst s'. rewrite togglePlatform_selection.
  unfold togglePlatform. rewrite CP, U.
  change (db_count (setSelectedPlatforms (toggle p (selectedPlatforms s)) s))
    with (db_count s).
  destruct (db_ok env (db_count s)).
  - split; [|split; [|discriminate]].
    + cbn [log patchProject emit setSelectedPlatforms].
      rewrite project_updates_app. reflexivity.
    + intros _. cbn [currentProject patchProject emit setSelectedPlatforms].
      rewrite CP. split; reflexivity.
  - split; [|split; [discriminate|]].
    + cbn [log emit setSelectedPlatforms].
      rewrite !project_updates_app. simpl. rewrite app_nil_r. reflexivity.
    + intros _. cbn [currentProject projects emit setSelectedPlatforms]. auto.
Qed.

Lemma togglePlatform_saves_selection_witness :
  let env := Samples.services Samples.plain [] in
  let cp := {| pr_id := u16 "p1"; pr_userId := u16 "u1"; pr_name := u16 "P";
               pr_websiteUrl := None; pr_websiteTitle := None;
               pr_websiteDescription := None; pr_websiteContent := None;
               pr_websiteMetadata := None; pr_selectedPlatforms := None;
               pr_createdAt := []; pr_updatedAt := [] |} in
  let s :=
    {| user := Some {| user_id := u16 "u1" |}; projects := [cp]; currentProject := Some cp;
       websiteUrl := []; websiteData := None;
       selectedPlatforms := [Samples.producthunt]; generatedPosts := [];
       chatMessages := []; log := [] |} in
  option_map pr_selectedPlatforms (currentProject (togglePlatform env Samples.twitter s))
  = Some (Some [Samples.producthunt; Samples.twitter]).
Proof.
  intros env cp s.
  exact (proj1 (proj1 (proj2 (@togglePlatform_saves_selection env Samples.twitter s cp
                                 {| user_id := u16 "u1" |} eq_refl eq_refl)) eq_refl)).
Defined.

(** ** More on [extractWebsiteData] *)

Lemma scrapes_app (l1 l2 : list event) : scrapes (l1 ++ l2) = scrapes l1 ++ scrapes l2.
Proof. apply flat_map_app. Qed.

(** What [createNewProject] does to the log: one request to the store
    and one notice (and a console line when the store refuses). *)
Lemma createNewProject_log (env : Env) (s : AppState) :
  exists evs, log (createNewProject env s s) = log s ++ evs /\
              scrapes evs = [] /\ project_updates evs = [].
Proof.
  unfold createNewProject. destruct (user s) as [u|].
  - destruct (db_ok env (db_count s)).
    + eexists [_; _]. split; [cbn [log emit]; rewrite <- app_assoc; reflexivity|].
      split; reflexivity.
    + eexists [_; _; _]. split; [cbn [log emit]; rewrite <- !app_assoc; reflexivity|].
      split; reflexivity.
  - exists []. split; [symmetry; apply app_nil_r|]. split; reflexivity.
Qed.

(** X14: [extractWebsiteData] calls the scraper at most once: not at all
    when the URL box holds nothing but white space, and else exactly once,
    with the URL of the box — whether or not a project is created on the
    way, and whatever the store and the scraper answer. *)
Theorem extract_scrapes_once (env : Env) (s : AppState) :
  scrapes (log (extractWebsiteData env s))
  = scrapes (log s) ++ (if blank (websiteUrl s) then [] else [websiteUrl s]).
Proof.
  unfold extractWebsiteData. destruct (blank (websiteUrl s)).
  - rewrite log_emit, scrapes_app. reflexivity.
  - set (st1 := match currentProject s, user s with
                | None, Some _ => createNewProject env s s
                | _, _ => s
                end).
    assert (L1 : exists evs, log st1 = log s ++ evs /\ scrapes evs = []).
    { subst st1. destruct (currentProject s), (user s);
        try (exists []; split; [symmetry; apply app_nil_r|reflexivity]).
      destruct (createNewProject_log env s) as (evs & L & S & _). eauto. }
    destruct L1 as (evs & L1 & S1).
    destruct (scrape env (websiteUrl s)) as [res|].
    + destruct (currentProject s) as [cp|], (user s) as [u|];
        try destruct (db_ok env _);
        cbn [log emit setWebsiteData patchProject];
        rewrite L1, !scrapes_app, S1; simpl; rewrite ?app_nil_r; reflexivity.
    + cbn [log emit]. rewrite L1, !scrapes_app, S1. simpl. rewrite ?app_nil_r. reflexivity.
Qed.

(** X15: when the scraper answers, the page on the screen is the page
    scraped, under the URL that was typed, its title never empty
    ([Untitled] stands in for a missing or empty one) — whatever the
    store does with the project — and the handler ends with the notice of
    success. *)
Theorem extract_success_page (env : Env) (s : AppState) (res : ScrapeResult) :
  blank (websiteUrl s) = false ->
  scrape env (websiteUrl s) = Some res ->
  websiteData (extractWebsiteData env s)
  = Some {| wd_url := websiteUrl s;
            wd_title := str_or (meta_title (metadata res)) (u16 "Untitled");
            wd_description := str_or (meta_description (metadata res)) [];
            wd_content := markdown res;
            wd_metadata := metadata res |} /\
  str_or (meta_title (metadata res)) (u16 "Untitled") <> [] /\
  last (log (extractWebsiteData env s)) (Scrape [])
  = ToastSuccess (u16 "Website content extracted successfully!").
Proof.
  intros B S. unfold extractWebsiteData. rewrite B, S.
  split; [|split].
  - destruct (currentProject s) as [cp|], (user s) as [u|];
      try destruct (db_ok env _); reflexivity.
  - destruct (meta_title (metadata res)) as [[|c t]|]; discriminate.
  - rewrite log_emit. apply last_last.
Qed.

Lemma extract_success_page_witness :
  let env :=
    {| scrape := fun _ => Some {| markdown := u16 "# Acme";
                                  metadata := {| meta_title := Some [];
                                                 meta_description := None |} |};
       generateText := fun _ _ => None;
       db_ok := fun _ => false;
       locale_date := []; iso_now := []; fresh := fun _ => [] |} in
  let s := Samples.signed_in [Samples.producthunt] in
  websiteData (extractWebsiteData env s)
  = Some {| wd_url := u16 "https://acme.io";
            wd_title := u16 "Untitled";
            wd_description := [];
            wd_content := u16 "# Acme";
            wd_metadata := {| meta_title := Some []; meta_description := None |} |}.
Proof.
  intros env s.
  exact (proj1 (@extract_success_page env s _ eq_refl eq_refl)).
Defined.

(** X16: the first extraction of a signed-in user who has no project.
    The handler creates a project, which resets the screen, and then
    scrapes with the URL it was started with.  In the end the page is on
    the screen, but the URL box is empty, the selection is back to
    [producthunt], posts and chat are cleared — and the page was not
    saved into the new project: no update went to the store, and the
    current project has no website. *)
Theorem extract_first_time (env : Env) (s : AppState) (u : User) (res : ScrapeResult) :
  blank (websiteUrl s) = false ->
  currentProject s = None ->
  user s = Some u ->
  db_ok env (db_count s) = true ->
  scrape env (websiteUrl s) = Some res ->
  let s' := extractWebsiteData env s in
  option_map wd_url (websiteData s') = Some (websiteUrl s) /\
  websiteUrl s' = [] /\
  selectedPlatforms s' = [u16 "producthunt"] /\
  generatedPosts s' = [] /\
  chatMessages s' = [] /\
  project_updates (log s') = project_updates (log s) /\
  exists np, currentProject s' = Some np /\
             projects s' = np :: projects s /\
             pr_userId np = user_id u /\
             pr_websiteUrl np = None.
Proof.
  intros B CP U D S s'. subst s'.
  unfold extractWebsiteData. rewrite B, S, CP, U.
  unfold createNewProject. rewrite U, D.
  repeat split.
  - cbn [log emit setWebsiteData]. rewrite !project_updates_app. simpl.
    rewrite !app_nil_r. reflexivity.
  - eexists. repeat split.
Qed.

Lemma extract_first_time_witness :
  let env :=
    {| scrape := fun _ => Some {| markdown := u16 "# Acme";
                                  metadata := Samples.acme_meta |};
       generateText := fun _ _ => None;
       db_ok := fun _ => true;
       locale_date := []; iso_now := []; fresh := fun _ => [] |} in
  let s := Samples.signed_in [Samples.twitter; Samples.linkedin] in
  let s' := extractWebsiteData env s in
  option_map wd_url (websiteData s') = Some (u16 "https://acme.io") /\
  websiteUrl s' = [] /\
  selectedPlatforms s' = [u16 "producthunt"] /\
  generatedPosts s' = [] /\
  chatMessages s' = [] /\
  project_updates (log s') = project_updates (log s) /\
  exists np, currentProject s' = Some np /\
             projects s' = np :: projects s /\
             pr_userId np = u16 "u1" /\
             pr_websiteUrl np = None.
Proof.
  intros env s.
  exact (@extract_first_time env s {| user_id := u16 "u1" |} _
           eq_refl eq_refl eq_refl eq_refl eq_refl).
Defined.

(** ** [sendChatMessage] *)

Lemma trail_calls_app (t1 t2 : list action) :
  trail_calls (t1 ++ t2) = trail_calls t1 ++ trail_calls t2.
Proof. apply flat_map_app. Qed.

Lemma messages_sent_app (t1 t2 : list action) :
  messages_sent (t1 ++ t2) = messages_sent t1 ++ messages_sent t2.
Proof. apply flat_map_app. Qed.

Ltac chat_cases b z :=
  unfold sendChatMessage, chat_failed;
  destruct (blank (chatInput z));
  [|destruct (websiteData (view z)) as [wd|];
    [destruct (chat_context (number_text b) wd (generatedPosts (view z))) as [ctx|];
     [destruct (generateText (base b) 0 (chat_prompt ctx (chatInput z))) as [text|];
      [destruct (currentProject (view z)) as [cp|], (user (view z)) as [u|];
       [destruct (db_ok (base b) _); [destruct (db_ok (base b) _)|]| | |]|]|]|]].

(** X17: [sendChatMessage] touches nothing on the screen but the chat:
    the view it leaves is the view it found with other messages.  With an
    input of nothing but white space, or without a page, it does nothing
    at all, and says nothing. *)
Theorem sendChatMessage_frame (b : Backend) (z : Session) :
  view (sendChatMessage b z)
  = setChatMessages (chatMessages (view (sendChatMessage b z))) (view z) /\
  (blank (chatInput z) = true \/ websiteData (view z) = None -> sendChatMessage b z = z).
Proof.
  split.
  - chat_cases b z; cbn [view act on_app chatMessages setChatMessages];
      destruct (view z); reflexivity.
  - intros [B|W]; unfold sendChatMessage.
    + rewrite B. reflexivity.
    + rewrite W. destruct (blank (chatInput z)); reflexivity.
Qed.

Lemma sendChatMessage_frame_witness :
  let b := {| base := Samples.services Samples.plain [];
              list_projects := fun _ => None; list_posts := fun _ => None;
              list_messages := fun _ => None; number_text := fun _ => [] |} in
  let z := {| view := Samples.screen []; chatInput := u16 "  "; trail := [] |} in
  sendChatMessage b z = z.
Proof.
  intros b z.
  exact (proj2 (@sendChatMessage_frame b z) (or_introl eq_refl)).
Defined.

(** X18: when the message is not blank, a page is there and the text
    service answers, the transcript grows by the message of the user and
    then the answer, in this order; the input box is emptied; and the
    service has been called once, with a prompt that carries the message
    and the posts of the screen. *)
Theorem sendChatMessage_answered (b : Backend) (z : Session)
        (wd : WebsiteData) (ctx text : jsstring) :
  blank (chatInput z) = false ->
  websiteData (view z) = Some wd ->
  chat_context (number_text b) wd (generatedPosts (view z)) = Some ctx ->
  generateText (base b) 0 (chat_prompt ctx (chatInput z)) = Some text ->
  chatMessages (view (sendChatMessage b z))
  = chatMessages (view z)
      ++ [ {| role := RUser; msg_content := chatInput z |};
           {| role := RAssistant; msg_content := text |} ] /\
  chatInput (sendChatMessage b z) = [] /\
  trail_calls (trail (sendChatMessage b z))
  = trail_calls (trail z) ++ [chat_prompt ctx (chatInput z)].
Proof.
  intros B W C G. unfold sendChatMessage. rewrite B, W, C, G.
  destruct (currentProject (view z)) as [cp|], (user (view z)) as [u|];
    try (destruct (db_ok (base b) _); [destruct (db_ok (base b) _)|]);
    cbn [view act on_app chatMessages setChatMessages chatInput trail];
    rewrite <- ?app_assoc, ?trail_calls_app; simpl; rewrite ?app_nil_r; auto.
Qed.

Lemma sendChatMessage_answered_witness :
  let b := {| base := Samples.services Samples.plain [];
              list_projects := fun _ => None; list_posts := fun _ => None;
              list_messages := fun _ => None; number_text := fun _ => [] |} in
  let z := {| view := Samples.screen []; chatInput := u16 "shorter?"; trail := [] |} in
  chatMessages (view (sendChatMessage b z))
  = [ {| role := RUser; msg_content := u16 "shorter?" |};
      {| role := RAssistant; msg_content := Samples.plain |} ].
Proof.
  intros b z.
  exact (proj1 (@sendChatMessage_answered b z Samples.acme_page _ Samples.plain
                  eq_refl eq_refl eq_refl eq_refl)).
Defined.

(** X19: when the text service rejects (or the context cannot be
    written), the message of the user stays in the transcript without an
    answer, the input box is emptied all the same, nothing goes to the
    store, and the handler ends with its error notice. *)
Theorem sendChatMessage_failed (b : Backend) (z : Session) (wd : WebsiteData) :
  blank (chatInput z) = false ->
  websiteData (view z) = Some wd ->
  match chat_context (number_text b) wd (generatedPosts (view z)) with
  | None => True
  | Some ctx => generateText (base b) 0 (chat_prompt ctx (chatInput z)) = None
  end ->
  chatMessages (view (sendChatMessage b z))
  = chatMessages (view z) ++ [ {| role := RUser; msg_content := chatInput z |} ] /\
  chatInput (sendChatMessage b z) = [] /\
  messages_sent (trail (sendChatMessage b z)) = messages_sent (trail z) /\
  last (trail (sendChatMessage b z)) (DbListProjects [])
  = Did (ToastError (u16 "Failed to get AI response")).
Proof.
  intros B W F. unfold sendChatMessage, chat_failed. rewrite B, W.
  destruct (chat_context (number_text b) wd (generatedPosts (view z))) as [ctx|];
    [rewrite F|];
    cbn [view act on_app chatMessages setChatMessages chatInput trail];
    rewrite ?messages_sent_app; simpl; rewrite ?app_nil_r;
    repeat split; apply last_last.
Qed.

Lemma sendChatMessage_failed_witness :
  let b := {| base := Samples.services Samples.plain [0%nat];
              list_projects := fun _ => None; list_posts := fun _ => None;
              list_messages := fun _ => None; number_text := fun _ => [] |} in
  let z := {| view := Samples.screen []; chatInput := u16 "shorter?"; trail := [] |} in
  chatMessages (view (sendChatMessage b z))
  = [ {| role := RUser; msg_content := u16 "shorter?" |} ] /\
  chatInput (sendChatMessage b z) = [].
Proof.
  intros b z.
  destruct (@sendChatMessage_failed b z Samples.acme_page eq_refl eq_refl eq_refl)
    as (H1 & H2 & _).
  exact (conj H1 H2).
Defined.

(** X20: with a project and a user, an answered message is followed by
    two writes at most: the message of the user first, and the answer
    only if that first write was accepted.  The transcript does not
    depend on what the store does. *)
Theorem sendChatMessage_saves (b : Backend) (z : Session)
        (wd : WebsiteData) (ctx text : jsstring) (cp : Project) (u : User) :
  blank (chatInput z) = false ->
  websiteData (view z) = Some wd ->
  chat_context (number_text b) wd (generatedPosts (view z)) = Some ctx ->
  generateText (base b) 0 (chat_prompt ctx (chatInput z)) = Some text ->
  currentProject (view z) = Some cp ->
  user (view z) = Some u ->
  messages_sent (trail (sendChatMessage b z))
  = messages_sent (trail z)
      ++ {| role := RUser; msg_content := chatInput z |}
      :: (if db_ok (base b) (writes z)
          then [ {| role := RAssistant; msg_content := text |} ] else []).
Proof.
  intros B W C G CP U. unfold sendChatMessage. rewrite B, W, C, G, CP, U.
  unfold writes. cbn [trail act on_app].
  rewrite !filter_app, !length_app. cbn [List.filter is_write is_db List.length].
  rewrite !Nat.add_0_r.
  destruct (db_ok (base b) (List.length (List.filter is_write (trail z)))).
  - match goal with
    | |- context [if db_ok (base b) ?n then _ else _] => destruct (db_ok (base b) n)
    end;
      cbn [trail act on_app]; rewrite !messages_sent_app; simpl;
      rewrite <- ?app_assoc, ?app_nil_r; reflexivity.
  - cbn [trail act on_app]. rewrite !messages_sent_app. simpl.
    rewrite <- ?app_assoc, ?app_nil_r. reflexivity.
Qed.

Lemma sendChatMessage_saves_witness :
  let env := {| scrape := fun _ => None;
                generateText := fun _ _ => Some Samples.plain;
                db_ok := fun n => Nat.eqb n 0;
                locale_date := []; iso_now := []; fresh := fun _ => [] |} in
  let b := {| base := env;
              list_projects := fun _ => None; list_posts := fun _ => None;
              list_messages := fun _ => None; number_text := fun _ => [] |} in
  let cp := {| pr_id := u16 "p1"; pr_userId := u16 "u1"; pr_name := u16 "P";
               pr_websiteUrl := None; pr_websiteTitle := None;
               pr_websiteDescription := None; pr_websiteContent := None;
               pr_websiteMetadata := None; pr_selectedPlatforms := None;
               pr_createdAt := []; pr_updatedAt := [] |} in
  let s :=
    {| user := Some {| user_id := u16 "u1" |}; projects := [cp]; currentProject := Some cp;
       websiteUrl := []; websiteData := Some Samples.acme_page;
       selectedPlatforms := []; generatedPosts := [];
       chatMessages := []; log := [] |} in
  let z := {| view := s; chatInput := u16 "shorter?"; trail := [] |} in
  messages_sent (trail (sendChatMessage b z))
  = [ {| role := RUser; msg_content := u16 "shorter?" |};
      {| role := RAssistant; msg_content := Samples.plain |} ].
Proof.
  intros env b cp s z.
  exact (@sendChatMessage_saves b z Samples.acme_page _ Samples.plain cp
           {| user_id := u16 "u1" |} eq_refl eq_refl eq_refl eq_refl eq_refl eq_refl).
Defined.

(** ** Projects *)

(** The page of a saved project is the page that was saved. *)
Lemma project_page_saved (f : SavedFields) (p : Project) (wd : WebsiteData) :
  sf_page f = Some wd -> wd_url wd <> [] ->
  project_page (apply_saved f p) = Page wd.
Proof.
  intros P U. unfold project_page, apply_saved. cbn. rewrite P. cbn.
  destruct wd as [url title descr cont meta]. cbn in *.
  destruct url as [|c r]; [contradiction|].
  destruct title, descr, cont; reflexivity.
Qed.

(** What [loadProject] leaves on the screen when it does not throw. *)
Lemma loadProject_view (b : Backend) (project : Project) (z : Session) :
  (forall url, project_page project <> Unreadable url) ->
  let z' := loadProject b project z in
  currentProject (view z') = Some project /\
  websiteData (view z')
  = match project_page project with Page page => Some page | _ => websiteData (view z) end /\
  websiteUrl (view z')
  = match project_page project with Page page => wd_url page | _ => websiteUrl (view z) end /\
  selectedPlatforms (view z')
  = match pr_selectedPlatforms project with
    | Some ids => ids | None => selectedPlatforms (view z) end /\
  generatedPosts (view z')
  = match list_posts b (pr_id project) with
    | Some posts => List.map of_stored_post posts | None => generatedPosts (view z) end /\
  chatMessages (view z')
  = match list_messages b (pr_id project) with
    | Some ms => List.map of_stored_message ms | None => chatMessages (view z) end /\
  projects (view z') = projects (view z) /\
  user (view z') = user (view z) /\
  last (trail z') (DbListProjects [])
  = Did (ToastSuccess (u16 "Loaded project: " ++ pr_name project)).
Proof.
  intros R. unfold loadProject, loadProject_finish, loadProject_begin.
  destruct (project_page project) as [|page|url]; [| |destruct (R url eq_refl)];
    destruct (pr_selectedPlatforms project),
      (list_posts b (pr_id project)), (list_messages b (pr_id project));
    cbn [view trail act on_app]; repeat split; apply last_last.
Qed.

(** And when it throws: the project is current, the URL box is set, and
    that is all. *)
Lemma loadProject_thrown (b : Backend) (project : Project) (z : Session) (url : jsstring) :
  project_page project = Unreadable url ->
  loadProject b project z
  = on_app (fun st => setWebsiteUrl url (setCurrentProject (Some project) st)) z.
Proof.
  intros E. unfold loadProject, loadProject_finish, loadProject_begin. rewrite E.
  reflexivity.
Qed.

(** The parse throws exactly on a project with a truthy URL and a
    truthy metadata text that is no JSON. *)
Lemma project_page_unreadable (p : Project) (url : jsstring) :
  project_page p = Unreadable url <->
  url <> [] /\ pr_websiteUrl p = Some url /\
  exists t, t <> [] /\ pr_websiteMetadata p = Some (OtherText t) /\ JSON.parse t = None.
Proof.
  unfold project_page, read_metadata. split.
  - destruct (pr_websiteUrl p) as [[|c r]|]; try discriminate.
    destruct (pr_websiteMetadata p) as [[m|[|d t]]|]; try discriminate.
    destruct (JSON.parse (d :: t)) eqn:J; [discriminate|].
    intros [= <-]. split; [discriminate|]. split; [reflexivity|].
    exists (d :: t). split; [discriminate|]. split; [reflexivity|exact J].
  - intros (N & -> & t & Nt & -> & J).
    destruct url as [|c r]; [contradiction|]. destruct t as [|d t]; [contradiction|].
    rewrite J. reflexivity.
Qed.

(** X21: saving and loading are a round trip for page and selection.
    After an accepted [saveProject] with a page whose URL is not empty,
    loading the project that is now current — from whatever screen —
    puts back that very page, its URL in the box, and the selection that
    was saved. *)
Theorem saveProject_then_loadProject (b : Backend) (z : Session)
        (u : User) (cp : Project) (wd : WebsiteData) :
  user (view z) = Some u ->
  currentProject (view z) = Some cp ->
  db_ok (base b) (writes z) = true ->
  websiteData (view z) = Some wd ->
  wd_url wd <> [] ->
  exists cp',
    currentProject (view (saveProject b z)) = Some cp' /\
    pr_id cp' = pr_id cp /\
    forall b' z',
      websiteData (view (loadProject b' cp' z')) = Some wd /\
      websiteUrl (view (loadProject b' cp' z')) = wd_url wd /\
      selectedPlatforms (view (loadProject b' cp' z')) = selectedPlatforms (view z) /\
      currentProject (view (loadProject b' cp' z')) = Some cp'.
Proof.
  intros U CP D W N.
  set (f := {| sf_name := pr_name cp; sf_page := websiteData (view z);
               sf_selectedPlatforms := selectedPlatforms (view z);
               sf_updatedAt := iso_now (base b) |}).
  exists (apply_saved f cp). split; [|split].
  - unfold saveProject. rewrite U, CP, D. cbn [view act on_app currentProject save_local].
    rewrite CP. reflexivity.
  - reflexivity.
  - intros b' z'.
    assert (PP : project_page (apply_saved f cp) = Page wd)
      by (apply project_page_saved; [exact W|exact N]).
    destruct (@loadProject_view b' (apply_saved f cp) z') as (C & P & Ur & S & _).
    { intros url. rewrite PP. discriminate. }
    rewrite PP in P, Ur. repeat split; assumption.
Qed.

Lemma saveProject_then_loadProject_witness :
  let b := {| base := Samples.services Samples.plain [];
              list_projects := fun _ => None; list_posts := fun _ => None;
              list_messages := fun _ => None; number_text := fun _ => [] |} in
  let cp := {| pr_id := u16 "p1"; pr_userId := u16 "u1"; pr_name := u16 "P";
               pr_websiteUrl := None; pr_websiteTitle := None;
               pr_websiteDescription := None; pr_websiteContent := None;
               pr_websiteMetadata := None; pr_selectedPlatforms := None;
               pr_createdAt := []; pr_updatedAt := [] |} in
  let s :=
    {| user := Some {| user_id := u16 "u1" |}; projects := [cp]; currentProject := Some cp;
       websiteUrl := []; websiteData := Some Samples.acme_page;
       selectedPlatforms := [Samples.twitter]; generatedPosts := [];
       chatMessages := []; log := [] |} in
  let z := {| view := s; chatInput := []; trail := [] |} in
  exists cp',
    currentProject (view (saveProject b z)) = Some cp' /\
    pr_id cp' = u16 "p1" /\
    forall b' z',
      websiteData (view (loadProject b' cp' z')) = Some Samples.acme_page /\
      websiteUrl (view (loadProject b' cp' z')) = u16 "https://acme.io" /\
      selectedPlatforms (view (loadProject b' cp' z')) = [Samples.twitter] /\
      currentProject (view (loadProject b' cp' z')) = Some cp'.
Proof.
  intros b cp s z.
  apply (@saveProject_then_loadProject b z {| user_id := u16 "u1" |} cp Samples.acme_page);
    try reflexivity.
  discriminate.
Defined.

(** X22: [loadProject] replaces only what the project and the store
    provide.  The project becomes current in every case.  Unless the
    parse of the metadata throws, the handler ends with its notice of
    success; a project without a website leaves the page and the URL box
    of the screen as they were, and a listing that rejects leaves the
    posts, or the chat, that were on the screen — those of the project
    shown before.  When the project has a URL and a metadata text that
    is no JSON, the parse throws outside every [try]: the project is
    current and its URL is in the box, but page, selection, posts and
    chat are those of before, no listing is asked for and no notice is
    shown. *)
Theorem loadProject_keeps_what_it_lacks (b : Backend) (project : Project) (z : Session) :
  let z' := loadProject b project z in
  currentProject (view z') = Some project /\
  ((forall url, project_page project <> Unreadable url) ->
   last (trail z') (DbListProjects [])
   = Did (ToastSuccess (u16 "Loaded project: " ++ pr_name project))) /\
  (project_page project = NoPage ->
   websiteData (view z') = websiteData (view z) /\ websiteUrl (view z') = websiteUrl (view z)) /\
  (list_posts b (pr_id project) = None -> generatedPosts (view z') = generatedPosts (view z)) /\
  (list_messages b (pr_id project) = None -> chatMessages (view z') = chatMessages (view z)) /\
  (forall url t,
      url <> [] -> pr_websiteUrl project = Some url ->
      t <> [] -> pr_websiteMetadata project = Some (OtherText t) -> JSON.parse t = None ->
      view z' = setWebsiteUrl url (setCurrentProject (Some project) (view z)) /\
      trail z' = trail z).
Proof.
  intros z'.
  assert (T : forall url, project_page project = Unreadable url ->
                          z' = on_app (fun st => setWebsiteUrl url
                                                   (setCurrentProject (Some project) st)) z)
    by (intros url E; apply loadProject_thrown, E).
  assert (V : (forall url, project_page project <> Unreadable url) ->
              currentProject (view z') = Some project /\
              (project_page project = NoPage ->
               websiteData (view z') = websiteData (view z) /\
               websiteUrl (view z') = websiteUrl (view z)) /\
              generatedPosts (view z')
              = match list_posts b (pr_id project) with
                | Some posts => List.map of_stored_post posts
                | None => generatedPosts (view z) end /\
              chatMessages (view z')
              = match list_messages b (pr_id project) with
                | Some ms => List.map of_stored_message ms
                | None => chatMessages (view z) end /\
              last (trail z') (DbListProjects [])
              = Did (ToastSuccess (u16 "Loaded project: " ++ pr_name project))).
  { intros R. destruct (@loadProject_view b project z R) as (C & P & U & _ & G & M & _ & _ & L).
    fold z' in C, P, U, G, M, L.
    split; [exact C|]. split; [|split; [exact G|split; [exact M|exact L]]].
    intros E. rewrite E in P, U. auto. }
  destruct (project_page project) as [|page|url] eqn:PP.
  - destruct V as (C & P & G & M & L); [discriminate|].
    split; [exact C|]. split; [intros _; exact L|]. split; [exact P|].
    split; [intros E; rewrite E in G; exact G|].
    split; [intros E; rewrite E in M; exact M|].
    intros url t N U Nt Mt J.
    assert (X : project_page project = Unreadable url)
      by (apply project_page_unreadable;
          split; [exact N|split; [exact U|exists t; split; [exact Nt|split; [exact Mt|exact J]]]]).
    rewrite PP in X. discriminate X.
  - destruct V as (C & P & G & M & L); [discriminate|].
    split; [exact C|]. split; [intros _; exact L|]. split; [exact P|].
    split; [intros E; rewrite E in G; exact G|].
    split; [intros E; rewrite E in M; exact M|].
    intros url t N U Nt Mt J.
    assert (X : project_page project = Unreadable url)
      by (apply project_page_unreadable;
          split; [exact N|split; [exact U|exists t; split; [exact Nt|split; [exact Mt|exact J]]]]).
    rewrite PP in X. discriminate X.
  - rewrite (T url eq_refl). cbn [view trail on_app].
    split; [reflexivity|]. split; [intros R; destruct (R url eq_refl)|].
    split; [discriminate|]. split; [reflexivity|]. split; [reflexivity|].
    intros url' t N U Nt Mt J.
    assert (X : project_page project = Unreadable url')
      by (apply project_page_unreadable;
          split; [exact N|split; [exact U|exists t; split; [exact Nt|split; [exact Mt|exact J]]]]).
    rewrite PP in X. injection X as ->. split; reflexivity.
Qed.

(** A new project loaded over the page of another; and a record whose
    metadata text is no JSON. *)
Lemma loadProject_keeps_what_it_lacks_witness :
  let b := {| base := Samples.services Samples.plain [];
              list_projects := fun _ => None; list_posts := fun _ => None;
              list_messages := fun _ => None; number_text := fun _ => [] |} in
  let fresh_project :=
    {| pr_id := u16 "p2"; pr_userId := u16 "u1"; pr_name := u16 "New";
       pr_websiteUrl := None; pr_websiteTitle := None;
       pr_websiteDescription := None; pr_websiteContent := None;
       pr_websiteMetadata := None; pr_selectedPlatforms := None;
       pr_createdAt := []; pr_updatedAt := [] |} in
  let broken :=
    {| pr_id := u16 "p3"; pr_userId := u16 "u1"; pr_name := u16 "Old";
       pr_websiteUrl := Some (u16 "https://old.example"); pr_websiteTitle := None;
       pr_websiteDescription := None; pr_websiteContent := None;
       pr_websiteMetadata := Some (OtherText (u16 "[object Object]"));
       pr_selectedPlatforms := Some [Samples.linkedin];
       pr_createdAt := []; pr_updatedAt := [] |} in
  let z := {| view := Samples.signed_in [Samples.twitter]; chatInput := []; trail := [] |} in
  (currentProject (view (loadProject b fresh_project z)) = Some fresh_project /\
   last (trail (loadProject b fresh_project z)) (DbListProjects [])
   = Did (ToastSuccess (u16 "Loaded project: New")) /\
   websiteData (view (loadProject b fresh_project z)) = Some Samples.acme_page /\
   generatedPosts (view (loadProject b fresh_project z)) = [] /\
   chatMessages (view (loadProject b fresh_project z)) = []) /\
  (view (loadProject b broken z)
   = setWebsiteUrl (u16 "https://old.example")
                   (setCurrentProject (Some broken) (view z)) /\
   trail (loadProject b broken z) = trail z).
Proof.
  intros b fresh_project broken z.
  destruct (@loadProject_keeps_what_it_lacks b fresh_project z) as (C & L & P & G & M & _).
  destruct (@loadProject_keeps_what_it_lacks b broken z) as (_ & _ & _ & _ & _ & X).
  split.
  - split; [exact C|]. split; [apply L; intros url; discriminate|].
    split; [exact (proj1 (P eq_refl))|]. split; [exact (G eq_refl)|exact (M eq_refl)].
  - apply (X (u16 "https://old.example") (u16 "[object Object]")).
    + discriminate.
    + reflexivity.
    + discriminate.
    + reflexivity.
    + vm_compute. reflexivity.
Defined.

Lemma setProjects_same (st : AppState) : setProjects (projects st) st = st.
Proof. destruct st; reflexivity. Qed.

Lemma without_project_in (id : jsstring) (l : list Project) (p : Project) :
  In p (without_project id l) <-> In p l /\ pr_id p <> id.
Proof.
  unfold without_project. rewrite filter_In.
  destruct (str_eqb_spec (pr_id p) id) as [E|E]; simpl.
  - split; [intros [_ H]; discriminate|intros [_ H]; contradiction].
  - tauto.
Qed.

(** What [deleteProject] does to the list of projects. *)
Lemma deleteProject_projects (b : Backend) (id : jsstring) (z : Session) :
  projects (view (deleteProject b id z))
  = match user (view z) with
    | Some _ => if db_ok (base b) (writes z)
                then without_project id (projects (view z)) else projects (view z)
    | None => projects (view z)
    end.
Proof.
  unfold deleteProject. destruct (user (view z)) as [u|]; [|reflexivity].
  destruct (db_ok (base b) (writes z)); [|reflexivity].
  destruct (currentProject (view z)) as [cp|]; [|reflexivity].
  destruct (str_eqb (pr_id cp) id); [|reflexivity].
  destruct (without_project id (projects (view z))) as [|first rest] eqn:R.
  - cbn -[without_project]. exact R.
  - unfold loadProject_finish, loadProject_begin.
    destruct (project_page first), (pr_selectedPlatforms first),
      (list_posts b (pr_id first)), (list_messages b (pr_id first));
      cbn -[without_project]; exact R.
Qed.

(** X23: a deletion that the store accepts removes from the list every
    project with that id and no other; one that the store refuses, or
    that nobody is signed in for, leaves the list as it was.  When the
    deleted project is not the current one, nothing else on the screen
    changes. *)
Theorem deleteProject_removes (b : Backend) (id : jsstring) (z : Session) :
  (user (view z) <> None -> db_ok (base b) (writes z) = true ->
   forall p, In p (projects (view (deleteProject b id z)))
             <-> In p (projects (view z)) /\ pr_id p <> id) /\
  (user (view z) = None \/ db_ok (base b) (writes z) = false ->
   view (deleteProject b id z) = view z) /\
  (option_map pr_id (currentProject (view z)) <> Some id ->
   view (deleteProject b id z)
   = setProjects (projects (view (deleteProject b id z))) (view z)).
Proof.
  split; [|split].
  - intros U D p. rewrite deleteProject_projects.
    destruct (user (view z)); [|contradiction]. rewrite D. apply without_project_in.
  - intros H. unfold deleteProject. destruct (user (view z)) as [u|]; [|reflexivity].
    destruct H as [H|H]; [discriminate|]. rewrite H. reflexivity.
  - intros C. unfold deleteProject. destruct (user (view z)) as [u|];
      [|symmetry; apply setProjects_same].
    destruct (db_ok (base b) (writes z));
      [|cbn [view act]; symmetry; apply setProjects_same].
    destruct (currentProject (view z)) as [cp|] eqn:CP; [|reflexivity].
    destruct (str_eqb_spec (pr_id cp) id) as [E|E]; [|reflexivity].
    exfalso. apply C. simpl. congruence.
Qed.

Lemma deleteProject_removes_witness :
  let b := {| base := Samples.services Samples.plain [];
              list_projects := fun _ => None; list_posts := fun _ => None;
              list_messages := fun _ => None; number_text := fun _ => [] |} in
  let mk id := {| pr_id := id; pr_userId := u16 "u1"; pr_name := u16 "P";
                  pr_websiteUrl := None; pr_websiteTitle := None;
                  pr_websiteDescription := None; pr_websiteContent := None;
                  pr_websiteMetadata := None; pr_selectedPlatforms := None;
                  pr_createdAt := []; pr_updatedAt := [] |} in
  let s :=
    {| user := Some {| user_id := u16 "u1" |};
       projects := [mk (u16 "p1"); mk (u16 "p2")];
       currentProject := Some (mk (u16 "p1"));
       websiteUrl := []; websiteData := Some Samples.acme_page;
       selectedPlatforms := [Samples.twitter]; generatedPosts := [];
       chatMessages := []; log := [] |} in
  let z := {| view := s; chatInput := []; trail := [] |} in
  let z0 := {| view := Samples.screen [Samples.twitter]; chatInput := []; trail := [] |} in
  (forall p, In p (projects (view (deleteProject b (u16 "p2") z)))
             <-> In p (projects s) /\ pr_id p <> u16 "p2") /\
  view (deleteProject b (u16 "p2") z)
  = setProjects (projects (view (deleteProject b (u16 "p2") z))) s /\
  view (deleteProject b (u16 "p1") z0) = view z0.
Proof.
  intros b mk s z z0.
  destruct (@deleteProject_removes b (u16 "p2") z) as (H1 & _ & H3).
  split; [|split].
  - apply H1; [discriminate|reflexivity].
  - apply H3. discriminate.
  - exact (proj1 (proj2 (@deleteProject_removes b (u16 "p1") z0)) (or_introl eq_refl)).
Defined.

(** X24: when the current project is deleted, the first of the projects
    that remain is loaded and becomes current; when none remains, the
    screen is reset: no project, no page, an empty URL box, the selection
    [producthunt], no posts, no chat. *)
Theorem deleteProject_current (b : Backend) (z : Session) (u : User) (cp : Project) :
  user (view z) = Some u ->
  currentProject (view z) = Some cp ->
  db_ok (base b) (writes z) = true ->
  match without_project (pr_id cp) (projects (view z)) with
  | first :: _ => currentProject (view (deleteProject b (pr_id cp) z)) = Some first
  | [] => view (deleteProject b (pr_id cp) z) = reset_screen (setProjects [] (view z))
  end.
Proof.
  intros U CP D. unfold deleteProject. rewrite U, D, CP, str_eqb_refl.
  destruct (without_project (pr_id cp) (projects (view z))) as [|first rest] eqn:R.
  - cbn [view act on_app]. rewrite R. reflexivity.
  - unfold loadProject_finish, loadProject_begin.
    destruct (project_page first), (pr_selectedPlatforms first),
      (list_posts b (pr_id first)), (list_messages b (pr_id first)); reflexivity.
Qed.

Lemma deleteProject_current_witness :
  let b := {| base := Samples.services Samples.plain [];
              list_projects := fun _ => None; list_posts := fun _ => None;
              list_messages := fun _ => None; number_text := fun _ => [] |} in
  let cp := {| pr_id := u16 "p1"; pr_userId := u16 "u1"; pr_name := u16 "P";
               pr_websiteUrl := None; pr_websiteTitle := None;
               pr_websiteDescription := None; pr_websiteContent := None;
               pr_websiteMetadata := None; pr_selectedPlatforms := None;
               pr_createdAt := []; pr_updatedAt := [] |} in
  let s :=
    {| user := Some {| user_id := u16 "u1" |}; projects := [cp]; currentProject := Some cp;
       websiteUrl := u16 "https://acme.io"; websiteData := Some Samples.acme_page;
       selectedPlatforms := [Samples.twitter]; generatedPosts := [];
       chatMessages := []; log := [] |} in
  let z := {| view := s; chatInput := []; trail := [] |} in
  view (deleteProject b (u16 "p1") z) = reset_screen (setProjects [] s).
Proof.
  intros b cp s z.
  exact (@deleteProject_current b z {| user_id := u16 "u1" |} cp eq_refl eq_refl eq_refl).
Defined.
